(** * Account security core of backend-plus: lockout, tokens, recovery codes

    A shallow embedding of the authentication services of the repository
    ([src/models/user.model.ts], [src/auth/services/auth.service.ts],
    [src/auth/services/recovery.service.ts], the recovery controller and
    [src/utils/security.ts]) together with the properties the specification
    states about them.

    The MongoDB collections are lists of documents in natural order, every
    asynchronous method is a computation in a state-and-exception monad
    over the [World] (the two collections, the log, the entropy counter),
    and the wall clock is an explicit argument [now] in milliseconds. *)

From Stdlib Require Import ZArith List String Ascii Bool Lia.
Import ListNotations.
Open Scope string_scope.
Open Scope Z_scope.

Set Implicit Arguments.

(** ** Session tokens: the claims and the token of jsonwebtoken

    A compact JWS is either a string that does not decode into header,
    payload and signature, or a payload with a signature. *)

Module AuthTokenPayload.
(** the claims handed to [generateToken]: [Omit<AuthTokenPayload, 'iat' | 'exp'>] *)
Record t := mk {
  id : string;
  email : string;
  nickname : string
}.
End AuthTokenPayload.

Module Jwt.
(** the payload inside a token: the claims and the registered claims that
    [jwt.sign] adds from its options *)
Record Payload := mkPayload {
  claims : AuthTokenPayload.t;
  iat : Z;
  exp : option Z;
  iss : option string;
  aud : option string
}.

Inductive token :=
| Malformed (raw : string)
| Jws (payload : Payload) (signature : string).
End Jwt.

(** ** The platform

    Functions of the JavaScript runtime and of the third-party packages the
    code calls.  They are left uninterpreted; everything below holds for
    every platform.  The laws are the contract of bcrypt (a password
    compares equal to its own hash) and that lowercasing and trimming an
    already lowercased and trimmed string changes nothing. *)

Record Platform := {
  (** [String.prototype.toLowerCase], [trim], [normalize('NFKC')] *)
  toLowerCase : string -> string;
  trim : string -> string;
  nfkc : string -> string;
  (** [createHash('sha256').update(x).digest('hex')] *)
  sha256 : string -> string;
  (** [randomBytes(n).toString('hex').toUpperCase()] at the k-th draw *)
  randomHex : nat -> nat -> string;
  (** [bcrypt.hash(password, rounds)] with the salt of the k-th draw *)
  bcrypt_hash : string -> Z -> nat -> string;
  (** [bcrypt.compare(candidate, hash)] *)
  bcrypt_compare : string -> string -> bool;
  (** HS256 signature of an encoded payload under a secret *)
  hs256 : string -> Jwt.Payload -> string;
  (** a fresh [ObjectId] rendered by [toString()] *)
  objectId : nat -> string;
  bcrypt_compare_hash :
    forall pw rounds k, bcrypt_compare pw (bcrypt_hash pw rounds k) = true;
  lower_trim_idem :
    forall s, trim (toLowerCase (trim (toLowerCase s))) = trim (toLowerCase s)
}.

(** ** Configuration ([src/config/auth.config.ts]) *)

Record AuthConfig := {
  JWT_SECRET : option string;
  (** [JWT_EXPIRES_IN] as the number of seconds it denotes (default 7d) *)
  jwtExpiresIn : Z;
  jwtIssuer : string;
  jwtAudience : string;
  passwordSaltRounds : Z;
  passwordMinLength : Z;
  passwordRequireSpecialChar : bool;
  passwordRequireNumber : bool;
  passwordRequireUppercase : bool
}.

Definition MAX_LOGIN_ATTEMPTS : Z := 5.
Definition LOCK_TIME : Z := 2 * 60 * 60 * 1000.

(** ** Errors *)

Inductive ErrorCodes :=
| INVALID_CREDENTIALS | LOGIN_FAILED | USER_CREATION_FAILED
| EMAIL_EXISTS | NICKNAME_EXISTS | WEAK_PASSWORD
| TOKEN_GENERATION_FAILED | TOKEN_EXPIRED | INVALID_TOKEN
| TOKEN_VERIFICATION_FAILED.

(** The exceptions of the program: [AppError] with its message, HTTP status
    and code, a plain [Error], a mongoose validation error, the two error
    classes of jsonwebtoken, and the [TypeError] of the runtime. *)
Inductive Exn :=
| AppError (message : string) (statusCode : Z) (code : ErrorCodes)
| Error (message : string)
| ValidationError (message : string)
| TokenExpiredError
| JsonWebTokenError (message : string)
| TypeError (message : string).

Definition is_AppError (e : Exn) : bool :=
  match e with AppError _ _ _ => true | _ => false end.

Definition code_of (e : Exn) : option ErrorCodes :=
  match e with AppError _ _ c => Some c | _ => None end.

(** ** Documents *)

Module IUser.
Record t := mk {
  _id : string;
  email : string;
  password : string;
  nickname : string;
  isVerified : bool;
  backupCodes : list string;
  lastPasswordChange : Z;
  lastLoginAt : option Z;
  (** the three lockout fields can be [$unset]: [None] is an absent field *)
  failedLoginAttempts : option Z;
  accountLocked : option bool;
  lockUntil : option Z;
  createdAt : Z
}.

Definition set_lockout (fa : option Z) (al : option bool) (lu : option Z)
    (u : t) : t :=
  mk (_id u) (email u) (password u) (nickname u) (isVerified u)
     (backupCodes u) (lastPasswordChange u) (lastLoginAt u) fa al lu
     (createdAt u).

Definition set_lastLoginAt (l : option Z) (u : t) : t :=
  mk (_id u) (email u) (password u) (nickname u) (isVerified u)
     (backupCodes u) (lastPasswordChange u) l (failedLoginAttempts u)
     (accountLocked u) (lockUntil u) (createdAt u).

Definition set_backupCodes (bc : list string) (u : t) : t :=
  mk (_id u) (email u) (password u) (nickname u) (isVerified u)
     bc (lastPasswordChange u) (lastLoginAt u) (failedLoginAttempts u)
     (accountLocked u) (lockUntil u) (createdAt u).

Definition set_password (pw : string) (changed : Z) (u : t) : t :=
  mk (_id u) (email u) pw (nickname u) (isVerified u)
     (backupCodes u) changed (lastLoginAt u) (failedLoginAttempts u)
     (accountLocked u) (lockUntil u) (createdAt u).

(** Schema defaults, applied when a document is hydrated. *)
Definition attempts (u : t) : Z :=
  match failedLoginAttempts u with Some n => n | None => 0 end.
Definition locked_flag (u : t) : bool :=
  match accountLocked u with Some b => b | None => false end.
End IUser.

Module IRecoveryCode.
Record t := mk {
  userId : string;
  code : string;
  used : bool;
  expiresAt : Z
}.
End IRecoveryCode.

(** ** The world and the monad *)

Inductive Event :=
| LogSecurity (event : string)
| LogAuth (event : string)
| LogWarn
| LogError
| BcryptCompare (userId : string)
| MailSent (to code : string).

Record World := mkWorld {
  users : list IUser.t;
  recoveryCodes : list IRecoveryCode.t;
  trace : list Event;
  (** number of draws made from the entropy source *)
  draws : nat;
  (** whether the SMTP transport accepts mail *)
  smtpUp : bool
}.

Inductive Outcome (A : Type) :=
| Return (a : A)
| Throw (e : Exn).
Arguments Return {A} a.
Arguments Throw {A} e.

Definition M (A : Type) : Type := World -> Outcome A * World.

Definition ret {A} (a : A) : M A := fun w => (Return a, w).
Definition throw {A} (e : Exn) : M A := fun w => (Throw e, w).
Definition bind {A B} (m : M A) (k : A -> M B) : M B :=
  fun w => match m w with
           | (Return a, w') => k a w'
           | (Throw e, w') => (Throw e, w')
           end.
Definition try_catch {A} (m : M A) (h : Exn -> M A) : M A :=
  fun w => match m w with
           | (Return a, w') => (Return a, w')
           | (Throw e, w') => h e w'
           end.

Notation "x <- m ;; k" := (bind m (fun x => k))
  (at level 61, m at next level, right associativity).
Notation "m ;;; k" := (bind m (fun _ => k))
  (at level 61, right associativity).

Definition emit (e : Event) : M unit :=
  fun w => (Return tt,
            mkWorld (users w) (recoveryCodes w) (trace w ++ [e]) (draws w)
                    (smtpUp w)).
Definition draw : M nat :=
  fun w => (Return (draws w),
            mkWorld (users w) (recoveryCodes w) (trace w) (S (draws w))
                    (smtpUp w)).
Definition getUsers : M (list IUser.t) := fun w => (Return (users w), w).
Definition putUsers (us : list IUser.t) : M unit :=
  fun w => (Return tt,
            mkWorld us (recoveryCodes w) (trace w) (draws w) (smtpUp w)).
Definition getCodes : M (list IRecoveryCode.t) :=
  fun w => (Return (recoveryCodes w), w).
Definition putCodes (cs : list IRecoveryCode.t) : M unit :=
  fun w => (Return tt,
            mkWorld (users w) cs (trace w) (draws w) (smtpUp w)).
Definition getSmtp : M bool := fun w => (Return (smtpUp w), w).

(** ** Collection operations *)

Section Collections.
Variable D : Type.

(** [findOne]: the first document that matches. *)
Definition findOne (p : D -> bool) (c : list D) : option D := find p c.

(** [updateOne]: the first match is rewritten, nothing else. *)
Fixpoint updateOne (p : D -> bool) (f : D -> D) (c : list D) : list D :=
  match c with
  | [] => []
  | d :: c' => if p d then f d :: c' else d :: updateOne p f c'
  end.

(** [findOneAndDelete]: the first match is removed and returned. *)
Fixpoint findOneAndDelete (p : D -> bool) (c : list D)
    : option D * list D :=
  match c with
  | [] => (None, [])
  | d :: c' =>
      if p d then (Some d, c')
      else let (r, c'') := findOneAndDelete p c' in (r, d :: c'')
  end.

(** [deleteMany]: every match is removed. *)
Definition deleteMany (p : D -> bool) (c : list D) : list D :=
  filter (fun d => negb (p d)) c.
End Collections.

Definition byId (i : string) (u : IUser.t) : bool := String.eqb (IUser._id u) i.
Definition byEmail (e : string) (u : IUser.t) : bool := String.eqb (IUser.email u) e.
Definition byNickname (n : string) (u : IUser.t) : bool :=
  String.eqb (IUser.nickname u) n.

Definition findById (i : string) (c : list IUser.t) : option IUser.t :=
  findOne (byId i) c.

(** ** Character classes of the regular expressions ([src/utils/security.ts]) *)

Definition chars (s : string) : list ascii := list_ascii_of_string s.

Definition in_range (lo hi : nat) (c : ascii) : bool :=
  ((lo <=? nat_of_ascii c) && (nat_of_ascii c <=? hi))%nat.

(** [[A-Z]], [[a-z]], [\d] *)
Definition isUpper (c : ascii) : bool := in_range 65 90 c.
Definition isLower (c : ascii) : bool := in_range 97 122 c.
Definition isDigit (c : ascii) : bool := in_range 48 57 c.

(** the class of special characters; the double quote is character 34 *)
Definition isSpecial (c : ascii) : bool :=
  existsb (Ascii.eqb c) (chars "!@#$%^&*()_+-=[]{};':\|,.<>/?")
  || Ascii.eqb c (ascii_of_nat 34).

(** [\s] on code units below 256 *)
Definition isSpace (c : ascii) : bool :=
  in_range 9 13 c || Ascii.eqb c " " || Ascii.eqb c (ascii_of_nat 160).

Definition is_nil {A} (l : list A) : bool :=
  match l with [] => true | _ => false end.

(** a dot with a character before it and a character after it *)
Fixpoint has_inner_dot (seen : bool) (l : list ascii) : bool :=
  match l with
  | [] => false
  | c :: r =>
      (seen && Ascii.eqb c "." && negb (is_nil r)) || has_inner_dot true r
  end.

Fixpoint split_at (c : ascii) (l : list ascii) : option (list ascii * list ascii) :=
  match l with
  | [] => None
  | x :: r =>
      if Ascii.eqb x c then Some ([], r)
      else match split_at c r with
           | Some (a, b) => Some (x :: a, b)
           | None => None
           end
  end.

(** [/^[^\s@]+@[^\s@]+\.[^\s@]+$/] *)
Definition isValidEmail (email : string) : bool :=
  let ok c := negb (isSpace c) && negb (Ascii.eqb c "@") in
  match split_at "@" (chars email) with
  | Some (loc, dom) =>
      negb (is_nil loc) && forallb ok loc && forallb ok dom
      && has_inner_dot false dom
  | None => false
  end.

(** [/^[a-zA-Z0-9_]{3,30}$/] *)
Definition isValidNickname (nickname : string) : bool :=
  let n := List.length (chars nickname) in
  ((3 <=? n) && (n <=? 30))%nat
  && forallb (fun c => isUpper c || isLower c || isDigit c || Ascii.eqb c "_")
             (chars nickname).

Definition strlen (s : string) : Z := Z.of_nat (String.length s).

(** ** Requests and responses *)

Module CreateUserDTO.
Record t := mk { email : string; password : string; nickname : string }.
End CreateUserDTO.

Module LoginUserDTO.
Record t := mk { email : string; password : string }.
End LoginUserDTO.

Module SanitizedUser.
Record t := mk {
  id : string;
  email : string;
  nickname : string;
  isVerified : bool;
  createdAt : Z;
  lastPasswordChange : Z
}.
End SanitizedUser.

Record AuthResult := mkAuthResult {
  user : SanitizedUser.t;
  token : Jwt.token
}.

(** [res.status(s).json({ success, message })] *)
Record Response := mkResponse {
  statusCode : Z;
  success : bool;
  message : string
}.

(** [Array.prototype.indexOf] on strings; [None] is -1 *)
Fixpoint indexOf (x : string) (l : list string) : option nat :=
  match l with
  | [] => None
  | y :: r =>
      if String.eqb y x then Some O
      else match indexOf x r with Some i => Some (S i) | None => None end
  end.

(** [splice(index, 1)] *)
Definition splice1 (index : nat) (l : list string) : list string :=
  firstn index l ++ skipn (S index) l.

Fixpoint drawMany (n : nat) : M (list nat) :=
  match n with
  | O => ret []
  | S n' => k <- draw ;; ks <- drawMany n' ;; ret (k :: ks)
  end.

Definition isSome {A} (o : option A) : bool :=
  match o with Some _ => true | None => false end.

Section Backend.
Variable P : Platform.
Variable cfg : AuthConfig.

(** *** [SecurityUtils.validatePasswordStrength] *)
Definition validatePasswordStrength (password : string) : bool :=
  if strlen password <? passwordMinLength cfg then false
  else if passwordRequireUppercase cfg
          && negb (existsb isUpper (chars password)) then false
  else if negb (existsb isLower (chars password)) then false
  else if passwordRequireNumber cfg
          && negb (existsb isDigit (chars password)) then false
  else if passwordRequireSpecialChar cfg
          && negb (existsb isSpecial (chars password)) then false
  else true.

(** *** [AuthConfig.getJwtSecret]: an absent or empty secret throws *)
Definition getJwtSecret : Outcome string :=
  match JWT_SECRET cfg with
  | Some s => if String.eqb s "" then
                Throw (Error "JWT_SECRET is not defined in environment variables")
              else Return s
  | None => Throw (Error "JWT_SECRET is not defined in environment variables")
  end.

(** *** jsonwebtoken: [jwt.sign] and [jwt.verify] with HS256

    [sign] stamps [iat] with the clock in seconds, [exp] with the lifetime
    added, and the issuer and audience of the options.  [verify] checks the
    shape, the signature, the expiry, the audience and the issuer, in that
    order. *)
Definition jwt_sign (payload : AuthTokenPayload.t) (secret : string) (now : Z)
    : Jwt.token :=
  let iat := now / 1000 in
  let p := Jwt.mkPayload payload iat (Some (iat + jwtExpiresIn cfg))
                         (Some (jwtIssuer cfg)) (Some (jwtAudience cfg)) in
  Jwt.Jws p (hs256 P secret p).

Definition opt_is (o : option string) (s : string) : bool :=
  match o with Some x => String.eqb x s | None => false end.

Definition expired (p : Jwt.Payload) (now : Z) : bool :=
  match Jwt.exp p with Some e => e <=? now / 1000 | None => false end.

Definition jwt_verify (tok : Jwt.token) (secret : string) (now : Z)
    : Outcome Jwt.Payload :=
  match tok with
  | Jwt.Malformed _ => Throw (JsonWebTokenError "jwt malformed")
  | Jwt.Jws p sg =>
      if negb (String.eqb sg (hs256 P secret p)) then
        Throw (JsonWebTokenError "invalid signature")
      else if expired p now then Throw TokenExpiredError
      else if negb (opt_is (Jwt.aud p) (jwtAudience cfg)) then
        Throw (JsonWebTokenError "jwt audience invalid")
      else if negb (opt_is (Jwt.iss p) (jwtIssuer cfg)) then
        Throw (JsonWebTokenError "jwt issuer invalid")
      else Return p
  end.

(** [TokenExpiredError] extends [JsonWebTokenError] *)
Definition instanceof_TokenExpiredError (e : Exn) : bool :=
  match e with TokenExpiredError => true | _ => false end.
Definition instanceof_JsonWebTokenError (e : Exn) : bool :=
  match e with TokenExpiredError | JsonWebTokenError _ => true | _ => false end.

(** *** [AuthService.generateToken] *)
Definition generateToken (payload : AuthTokenPayload.t) (now : Z)
    : Outcome Jwt.token :=
  match getJwtSecret with
  | Return secret => Return (jwt_sign payload secret now)
  | Throw _ =>
      Throw (AppError "Token generation failed" 500 TOKEN_GENERATION_FAILED)
  end.

(** *** [AuthService.verifyToken] *)
Definition verifyToken (tok : Jwt.token) (now : Z) : Outcome Jwt.Payload :=
  let attempt :=
    match getJwtSecret with
    | Return secret => jwt_verify tok secret now
    | Throw e => Throw e
    end in
  match attempt with
  | Return decoded => Return decoded
  | Throw error =>
      if instanceof_TokenExpiredError error then
        Throw (AppError "Token expired" 401 TOKEN_EXPIRED)
      else if instanceof_JsonWebTokenError error then
        Throw (AppError "Invalid token" 401 INVALID_TOKEN)
      else
        Throw (AppError "Token verification failed" 401
                        TOKEN_VERIFICATION_FAILED)
  end.

(** *** Normalisation helpers of [AuthService] *)
Definition normalizeEmail (email : string) : string :=
  trim P (toLowerCase P email).
Definition normalizeNickname (nickname : string) : string := trim P nickname.
Definition normalizePassword (password : string) : string := nfkc P password.

Definition sanitizeUser (u : IUser.t) : SanitizedUser.t :=
  SanitizedUser.mk (IUser._id u) (IUser.email u) (IUser.nickname u)
                   (IUser.isVerified u) (IUser.createdAt u)
                   (IUser.lastPasswordChange u).

(** *** The user model ([src/models/user.model.ts]) *)

(** [this.updateOne(update)]: the stored document with this id is updated *)
Definition updateUser (i : string) (f : IUser.t -> IUser.t) : M unit :=
  us <- getUsers ;; putUsers (updateOne (byId i) f us).

(** [isAccountLocked()] and the virtual [isLocked] *)
Definition isAccountLocked (this : IUser.t) (now : Z) : bool :=
  match IUser.lockUntil this with Some t => now <? t | None => false end.
Definition isLocked (this : IUser.t) (now : Z) : bool :=
  match IUser.lockUntil this with Some t => now <? t | None => false end.

(** [$inc: { failedLoginAttempts: 1 }]: an absent field counts from 0 *)
Definition inc_attempts (d : IUser.t) : option Z :=
  Some (IUser.attempts d + 1).

Definition incrementLoginAttempts (this : IUser.t) (now : Z) : M unit :=
  if match IUser.lockUntil this with Some t => t <? now | None => false end
  then
    updateUser (IUser._id this) (IUser.set_lockout (Some 1) None None)
  else
    let lock := (MAX_LOGIN_ATTEMPTS <=? IUser.attempts this + 1)
                && negb (isLocked this now) in
    (if lock then emit (LogSecurity "ACCOUNT_LOCKED") else ret tt) ;;;
    updateUser (IUser._id this)
      (fun d =>
         if lock then
           IUser.set_lockout (inc_attempts d) (Some true)
                             (Some (now + LOCK_TIME)) d
         else
           IUser.set_lockout (inc_attempts d) (IUser.accountLocked d)
                             (IUser.lockUntil d) d).

Definition resetLoginAttempts (this : IUser.t) (now : Z) : M unit :=
  updateUser (IUser._id this)
    (fun d => IUser.set_lastLoginAt (Some now)
                (IUser.set_lockout None None None d)) ;;;
  emit (LogAuth "LOGIN_SUCCESS").

(** [comparePassword]: an unloaded password is an error, caught, false *)
Definition comparePassword (this : IUser.t) (candidatePassword : string)
    : M bool :=
  if String.eqb (IUser.password this) "" then emit LogError ;;; ret false
  else
    emit (BcryptCompare (IUser._id this)) ;;;
    ret (bcrypt_compare P candidatePassword (IUser.password this)).

Definition findByCredentials (email password : string) (now : Z)
    : M (option IUser.t) :=
  try_catch
    (let normalizedEmail := trim P (toLowerCase P email) in
     us <- getUsers ;;
     match findOne (byEmail normalizedEmail) us with
     | None => ret None
     | Some user =>
         if isAccountLocked user now then
           emit (LogSecurity "LOGIN_ATTEMPT_LOCKED_ACCOUNT") ;;;
           throw (Error "ACCOUNT_LOCKED")
         else
           isPasswordMatch <- comparePassword user password ;;
           if negb isPasswordMatch then
             incrementLoginAttempts user now ;;; ret None
           else
             resetLoginAttempts user now ;;; ret (Some user)
     end)
    (fun error => emit LogError ;;; throw error).

(** Schema validators of the three required paths. *)
Definition validEmailPath (email : string) : bool :=
  negb (String.eqb email "") && (strlen email <=? 254) && isValidEmail email.
Definition validPasswordPath (password : string) : bool :=
  negb (String.eqb password "") && (8 <=? strlen password)
  && (strlen password <=? 128) && validatePasswordStrength password.
Definition validNicknamePath (nickname : string) : bool :=
  negb (String.eqb nickname "") && (3 <=? strlen nickname)
  && (strlen nickname <=? 30) && isValidNickname nickname.

(** [User.create]: a new document is validated, the pre-save hooks hash the
    password and normalise email and nickname, the unique indexes are
    enforced on insert.  The post-save hook logs [USER_CREATED] only when
    [this.isNew], which is already false when it runs, so it logs
    nothing. *)
Definition User_create (email password nickname : string) (now : Z)
    : M IUser.t :=
  i <- draw ;;
  let email := trim P (toLowerCase P email) in
  let nickname := trim P nickname in
  if negb (validEmailPath email && validPasswordPath password
           && validNicknamePath nickname) then
    throw (ValidationError "User validation failed")
  else
    k <- draw ;;
    let hashed := bcrypt_hash P password (passwordSaltRounds cfg) k in
    let email := trim P (toLowerCase P email) in
    let nickname := trim P nickname in
    let doc := IUser.mk (objectId P i) email hashed nickname false []
                        now None (Some 0) (Some false) None now in
    us <- getUsers ;;
    if existsb (byEmail email) us then throw (Error "Email already exists")
    else if existsb (byNickname nickname) us then
      throw (Error "Nickname already exists")
    else
      putUsers (us ++ [doc]) ;;;
      ret doc.

(** [user.password = newPassword; await user.save()] on a stored user: the
    modified path is validated, hashed by the pre-save hook and written. *)
Definition save_password (this : IUser.t) (newPassword : string) (now : Z)
    : M unit :=
  if negb (validPasswordPath newPassword) then
    throw (ValidationError "User validation failed")
  else
    k <- draw ;;
    let hashed := bcrypt_hash P newPassword (passwordSaltRounds cfg) k in
    updateUser (IUser._id this) (IUser.set_password hashed now).

(** *** [AuthService] ([src/auth/services/auth.service.ts]) *)

Definition checkEmailExists (email : string) : M unit :=
  us <- getUsers ;;
  if isSome (findOne (byEmail email) us) then
    throw (AppError "Email already registered" 409 EMAIL_EXISTS)
  else ret tt.

Definition checkNicknameExists (nickname : string) : M unit :=
  us <- getUsers ;;
  if isSome (findOne (byNickname nickname) us) then
    throw (AppError "Nickname already taken" 409 NICKNAME_EXISTS)
  else ret tt.

Definition comparePasswords (userId candidatePassword hashedPassword : string)
    : M bool :=
  emit (BcryptCompare userId) ;;;
  ret (bcrypt_compare P candidatePassword hashedPassword).

Definition createUser (userData : CreateUserDTO.t) (now : Z)
    : M SanitizedUser.t :=
  try_catch
    (let normalizedEmail := normalizeEmail (CreateUserDTO.email userData) in
     let normalizedNickname :=
       normalizeNickname (CreateUserDTO.nickname userData) in
     checkEmailExists normalizedEmail ;;;
     checkNicknameExists normalizedNickname ;;;
     (if validatePasswordStrength (CreateUserDTO.password userData) then ret tt
      else throw (AppError "Password does not meet strength requirements"
                           400 WEAK_PASSWORD)) ;;;
     user <- User_create normalizedEmail
               (normalizePassword (CreateUserDTO.password userData))
               normalizedNickname now ;;
     emit (LogAuth "USER_CREATED") ;;;
     ret (sanitizeUser user))
    (fun error =>
       if is_AppError error then throw error
       else emit LogError ;;;
            throw (AppError "User creation failed" 500 USER_CREATION_FAILED)).

Definition lift {A} (o : Outcome A) : M A := fun w => (o, w).

Definition loginUser (loginData : LoginUserDTO.t) (now : Z) : M AuthResult :=
  try_catch
    (let normalizedEmail := normalizeEmail (LoginUserDTO.email loginData) in
     us <- getUsers ;;
     match findOne (byEmail normalizedEmail) us with
     | None =>
         emit (LogSecurity "LOGIN_ATTEMPT_INVALID_USER") ;;;
         throw (AppError "Invalid credentials" 401 INVALID_CREDENTIALS)
     | Some user =>
         isPasswordValid <-
           comparePasswords (IUser._id user)
             (normalizePassword (LoginUserDTO.password loginData))
             (IUser.password user) ;;
         if negb isPasswordValid then
           emit (LogSecurity "LOGIN_ATTEMPT_INVALID_PASSWORD") ;;;
           throw (AppError "Invalid credentials" 401 INVALID_CREDENTIALS)
         else
           token <- lift (generateToken
                            (AuthTokenPayload.mk (IUser._id user)
                               (IUser.email user) (IUser.nickname user))
                            now) ;;
           emit (LogAuth "USER_LOGIN_SUCCESS") ;;;
           ret (mkAuthResult (sanitizeUser user) token)
     end)
    (fun error =>
       if is_AppError error then throw error
       else emit LogError ;;;
            throw (AppError "Login failed" 500 LOGIN_FAILED)).

(** *** [RecoveryService] ([src/auth/services/recovery.service.ts]) *)

Definition ownedBy (userId : string) (d : IRecoveryCode.t) : bool :=
  String.eqb (IRecoveryCode.userId d) userId.

(** the filter [{ userId, code: hashedCode, expiresAt: { $gt: now } }] *)
Definition liveMatch (userId hashedCode : string) (now : Z)
    (d : IRecoveryCode.t) : bool :=
  String.eqb (IRecoveryCode.userId d) userId
  && String.eqb (IRecoveryCode.code d) hashedCode
  && (now <? IRecoveryCode.expiresAt d).

Definition generateRecoveryCode (userId : string) (now : Z) : M string :=
  cs <- getCodes ;;
  putCodes (deleteMany (ownedBy userId) cs) ;;;
  k <- draw ;;
  let code := randomHex P k 3 in
  let hashedCode := sha256 P code in
  cs <- getCodes ;;
  putCodes (cs ++ [IRecoveryCode.mk userId hashedCode false
                                    (now + 15 * 60 * 1000)]) ;;;
  ret code.

Definition sendRecoveryEmail (email code : string) : M unit :=
  up <- getSmtp ;;
  if up then emit (MailSent email code)
  else emit LogError ;;;
       throw (Error "EmailService: password reset send failed").

Definition verifyRecoveryCode (userId code : string) (now : Z) : M bool :=
  let hashedCode := sha256 P code in
  cs <- getCodes ;;
  let (recoveryCode, cs') :=
    findOneAndDelete (liveMatch userId hashedCode now) cs in
  putCodes cs' ;;;
  ret (isSome recoveryCode).

(** The queries by id take the id of a document or another well-formed
    [ObjectId] (see [isObjectId]); for any other string Mongoose fails
    with a [CastError], which is not modelled. *)
Definition generateBackupCodes (userId : string) : M (list string) :=
  ks <- drawMany 5 ;;
  let codes := map (fun k => randomHex P k 8) ks in
  updateUser userId (IUser.set_backupCodes (map (sha256 P) codes)) ;;;
  ret codes.

Definition validateBackupCode (userId code : string) : M bool :=
  us <- getUsers ;;
  match findById userId us with
  | None => ret false
  | Some user =>
      let hashedCode := sha256 P code in
      match indexOf hashedCode (IUser.backupCodes user) with
      | None => ret false
      | Some index =>
          updateUser (IUser._id user)
            (IUser.set_backupCodes (splice1 index (IUser.backupCodes user))) ;;;
          ret true
      end
  end.

(** *** [RecoveryController]

    A handler returns the response it sends; an exception is what
    [asyncHandler] passes to [next].  The filter [{ email }] is compared
    with the address as the request gives it; Mongoose first casts it
    through the setters of the schema (lowercase, trim), which leave an
    address in its stored form as it is, and the statements about these
    handlers are about such addresses. *)

Definition RecoveryController_initPasswordReset (email : string) (now : Z)
    : M Response :=
  us <- getUsers ;;
  match findOne (byEmail email) us with
  | None =>
      emit LogWarn ;;;
      ret (mkResponse 200 true
             "If the email exists, a recovery code has been sent")
  | Some user =>
      code <- generateRecoveryCode (IUser._id user) now ;;
      sendRecoveryEmail (IUser.email user) code ;;;
      ret (mkResponse 200 true "Recovery code sent to email")
  end.

Definition RecoveryController_verifyRecoveryCode
    (email code newPassword : string) (now : Z) : M Response :=
  us <- getUsers ;;
  match findOne (byEmail email) us with
  | None => throw (Error "User not found")
  | Some user =>
      isValid <- verifyRecoveryCode (IUser._id user) code now ;;
      if negb isValid then throw (Error "Invalid or expired code")
      else
        save_password user newPassword now ;;;
        ret (mkResponse 200 true "Password reset successfully")
  end.

Definition RecoveryController_useBackupCode (req_user : option IUser.t)
    (code : string) (now : Z) : M Response :=
  match req_user with
  | None => throw (Error "User not authenticated")
  | Some user =>
      isValid <- verifyRecoveryCode (IUser._id user) code now ;;
      if negb isValid then throw (Error "Invalid backup code")
      else ret (mkResponse 200 true "Backup code verified")
  end.

(** *** The operations that write to the stores *)

Inductive Operation :=
| OpCreateUser (userData : CreateUserDTO.t)
| OpLoginUser (loginData : LoginUserDTO.t)
| OpFindByCredentials (email password : string)
| OpIncrementLoginAttempts (this : IUser.t)
| OpResetLoginAttempts (this : IUser.t)
| OpGenerateRecoveryCode (userId : string)
| OpVerifyRecoveryCode (userId code : string)
| OpGenerateBackupCodes (userId : string)
| OpValidateBackupCode (userId code : string)
| OpInitPasswordReset (email : string)
| OpResetPassword (email code newPassword : string)
| OpUseBackupCode (req_user : option IUser.t) (code : string).

Definition discard {A} (m : M A) : World -> World := fun w => snd (m w).

Definition run (op : Operation) (now : Z) : World -> World :=
  match op with
  | OpCreateUser d => discard (createUser d now)
  | OpLoginUser d => discard (loginUser d now)
  | OpFindByCredentials e p => discard (findByCredentials e p now)
  | OpIncrementLoginAttempts u => discard (incrementLoginAttempts u now)
  | OpResetLoginAttempts u => discard (resetLoginAttempts u now)
  | OpGenerateRecoveryCode i => discard (generateRecoveryCode i now)
  | OpVerifyRecoveryCode i c => discard (verifyRecoveryCode i c now)
  | OpGenerateBackupCodes i => discard (generateBackupCodes i)
  | OpValidateBackupCode i c => discard (validateBackupCode i c)
  | OpInitPasswordReset e => discard (RecoveryController_initPasswordReset e now)
  | OpResetPassword e c p =>
      discard (RecoveryController_verifyRecoveryCode e c p now)
  | OpUseBackupCode u c => discard (RecoveryController_useBackupCode u c now)
  end.

Definition isGenerateBackupCodes (op : Operation) : bool :=
  match op with OpGenerateBackupCodes _ => true | _ => false end.

End Backend.

(** ** More of [SecurityUtils] ([src/utils/security.ts]) *)

(** [String.prototype.split] with a one-character separator *)
Fixpoint split_on (sep : ascii) (l : list ascii) : list (list ascii) :=
  match l with
  | [] => [[]]
  | c :: r =>
      if Ascii.eqb c sep then [] :: split_on sep r
      else match split_on sep r with
           | p :: ps => (c :: p) :: ps
           | [] => [[c]]
           end
  end.

(** the table [htmlEntities] of [sanitizeInput] *)
Definition htmlEntity (c : ascii) : option string :=
  if Ascii.eqb c "&" then Some "&amp;"
  else if Ascii.eqb c "<" then Some "&lt;"
  else if Ascii.eqb c ">" then Some "&gt;"
  else if Ascii.eqb c (ascii_of_nat 34) then Some "&quot;"
  else if Ascii.eqb c "'" then Some "&#x27;"
  else if Ascii.eqb c "/" then Some "&#x2F;"
  else if Ascii.eqb c "`" then Some "&#x60;"
  else if Ascii.eqb c "=" then Some "&#x3D;"
  else None.

(** [sanitizeInput]: every character of the class of the regular
    expression (the keys of the table) is replaced by its entity *)
Fixpoint sanitizeInput (input : string) : string :=
  match input with
  | EmptyString => EmptyString
  | String c r =>
      match htmlEntity c with
      | Some e => e ++ sanitizeInput r
      | None => String c (sanitizeInput r)
      end
  end.

(** [maskEmail] *)
Definition maskEmail (email : string) : string :=
  let parts := split_on "@" (chars email) in
  match nth_error parts 0, nth_error parts 1 with
  | Some localPart, Some domain =>
      if is_nil localPart || is_nil domain then "***@***"
      else
        let n := List.length localPart in
        let maskedLocal :=
          if (2 <? n)%nat then
            (hd "*"%char localPart :: repeat "*"%char (n - 2)
             ++ [last localPart "*"%char])%list
          else repeat "*"%char n in
        string_of_list_ascii (maskedLocal ++ "@"%char :: domain)
  | _, _ => "***@***"
  end.

(** [Buffer.from(s)]: the UTF-8 bytes of a string of code units below 256 *)
Definition utf8 (c : ascii) : list nat :=
  let n := nat_of_ascii c in
  if (n <? 128)%nat then [n] else [192 + n / 64; 128 + n mod 64]%nat.

Definition Buffer_from (s : string) : list nat := flat_map utf8 (chars s).

Fixpoint bytes_eqb (a b : list nat) : bool :=
  match a, b with
  | [], [] => true
  | x :: a', y :: b' => Nat.eqb x y && bytes_eqb a' b'
  | _, _ => false
  end.

(** [crypto.timingSafeEqual]: buffers of different byte length throw *)
Definition timingSafeEqual (a b : list nat) : Outcome bool :=
  if Nat.eqb (List.length a) (List.length b) then Return (bytes_eqb a b)
  else Throw (Error "Input buffers must have the same byte length").

(** [safeCompare] *)
Definition safeCompare (a b : string) : Outcome bool :=
  if negb (Nat.eqb (String.length a) (String.length b)) then Return false
  else timingSafeEqual (Buffer_from a) (Buffer_from b).

(** the markup characters: less-than, greater-than, the two quotes, the
    backquote, the equals sign and the slash *)
Definition isMarkup (c : ascii) : bool :=
  existsb (Ascii.eqb c) (chars "<>'/`=") || Ascii.eqb c (ascii_of_nat 34).

(** [[^\s@]] *)
Definition okc (c : ascii) : bool :=
  negb (isSpace c) && negb (Ascii.eqb c "@").

(** a string that Mongoose casts to an [ObjectId] when it is used as an
    id in a query: 24 hexadecimal digits.  A query by any other string
    fails with a [CastError]; the queries by id of the model above are
    those of the code for the strings that pass this test. *)
Definition isHexDigit (c : ascii) : bool :=
  isDigit c || in_range 97 102 c || in_range 65 70 c.

Definition isObjectId (s : string) : bool :=
  Nat.eqb (String.length s) 24 && forallb isHexDigit (chars s).

(** ** The HTTP layer: [ApiResponse], requests, middleware and controllers *)

Module Api.
(** the status and the JSON body that an [ApiResponse] method sends; the
    members a method does not write are absent *)
Record reply := mk {
  status : Z;
  success : bool;
  message : option string;
  error : option string;
  data_user : option SanitizedUser.t;
  timestamp : Z
}.

(** [payload.message || 'Success'] *)
Definition orDefault (m dflt : string) : string :=
  if String.eqb m "" then dflt else m.

Definition ok (now : Z) (m : string) (u : option SanitizedUser.t) : reply :=
  mk 200 true (Some (orDefault m "Success")) None u now.
Definition created (now : Z) (m : string) (u : option SanitizedUser.t)
    : reply :=
  mk 201 true (Some (orDefault m "Created successfully")) None u now.
Definition badRequest (now : Z) (m : string) : reply :=
  mk 400 false None (Some m) None now.
Definition unauthorized (now : Z) (m : string) : reply :=
  mk 401 false None (Some m) None now.
Definition forbidden (now : Z) (m : string) : reply :=
  mk 403 false None (Some m) None now.
Definition notFound (now : Z) (m : string) : reply :=
  mk 404 false None (Some m) None now.
Definition conflict (now : Z) (m : string) : reply :=
  mk 409 false None (Some m) None now.
Definition internalError (now : Z) (m : string) : reply :=
  mk 500 false None (Some m) None now.
End Api.

(** the parts of an express request that the authentication code reads:
    the [auth_token] cookie and the [Authorization] header *)
Record Request := mkRequest {
  cookie_auth_token : option string;
  authorization : option string
}.

(** what a middleware does: it answers, or it calls [next()], having set
    [req.user] or not *)
Inductive MiddlewareResult :=
| Respond (r : Api.reply)
| Next (req_user : option IUser.t).

(** the codes of the [AppError]s that only the controller raises *)
Inductive InputErrorCode := INVALID_EMAIL | INVALID_PASSWORD | VALIDATION_ERROR.

(** an [AppError] of the controller: message, status, code *)
Record InputError := mkInputError {
  input_message : string;
  input_status : Z;
  input_code : InputErrorCode
}.

(** what a controller does: it sends a reply, with or without the session
    cookie, or its exception reaches [next] through [asyncHandler] *)
Inductive HandlerResult :=
| Sent (r : Api.reply) (cookie : option Jwt.token)
| Forwarded (e : InputError).

(** the body of a login or registration request, with the messages that the
    express-validator chains of the route have collected *)
Record AuthRequest := mkAuthRequest {
  validationErrors : list string;
  body_email : string;
  body_password : string;
  body_nickname : string
}.

(** a JavaScript string is truthy when it is not empty *)
Definition truthy (s : string) : bool := negb (String.eqb s "").

(** [String.prototype.includes] for one character *)
Definition includes (c : ascii) (s : string) : bool :=
  existsb (Ascii.eqb c) (chars s).

Definition IUser_set_nickname (n : string) (u : IUser.t) : IUser.t :=
  IUser.mk (IUser._id u) (IUser.email u) (IUser.password u) n
           (IUser.isVerified u) (IUser.backupCodes u)
           (IUser.lastPasswordChange u) (IUser.lastLoginAt u)
           (IUser.failedLoginAttempts u) (IUser.accountLocked u)
           (IUser.lockUntil u) (IUser.createdAt u).

(** a unique index: no value occurs twice *)
Fixpoint distinct (l : list string) : bool :=
  match l with
  | [] => true
  | x :: r => negb (existsb (String.eqb x) r) && distinct r
  end.

(** [AuthController.validateRequest]: the messages joined by a comma *)
Definition validateRequest (req : AuthRequest) : option InputError :=
  match validationErrors req with
  | [] => None
  | msgs =>
      Some (mkInputError ("Validation failed: " ++ String.concat ", " msgs)
                         400 VALIDATION_ERROR)
  end.

(** [AuthController.validateLoginInput] *)
Definition validateLoginInput (email password : string) : option InputError :=
  if negb (truthy email) || negb (includes "@" email) then
    Some (mkInputError "Valid email is required" 400 INVALID_EMAIL)
  else if negb (truthy password) || (strlen password <? 8) then
    Some (mkInputError "Password must be at least 8 characters" 400
                       INVALID_PASSWORD)
  else None.

(** [AuthController.handleAuthError]: the switch on the code of an
    [AppError], of the service or of the controller *)
Definition handleAuthError (now : Z) (message : string)
    (code : ErrorCodes + InputErrorCode) : Api.reply :=
  match code with
  | inl EMAIL_EXISTS => Api.conflict now "Email already registered"
  | inl NICKNAME_EXISTS => Api.conflict now "Nickname already taken"
  | inl WEAK_PASSWORD =>
      Api.badRequest now
        "Password must contain at least 8 characters with uppercase, lowercase, number and special character"
  | inl INVALID_CREDENTIALS =>
      Api.unauthorized now "Invalid email or password"
  | inr _ => Api.badRequest now message
  | inl _ => Api.internalError now message
  end.

(** [AuthService.extractTokenFromRequest]: the cookie first, then a
    [Bearer] header, of which the text between the first and the second
    space is taken *)
Definition extractTokenFromRequest (req : Request) : option string :=
  match cookie_auth_token req with
  | Some cookieToken =>
      if truthy cookieToken then Some cookieToken
      else
        match authorization req with
        | Some authHeader =>
            if String.prefix "Bearer " authHeader then
              option_map string_of_list_ascii
                         (nth_error (split_on " " (chars authHeader)) 1)
            else None
        | None => None
        end
  | None =>
      match authorization req with
      | Some authHeader =>
          if String.prefix "Bearer " authHeader then
            option_map string_of_list_ascii
                       (nth_error (split_on " " (chars authHeader)) 1)
          else None
      | None => None
      end
  end.

Section Handlers.
Variable P : Platform.
Variable cfg : AuthConfig.
(** the decoding of a compact JWS string into header, payload, signature *)
Variable decodeJws : string -> Jwt.token.


Definition isNicknameTaken (nickname : string) : M bool :=
  let normalizedNickname := trim P nickname in
  us <- getUsers ;;
  ret (isSome (findOne (byNickname normalizedNickname) us)).

(** *** [RecoveryService.validateRecoveryCode]

    [recovery.service.ts] imports [logger] as the default export of
    [utils/logger], which has only named exports: [logger] is [undefined]
    in this file, and the call [logger.warn] of the refusing branch throws
    a [TypeError] before [return false] is reached. *)
Definition logger_warn : M unit :=
  throw (TypeError "Cannot read properties of undefined (reading 'warn')").

Definition validateRecoveryCode (userId code : string) (now : Z) : M bool :=
  let hashedCode := sha256 P code in
  cs <- getCodes ;;
  let (recoveryCode, cs') :=
    findOneAndDelete (liveMatch userId hashedCode now) cs in
  putCodes cs' ;;;
  if negb (isSome recoveryCode) then logger_warn ;;; ret false
  else ret true.

(** *** [AuthService.checkAuth] *)
Definition checkAuth (req : Request) (now : Z)
    : M (bool * option SanitizedUser.t) :=
  try_catch
    (match extractTokenFromRequest req with
     | None => ret (false, None)
     | Some token =>
         if negb (truthy token) then ret (false, None)
         else
           decoded <- lift (verifyToken P cfg (decodeJws token) now) ;;
           us <- getUsers ;;
           match findById (AuthTokenPayload.id (Jwt.claims decoded)) us with
           | None =>
               emit (LogSecurity "AUTH_CHECK_USER_NOT_FOUND") ;;;
               ret (false, None)
           | Some user => ret (true, Some (sanitizeUser user))
           end
     end)
    (fun _ => ret (false, None)).

(** *** [AuthMiddleware.authenticate] *)
Definition authenticate (req : Request) (now : Z) : M MiddlewareResult :=
  try_catch
    (match extractTokenFromRequest req with
     | None =>
         emit (LogSecurity "AUTH_MISSING_TOKEN") ;;;
         ret (Respond (Api.unauthorized now "Authentication required"))
     | Some token =>
         if negb (truthy token) then
           emit (LogSecurity "AUTH_MISSING_TOKEN") ;;;
           ret (Respond (Api.unauthorized now "Authentication required"))
         else
           decoded <- lift (verifyToken P cfg (decodeJws token) now) ;;
           us <- getUsers ;;
           match findById (AuthTokenPayload.id (Jwt.claims decoded)) us with
           | None =>
               emit (LogSecurity "AUTH_USER_NOT_FOUND") ;;;
               ret (Respond (Api.unauthorized now "User not found"))
           | Some user =>
               if negb (IUser.isVerified user) then
                 emit (LogSecurity "AUTH_USER_NOT_VERIFIED") ;;;
                 ret (Respond (Api.forbidden now "Account not verified"))
               else ret (Next (Some user))
           end
     end)
    (fun error =>
       if is_AppError error then
         emit (LogSecurity "AUTH_TOKEN_ERROR") ;;;
         match code_of error with
         | Some TOKEN_EXPIRED =>
             ret (Respond (Api.unauthorized now "Token expired"))
         | Some INVALID_TOKEN =>
             ret (Respond (Api.unauthorized now "Invalid token"))
         | _ => ret (Respond (Api.unauthorized now "Authentication failed"))
         end
       else
         emit LogError ;;;
         ret (Respond (Api.internalError now "Authentication failed"))).

(** *** [AuthMiddleware.optionalAuthenticate] *)
Definition optionalAuthenticate (req : Request) (now : Z)
    : M MiddlewareResult :=
  try_catch
    (match extractTokenFromRequest req with
     | None => ret (Next None)
     | Some token =>
         if negb (truthy token) then ret (Next None)
         else
           decoded <- lift (verifyToken P cfg (decodeJws token) now) ;;
           us <- getUsers ;;
           match findById (AuthTokenPayload.id (Jwt.claims decoded)) us with
           | Some user =>
               if IUser.isVerified user then ret (Next (Some user))
               else ret (Next None)
           | None => ret (Next None)
           end
     end)
    (fun _ => ret (Next None)).

(** *** [AuthController.login] *)
Definition login (req : AuthRequest) (now : Z) : M HandlerResult :=
  match validateRequest req with
  | Some e => ret (Forwarded e)
  | None =>
      match validateLoginInput (body_email req) (body_password req) with
      | Some e =>
          emit (LogSecurity "LOGIN_FAILED") ;;;
          ret (Sent (handleAuthError now (input_message e)
                                     (inr (input_code e))) None)
      | None =>
          try_catch
            (r <- loginUser P cfg
                    (LoginUserDTO.mk (body_email req) (body_password req))
                    now ;;
             emit (LogAuth "USER_LOGIN") ;;;
             ret (Sent (Api.ok now "Login successful" (Some (user r)))
                       (Some (token r))))
            (fun error =>
               match error with
               | AppError m _ c =>
                   emit (LogSecurity "LOGIN_FAILED") ;;;
                   ret (Sent (handleAuthError now m (inl c)) None)
               | _ =>
                   emit LogError ;;;
                   ret (Sent (Api.internalError now "Login failed") None)
               end)
      end
  end.

(** *** [AuthController.register] *)
Definition register (req : AuthRequest) (now : Z) : M HandlerResult :=
  match validateRequest req with
  | Some e => ret (Forwarded e)
  | None =>
      try_catch
        (u <- createUser P cfg
                (CreateUserDTO.mk (body_email req) (body_password req)
                                  (body_nickname req)) now ;;
         tok <- lift (generateToken P cfg
                        (AuthTokenPayload.mk (SanitizedUser.id u)
                           (SanitizedUser.email u) (SanitizedUser.nickname u))
                        now) ;;
         emit (LogAuth "USER_REGISTERED") ;;;
         ret (Sent (Api.created now "User registered successfully" (Some u))
                   (Some tok)))
        (fun error =>
           match error with
           | AppError m _ c => ret (Sent (handleAuthError now m (inl c)) None)
           | _ =>
               emit LogError ;;;
               ret (Sent (Api.internalError now "Registration failed") None)
           end)
  end.

(** *** [AuthController.updateProfile]

    [findByIdAndUpdate] with [runValidators]: the trimmed nickname is
    validated by the schema and the unique index on nicknames rejects the
    write that would store a nickname twice. *)
Definition updateProfile (req_user : option IUser.t) (nickname : option string)
    (now : Z) : M Api.reply :=
  try_catch
    (match req_user with
     | None => ret (Api.unauthorized now "Not authenticated")
     | Some u =>
         let given :=
           match nickname with Some n => truthy n | None => false end in
         let n := match nickname with Some n => n | None => "" end in
         if given && (strlen (trim P n) <? 3) then
           ret (Api.badRequest now
                  "Nickname must be at least 3 characters long")
         else
           us <- getUsers ;;
           if given && negb (String.eqb (trim P n) (IUser.nickname u))
              && isSome (findOne (fun d => byNickname (trim P n) d
                                           && negb (byId (IUser._id u) d)) us)
           then ret (Api.conflict now "Nickname already taken")
           else
             (if given then
                let v := trim P (trim P n) in
                if negb (validNicknamePath v) then
                  throw (ValidationError "Validation failed")
                else
                  let us' := updateOne (byId (IUser._id u))
                                       (IUser_set_nickname v) us in
                  if distinct (map IUser.nickname us') then putUsers us'
                  else throw (Error "E11000 duplicate key error")
              else ret tt) ;;;
             us' <- getUsers ;;
             match findById (IUser._id u) us' with
             | None => ret (Api.notFound now "User not found")
             | Some updatedUser =>
                 emit (LogAuth "PROFILE_UPDATED") ;;;
                 ret (Api.ok now "Profile updated successfully"
                             (Some (sanitizeUser updatedUser)))
             end
     end)
    (fun _ =>
       emit LogError ;;;
       ret (Api.internalError now "Failed to update profile")).

(** *** Every entry point that can write to the stores *)
Inductive Step :=
| Core (op : Operation)
| StepLogin (req : AuthRequest)
| StepRegister (req : AuthRequest)
| StepUpdateProfile (req_user : option IUser.t) (nickname : option string)
| StepCheckAuth (req : Request)
| StepAuthenticate (req : Request)
| StepValidateRecoveryCode (userId code : string).

Definition step (s : Step) (now : Z) : World -> World :=
  match s with
  | Core op => run P cfg op now
  | StepLogin req => discard (login req now)
  | StepRegister req => discard (register req now)
  | StepUpdateProfile u n => discard (updateProfile u n now)
  | StepCheckAuth req => discard (checkAuth req now)
  | StepAuthenticate req => discard (authenticate req now)
  | StepValidateRecoveryCode i c => discard (validateRecoveryCode i c now)
  end.

(** the worlds that the entry points produce from empty stores *)
Inductive reachable : World -> Prop :=
| reachable_init (tr : list Event) (k : nat) (smtp : bool) :
    reachable (mkWorld [] [] tr k smtp)
| reachable_step (s : Step) (now : Z) (w : World) :
    reachable w -> reachable (step s now w).

End Handlers.

(** ** A small platform and configuration, to run the model on examples *)

(** U+00AA, the feminine ordinal indicator, is NFKC-equivalent to [a]. *)
Definition ordinal_a : ascii := ascii_of_nat 170.

Fixpoint nfkc_small (s : string) : string :=
  match s with
  | EmptyString => EmptyString
  | String c r =>
      String (if Ascii.eqb c ordinal_a then "a"%char else c) (nfkc_small r)
  end.

Definition letter (k : nat) : string :=
  String (ascii_of_nat (65 + k)) EmptyString.

Definition smallPlatform : Platform := {|
  toLowerCase := fun s => s;
  trim := fun s => s;
  nfkc := nfkc_small;
  sha256 := fun s => "sha256:" ++ s;
  randomHex := fun k n => letter k ++ "1B2C3";
  bcrypt_hash := fun pw _ _ => "$2a$" ++ pw;
  bcrypt_compare := fun pw h => String.eqb ("$2a$" ++ pw) h;
  hs256 := fun secret p =>
    secret ++ "/" ++ AuthTokenPayload.id (Jwt.claims p);
  objectId := fun k => "user" ++ letter k;
  bcrypt_compare_hash := fun pw _ _ => String.eqb_refl ("$2a$" ++ pw);
  lower_trim_idem := fun s => eq_refl
|}.

Definition defaultConfig : AuthConfig := {|
  JWT_SECRET := Some "secret";
  jwtExpiresIn := 7 * 24 * 60 * 60;
  jwtIssuer := "astrolune-api";
  jwtAudience := "astrolune-client";
  passwordSaltRounds := 12;
  passwordMinLength := 8;
  passwordRequireSpecialChar := true;
  passwordRequireNumber := true;
  passwordRequireUppercase := true
|}.

Definition emptyWorld : World := mkWorld [] [] [] 0 true.

(** alice, registered with the password [Str0ng!Pass] *)
Definition alice : IUser.t :=
  IUser.mk "userA" "alice@example.com" "$2a$Str0ng!Pass" "alice_01" false []
           0 None (Some 0) (Some false) None 0.

(** alice after five failures at time 1000: locked for two hours *)
Definition alice_locked : IUser.t :=
  IUser.set_lockout (Some 5) (Some true) (Some (1000 + LOCK_TIME)) alice.

Definition worldOf (u : IUser.t) : World := mkWorld [u] [] [] 0 true.

(** ** Notions used in the statements *)

Definition addTrace (w : World) (es : list Event) : World :=
  mkWorld (users w) (recoveryCodes w) (trace w ++ es) (draws w) (smtpUp w).

Definition aliceLogin : LoginUserDTO.t :=
  LoginUserDTO.mk "alice@example.com" "Str0ng!Pass".
Definition aliceWrong : LoginUserDTO.t :=
  LoginUserDTO.mk "alice@example.com" "Wr0ng!Pass".

Definition tokenExpired : Exn := AppError "Token expired" 401 TOKEN_EXPIRED.
Definition invalidToken : Exn := AppError "Invalid token" 401 INVALID_TOKEN.

(** At most one stored recovery request belongs to the account. *)
Definition at_most_one (userId : string) (cs : list IRecoveryCode.t) : Prop :=
  (List.length (filter (ownedBy userId) cs) <= 1)%nat.

(** The invariant of C6 holds in every reachable world: it is established
    by [generateRecoveryCode] and kept by every operation. *)
Definition codes_inv (cs : list IRecoveryCode.t) : Prop :=
  forall userId, at_most_one userId cs.

(** [Str0ng!Pªss], with U+00AA for the first [a] of [Pass] *)
Definition aliceOrdinal : string :=
  "Str0ng!P" ++ String ordinal_a "ss".

(** The list [new] is [old], or [old] with one element taken out. *)
Definition consumed_from (old new : list string) : Prop :=
  new = old
  \/ exists l1 h l2, old = (l1 ++ h :: l2)%list /\ new = (l1 ++ l2)%list.

(** Every stored account is still stored and its backup codes did not grow. *)
Definition users_shrink (us us' : list IUser.t) : Prop :=
  forall i u,
    findById i us = Some u ->
    exists u',
      findById i us' = Some u'
      /\ consumed_from (IUser.backupCodes u) (IUser.backupCodes u').

(** alice with three backup codes *)
Definition alice_codes : IUser.t :=
  IUser.set_backupCodes ["sha256:AAAA"; "sha256:BBBB"; "sha256:CCCC"] alice.

(** a configuration that asks for six characters and an uppercase letter *)
Definition lenientConfig : AuthConfig := {|
  JWT_SECRET := Some "secret";
  jwtExpiresIn := 3600;
  jwtIssuer := "astrolune-api";
  jwtAudience := "astrolune-mobile";
  passwordSaltRounds := 12;
  passwordMinLength := 6;
  passwordRequireSpecialChar := false;
  passwordRequireNumber := false;
  passwordRequireUppercase := true
|}.

(** What every stored account satisfies: it is not verified, its
    [accountLocked] flag is set exactly when it has a [lockUntil] date, and
    its failure counter is not negative. *)
Definition user_ok (d : IUser.t) : Prop :=
  IUser.isVerified d = false
  /\ (IUser.accountLocked d = Some true <-> IUser.lockUntil d <> None)
  /\ 0 <= IUser.attempts d.

(** What the user collection satisfies: no email twice, no nickname twice,
    and every account as above. *)
Definition store_ok (us : list IUser.t) : Prop :=
  NoDup (map IUser.email us) /\ NoDup (map IUser.nickname us)
  /\ Forall user_ok us.

(** The account stored under the (normalised) email [e] is [u], and [u] is
    also what a lookup by its id finds. *)
Definition account (w : World) (e : string) (u : IUser.t) : Prop :=
  findOne (byEmail e) (users w) = Some u
  /\ findById (IUser._id u) (users w) = Some u.

(** a registration request without validation errors *)
Definition aliceRegistration : AuthRequest :=
  mkAuthRequest [] "alice@example.com" "Str0ng!Pass" "alice_01".

(** the world after alice registered at time 0 *)
Definition worldRegistered : World :=
  snd (register smallPlatform defaultConfig aliceRegistration 0 emptyWorld).

(** The stored account after [resetLoginAttempts] at time [now]. *)
Definition after_success (u : IUser.t) (now : Z) : IUser.t :=
  IUser.set_lastLoginAt (Some now) (IUser.set_lockout None None None u).

(** The world after a call of [findByCredentials]. *)
Definition attempt (P : Platform) (email password : string) (now : Z)
    (w : World) : World :=
  snd (findByCredentials P email password now w).

(** a second registration, and a world in which things have happened:
    alice and bob registered, a recovery code was requested for alice, and
    five logins with a wrong password were tried on bob's account *)
Definition bobRegistration : AuthRequest :=
  mkAuthRequest [] "bob@example.com" "B0b!Secret1" "bob_02".

Definition worldBusy : World :=
  attempt smallPlatform "bob@example.com" "Wr0ng!Pass" 70
    (attempt smallPlatform "bob@example.com" "Wr0ng!Pass" 60
       (attempt smallPlatform "bob@example.com" "Wr0ng!Pass" 50
          (attempt smallPlatform "bob@example.com" "Wr0ng!Pass" 40
             (attempt smallPlatform "bob@example.com" "Wr0ng!Pass" 30
                (snd (generateRecoveryCode smallPlatform "userA" 20
                        (snd (register smallPlatform defaultConfig
                                bobRegistration 10 worldRegistered)))))))).

(** bob as [worldBusy] stores him: locked until two hours after the fifth
    failure *)
Definition bob_locked : IUser.t :=
  IUser.mk "userC" "bob@example.com" "$2a$B0b!Secret1" "bob_02" false []
           10 None (Some 5) (Some true) (Some (70 + LOCK_TIME)) 10.


(** the token that alice's registration at time 0 sets as cookie, and a
    decoder that knows the cookie text [cookieA] for it *)
Definition aliceToken : Jwt.token :=
  jwt_sign smallPlatform defaultConfig
    (AuthTokenPayload.mk "userA" "alice@example.com" "alice_01") "secret" 0.

Definition decodeSmall (s : string) : Jwt.token :=
  if String.eqb s "cookieA" then aliceToken else Jwt.Malformed s.

(** ** Properties *)

(** *** Tactics *)

Ltac monad_simpl :=
  unfold bind, ret, throw, try_catch, lift, emit, draw, getUsers, putUsers,
    getCodes, putCodes, getSmtp, updateUser; simpl.

Ltac break_if :=
  match goal with
  | |- context [if ?c then _ else _] => destruct c eqn:?; simpl
  end.

(** Case analysis on an innermost scrutinee of the goal. *)
Ltac break_match :=
  match goal with
  | |- context [match ?c with _ => _ end] =>
      lazymatch c with
      | context [match _ with _ => _ end] => fail
      | _ => destruct c eqn:?; simpl
      end
  end.

(** *** Collections *)

Lemma findById_updateOne (i j : string) (f : IUser.t -> IUser.t)
    (us : list IUser.t) :
  (forall d, IUser._id (f d) = IUser._id d) ->
  findById i (updateOne (byId j) f us)
  = if String.eqb i j then option_map f (findById i us) else findById i us.
Proof.
  intros Hid. unfold findById, findOne, byId.
  induction us as [|d us IH]; simpl.
  - destruct (String.eqb i j); reflexivity.
  - destruct (String.eqb (IUser._id d) j) eqn:Hdj; simpl.
    + rewrite Hid. apply String.eqb_eq in Hdj. subst j.
      destruct (String.eqb (IUser._id d) i) eqn:Hdi.
      * apply String.eqb_eq in Hdi. subst i. rewrite String.eqb_refl.
        reflexivity.
      * rewrite String.eqb_sym, Hdi. reflexivity.
    + destruct (String.eqb (IUser._id d) i) eqn:Hdi.
      * apply String.eqb_eq in Hdi. subst i. rewrite Hdj. reflexivity.
      * exact IH.
Qed.

Lemma findOneAndDelete_spec {D : Type} (p : D -> bool) (c : list D) :
  match findOneAndDelete p c with
  | (Some d, c') =>
      exists l1 l2, c = (l1 ++ d :: l2)%list /\ c' = (l1 ++ l2)%list
                    /\ p d = true /\ existsb p l1 = false
  | (None, c') => c' = c /\ existsb p c = false
  end.
Proof.
  induction c as [|x c IH]; simpl.
  - split; reflexivity.
  - destruct (p x) eqn:Hx.
    + exists [], c. simpl. repeat split; assumption.
    + destruct (findOneAndDelete p c) as [[d|] c'].
      * destruct IH as (l1 & l2 & -> & -> & Hd & Hl1).
        exists (x :: l1), l2. simpl. rewrite Hx. repeat split; assumption.
      * destruct IH as [-> Hc]. split; [reflexivity | exact Hc].
Qed.

Lemma findOneAndDelete_found {D : Type} (p : D -> bool) (c : list D) :
  isSome (fst (findOneAndDelete p c)) = existsb p c.
Proof.
  induction c as [|x c IH]; simpl; [reflexivity|].
  destruct (p x); simpl; [reflexivity|].
  destruct (findOneAndDelete p c) as [r c']. simpl in *. exact IH.
Qed.

(** *** Lockout policy *)

Lemma set_lockout_id fa al lu d :
  IUser._id (IUser.set_lockout fa al lu d) = IUser._id d.
Proof. reflexivity. Qed.

(** C8 -- a failure on an account whose lock has lapsed clears
    [accountLocked] and [lockUntil] and sets [failedLoginAttempts] to
    exactly 1, whatever the stale counter was; nothing else is touched. *)
Theorem incrementLoginAttempts_lapsed_lock :
  forall (this stored : IUser.t) (t now : Z) (w : World),
    IUser.lockUntil this = Some t ->
    t < now ->
    findById (IUser._id this) (users w) = Some stored ->
    exists w',
      incrementLoginAttempts this now w = (Return tt, w')
      /\ findById (IUser._id this) (users w')
         = Some (IUser.set_lockout (Some 1) None None stored)
      /\ (forall later,
            isAccountLocked (IUser.set_lockout (Some 1) None None stored)
                            later = false)
      /\ recoveryCodes w' = recoveryCodes w
      /\ trace w' = trace w.
Proof.
  intros this stored t now w Hlock Hlt Hfind.
  unfold incrementLoginAttempts. rewrite Hlock.
  apply Z.ltb_lt in Hlt. rewrite Hlt.
  eexists. split; [reflexivity|]. simpl.
  split.
  - rewrite findById_updateOne by (intro; apply set_lockout_id).
    rewrite String.eqb_refl, Hfind. reflexivity.
  - repeat split.
Qed.

Lemma incrementLoginAttempts_lapsed_lock_witness :
  exists w',
    incrementLoginAttempts alice_locked (1000 + LOCK_TIME + 1)
                           (worldOf alice_locked) = (Return tt, w')
    /\ findById "userA" (users w')
       = Some (IUser.set_lockout (Some 1) None None alice_locked).
Proof.
  destruct (@incrementLoginAttempts_lapsed_lock alice_locked alice_locked
              (1000 + LOCK_TIME) (1000 + LOCK_TIME + 1)
              (worldOf alice_locked))
    as (w' & H1 & H2 & _).
  - reflexivity.
  - vm_compute. reflexivity.
  - reflexivity.
  - exists w'. split; assumption.
Defined.

(** *** Login *)

Section LoginProperties.
Variable P : Platform.
Variable cfg : AuthConfig.

(** What [loginUser] does when the account is found: it compares the
    normalised password with the stored hash and nothing else decides the
    outcome.  The lockout fields are neither read nor written. *)
Lemma loginUser_found (loginData : LoginUserDTO.t) (now : Z) (w : World)
    (u : IUser.t) :
  findOne (byEmail (normalizeEmail P (LoginUserDTO.email loginData)))
          (users w) = Some u ->
  loginUser P cfg loginData now w
  = if bcrypt_compare P (nfkc P (LoginUserDTO.password loginData))
                      (IUser.password u)
    then
      match generateToken P cfg
              (AuthTokenPayload.mk (IUser._id u) (IUser.email u)
                                   (IUser.nickname u)) now with
      | Return tok =>
          (Return (mkAuthResult (sanitizeUser u) tok),
           addTrace w [BcryptCompare (IUser._id u);
                       LogAuth "USER_LOGIN_SUCCESS"])
      | Throw e =>
          (Throw (AppError "Token generation failed" 500
                           TOKEN_GENERATION_FAILED),
           addTrace w [BcryptCompare (IUser._id u)])
      end
    else
      (Throw (AppError "Invalid credentials" 401 INVALID_CREDENTIALS),
       addTrace w [BcryptCompare (IUser._id u);
                   LogSecurity "LOGIN_ATTEMPT_INVALID_PASSWORD"]).
Proof.
  intros Hfind. unfold loginUser, comparePasswords, normalizePassword.
  monad_simpl. rewrite Hfind. simpl.
  destruct (bcrypt_compare P _ _); simpl.
  - unfold generateToken. destruct (getJwtSecret cfg); simpl.
    + unfold addTrace. simpl. rewrite <- app_assoc. reflexivity.
    + reflexivity.
  - unfold addTrace. simpl. rewrite <- app_assoc. reflexivity.
Qed.

Lemma loginUser_absent (loginData : LoginUserDTO.t) (now : Z) (w : World) :
  findOne (byEmail (normalizeEmail P (LoginUserDTO.email loginData)))
          (users w) = None ->
  loginUser P cfg loginData now w
  = (Throw (AppError "Invalid credentials" 401 INVALID_CREDENTIALS),
     addTrace w [LogSecurity "LOGIN_ATTEMPT_INVALID_USER"]).
Proof.
  intros Hfind. unfold loginUser. monad_simpl. rewrite Hfind. reflexivity.
Qed.

(** [loginUser] never writes to the user collection. *)
Lemma loginUser_users (loginData : LoginUserDTO.t) (now : Z) (w : World) :
  users (snd (loginUser P cfg loginData now w)) = users w.
Proof.
  destruct (findOne (byEmail (normalizeEmail P (LoginUserDTO.email loginData)))
                    (users w)) as [u|] eqn:Hfind.
  - rewrite (loginUser_found _ _ _ Hfind).
    destruct (bcrypt_compare P _ _); [|reflexivity].
    destruct (generateToken P cfg _ now); reflexivity.
  - rewrite (loginUser_absent _ _ _ Hfind). reflexivity.
Qed.

(** The lockout path of the model, [findByCredentials]: a locked account
    is refused before the comparison and nothing is written. *)
Lemma findByCredentials_locked (email password : string) (now : Z)
    (w : World) (u : IUser.t) :
  findOne (byEmail (trim P (toLowerCase P email))) (users w) = Some u ->
  isAccountLocked u now = true ->
  findByCredentials P email password now w
  = (Throw (Error "ACCOUNT_LOCKED"),
     addTrace w [LogSecurity "LOGIN_ATTEMPT_LOCKED_ACCOUNT"; LogError]).
Proof.
  intros Hfind Hlocked. unfold findByCredentials. monad_simpl.
  rewrite Hfind, Hlocked. simpl. unfold addTrace. simpl.
  rewrite <- app_assoc. reflexivity.
Qed.

(** On a mismatch [findByCredentials] runs the failure transition. *)
Lemma findByCredentials_mismatch (email password : string) (now : Z)
    (w : World) (u : IUser.t) :
  findOne (byEmail (trim P (toLowerCase P email))) (users w) = Some u ->
  isAccountLocked u now = false ->
  IUser.password u <> "" ->
  bcrypt_compare P password (IUser.password u) = false ->
  findByCredentials P email password now w
  = (Return None,
     snd (incrementLoginAttempts u now
            (addTrace w [BcryptCompare (IUser._id u)]))).
Proof.
  intros Hfind Hlocked Hpw Hcmp. unfold findByCredentials, comparePassword.
  apply String.eqb_neq in Hpw.
  monad_simpl. rewrite Hfind, Hlocked, Hpw. simpl. rewrite Hcmp. simpl.
  unfold addTrace.
  destruct (incrementLoginAttempts u now _) as [[[]|e] w'] eqn:Hinc;
    [reflexivity|].
  exfalso. revert Hinc. unfold incrementLoginAttempts. monad_simpl.
  destruct (match IUser.lockUntil u with Some t => t <? now | None => false end);
    [discriminate|].
  destruct (_ && _); discriminate.
Qed.

(** On a match [findByCredentials] runs the success transition. *)
Lemma findByCredentials_match (email password : string) (now : Z)
    (w : World) (u : IUser.t) :
  findOne (byEmail (trim P (toLowerCase P email))) (users w) = Some u ->
  isAccountLocked u now = false ->
  IUser.password u <> "" ->
  bcrypt_compare P password (IUser.password u) = true ->
  findByCredentials P email password now w
  = (Return (Some u),
     snd (resetLoginAttempts u now
            (addTrace w [BcryptCompare (IUser._id u)]))).
Proof.
  intros Hfind Hlocked Hpw Hcmp. unfold findByCredentials, comparePassword.
  apply String.eqb_neq in Hpw.
  monad_simpl. rewrite Hfind, Hlocked, Hpw. simpl. rewrite Hcmp. simpl.
  unfold resetLoginAttempts. monad_simpl. reflexivity.
Qed.

End LoginProperties.

(** C1 -- the login use case on a locked account: at time 2000 alice is
    locked until 1000 + 2h, yet [loginUser] compares the password and logs
    her in; it has no outcome that reports the lock. *)
Theorem loginUser_locked_account_logs_in :
  isAccountLocked alice_locked 2000 = true
  /\ exists tok w',
       loginUser smallPlatform defaultConfig aliceLogin 2000
                 (worldOf alice_locked)
       = (Return (mkAuthResult (sanitizeUser alice_locked) tok), w')
       /\ trace w' = [BcryptCompare "userA"; LogAuth "USER_LOGIN_SUCCESS"].
Proof.
  split; [reflexivity|]. eexists. eexists. split; reflexivity.
Qed.

(** C2 -- the login use case on a wrong password: [loginUser] answers
    [INVALID_CREDENTIALS], as for an unknown account, but the stored
    [failedLoginAttempts] stays at 4: no failure transition, no lock. *)
Theorem loginUser_mismatch_no_failure_transition :
  let almost := IUser.set_lockout (Some 4) (Some false) None alice in
  exists w',
    loginUser smallPlatform defaultConfig aliceWrong 2000 (worldOf almost)
    = (Throw (AppError "Invalid credentials" 401 INVALID_CREDENTIALS), w')
    /\ users w' = [almost]
    /\ IUser.failedLoginAttempts almost = Some 4
    /\ users (snd (incrementLoginAttempts almost 2000 (worldOf almost)))
       = [IUser.set_lockout (Some 5) (Some true) (Some (2000 + LOCK_TIME))
                            alice].
Proof.
  simpl. eexists. repeat split.
Qed.

(** C3 -- the login use case on a correct password after the lock lapsed:
    [loginUser] succeeds but leaves [failedLoginAttempts], [accountLocked],
    [lockUntil] and [lastLoginAt] as they were; the success transition
    [resetLoginAttempts] would have cleared them. *)
Theorem loginUser_success_no_reset :
  let now := 1000 + LOCK_TIME + 1 in
  isAccountLocked alice_locked now = false
  /\ exists tok w',
       loginUser smallPlatform defaultConfig aliceLogin now
                 (worldOf alice_locked)
       = (Return (mkAuthResult (sanitizeUser alice_locked) tok), w')
       /\ users w' = [alice_locked]
       /\ IUser.failedLoginAttempts alice_locked = Some 5
       /\ IUser.lastLoginAt alice_locked = None
       /\ users (snd (resetLoginAttempts alice_locked now
                        (worldOf alice_locked)))
          = [IUser.set_lastLoginAt (Some now)
               (IUser.set_lockout None None None alice)].
Proof.
  simpl. split; [reflexivity|]. eexists. eexists. repeat split.
Qed.

(** *** Password reset initiation *)

(** Both branches of the handler answer 200 with [success: true] when the
    mail goes out. *)
Lemma initPasswordReset_status (P : Platform) (email : string) (now : Z)
    (w : World) :
  smtpUp w = true ->
  exists msg w',
    RecoveryController_initPasswordReset P email now w
    = (Return (mkResponse 200 true msg), w').
Proof.
  intros Hup. unfold RecoveryController_initPasswordReset.
  unfold generateRecoveryCode, sendRecoveryEmail. monad_simpl.
  destruct (findOne (byEmail email) (users w)); simpl.
  - rewrite Hup. simpl. eexists. eexists. reflexivity.
  - eexists. eexists. reflexivity.
Qed.

(** C4 -- two requests that differ only in the email: alice is registered,
    bob is not.  Both answers are 200 with the same members, but the
    messages differ, so the body tells whether the email is registered. *)
Theorem initPasswordReset_reveals_registration :
  let w := worldOf alice in
  exists r1 r2 w1 w2,
    RecoveryController_initPasswordReset smallPlatform "alice@example.com"
                                         5000 w = (Return r1, w1)
    /\ RecoveryController_initPasswordReset smallPlatform "bob@example.com"
                                            5000 w = (Return r2, w2)
    /\ statusCode r1 = 200 /\ statusCode r2 = 200
    /\ message r1 = "Recovery code sent to email"
    /\ message r2 = "If the email exists, a recovery code has been sent"
    /\ r1 <> r2.
Proof.
  simpl. do 4 eexists.
  split; [reflexivity|]. split; [reflexivity|]. simpl.
  repeat split. discriminate.
Qed.

(** *** Session tokens *)

Section TokenProperties.
Variable P : Platform.
Variable cfg : AuthConfig.

Lemma getJwtSecret_configured (secret : string) :
  JWT_SECRET cfg = Some secret -> secret <> "" ->
  getJwtSecret cfg = Return secret.
Proof.
  intros Hs Hne. unfold getJwtSecret. rewrite Hs.
  apply String.eqb_neq in Hne. rewrite Hne. reflexivity.
Qed.

(** [verifyToken] with a configured secret, case by case. *)
Lemma verifyToken_cases (secret : string) (tok : Jwt.token) (now : Z) :
  getJwtSecret cfg = Return secret ->
  verifyToken P cfg tok now
  = match tok with
    | Jwt.Malformed _ => Throw invalidToken
    | Jwt.Jws p sg =>
        if negb (String.eqb sg (hs256 P secret p)) then Throw invalidToken
        else if expired p now then Throw tokenExpired
        else if negb (opt_is (Jwt.aud p) (jwtAudience cfg)) then
          Throw invalidToken
        else if negb (opt_is (Jwt.iss p) (jwtIssuer cfg)) then
          Throw invalidToken
        else Return p
    end.
Proof.
  intros Hs. unfold verifyToken. rewrite Hs.
  destruct tok as [raw|p sg]; simpl; [reflexivity|].
  destruct (negb (String.eqb sg (hs256 P secret p))); [reflexivity|].
  destruct (expired p now); [reflexivity|].
  destruct (negb (opt_is (Jwt.aud p) (jwtAudience cfg))); [reflexivity|].
  destruct (negb (opt_is (Jwt.iss p) (jwtIssuer cfg))); reflexivity.
Qed.

(** C5 -- with a configured secret: a token of [generateToken] verifies to
    the claims it was issued for as long as its expiry has not come, it
    fails with [TOKEN_EXPIRED] from its expiry on, and whatever token is
    presented, a failure is [TOKEN_EXPIRED] exactly for a well-signed token
    past its expiry and [INVALID_TOKEN] in every other case.  Every other
    case is refused: a malformed token, a token whose signature is not the
    one of the secret, and a well-signed unexpired token with another
    audience or issuer all fail with [INVALID_TOKEN]; every well-signed
    token past its expiry fails with [TOKEN_EXPIRED]; and the only tokens
    accepted are the well-signed unexpired ones with the configured
    audience and issuer, whose payload is returned as it is. *)
Theorem verifyToken_generateToken :
  forall (secret : string) (payload : AuthTokenPayload.t) (now : Z),
    JWT_SECRET cfg = Some secret ->
    secret <> "" ->
    exists tok,
      generateToken P cfg payload now = Return tok
      /\ (forall later,
            later / 1000 < now / 1000 + jwtExpiresIn cfg ->
            exists decoded,
              verifyToken P cfg tok later = Return decoded
              /\ Jwt.claims decoded = payload
              /\ Jwt.iat decoded = now / 1000
              /\ Jwt.exp decoded = Some (now / 1000 + jwtExpiresIn cfg))
      /\ (forall later,
            now / 1000 + jwtExpiresIn cfg <= later / 1000 ->
            verifyToken P cfg tok later = Throw tokenExpired)
      /\ (forall tok' later e,
            verifyToken P cfg tok' later = Throw e ->
            (e = tokenExpired
             /\ exists p, tok' = Jwt.Jws p (hs256 P secret p)
                          /\ expired p later = true)
            \/ (e = invalidToken
                /\ (forall p, tok' = Jwt.Jws p (hs256 P secret p) ->
                              expired p later = false)))
      /\ (forall raw later,
            verifyToken P cfg (Jwt.Malformed raw) later = Throw invalidToken)
      /\ (forall p sg later,
            sg <> hs256 P secret p ->
            verifyToken P cfg (Jwt.Jws p sg) later = Throw invalidToken)
      /\ (forall p later,
            expired p later = true ->
            verifyToken P cfg (Jwt.Jws p (hs256 P secret p)) later
            = Throw tokenExpired)
      /\ (forall p later,
            expired p later = false ->
            Jwt.aud p <> Some (jwtAudience cfg)
            \/ Jwt.iss p <> Some (jwtIssuer cfg) ->
            verifyToken P cfg (Jwt.Jws p (hs256 P secret p)) later
            = Throw invalidToken)
      /\ (forall tok' later decoded,
            verifyToken P cfg tok' later = Return decoded <->
            tok' = Jwt.Jws decoded (hs256 P secret decoded)
            /\ expired decoded later = false
            /\ Jwt.aud decoded = Some (jwtAudience cfg)
            /\ Jwt.iss decoded = Some (jwtIssuer cfg)).
Proof.
  intros secret payload now Hs Hne.
  pose proof (getJwtSecret_configured Hs Hne) as Hsec.
  assert (Hopt : forall o x, opt_is o x = true <-> o = Some x).
  { intros [y|] x; simpl; [|split; discriminate].
    rewrite String.eqb_eq. split; [intros ->; reflexivity | congruence]. }
  assert (Hnopt : forall o x, o <> Some x -> opt_is o x = false).
  { intros o x Ho. destruct (opt_is o x) eqn:E; [|reflexivity].
    apply Hopt in E. contradiction. }
  exists (jwt_sign P cfg payload secret now).
  split; [unfold generateToken; rewrite Hsec; reflexivity|].
  split; [|split; [|split; [|split; [|split; [|split; [|split]]]]]];
    [| | |
     intros raw later; rewrite (verifyToken_cases _ _ Hsec); reflexivity
     | intros p sg later Hsg; rewrite (verifyToken_cases _ _ Hsec);
       apply String.eqb_neq in Hsg; rewrite Hsg; reflexivity
     | intros p later Hexp; rewrite (verifyToken_cases _ _ Hsec);
       rewrite String.eqb_refl, Hexp; reflexivity
     | intros p later Hexp Hmis; rewrite (verifyToken_cases _ _ Hsec);
       rewrite String.eqb_refl, Hexp; simpl;
       destruct Hmis as [Ha | Hi];
       [ rewrite (Hnopt _ _ Ha); reflexivity
       | rewrite (Hnopt _ _ Hi);
         destruct (opt_is (Jwt.aud p) (jwtAudience cfg)); reflexivity ]
     | intros tok' later decoded; rewrite (verifyToken_cases _ _ Hsec);
       split;
       [ destruct tok' as [raw|p sg]; [discriminate|];
         destruct (String.eqb sg (hs256 P secret p)) eqn:Hsg; simpl;
           [|discriminate];
         apply String.eqb_eq in Hsg; subst sg;
         destruct (expired p later) eqn:Hexp; [discriminate|];
         destruct (opt_is (Jwt.aud p) (jwtAudience cfg)) eqn:Ha; simpl;
           [|discriminate];
         destruct (opt_is (Jwt.iss p) (jwtIssuer cfg)) eqn:Hi; simpl;
           [|discriminate];
         intros [= <-]; apply Hopt in Ha; apply Hopt in Hi;
         repeat split; assumption
       | intros (-> & Hexp & Ha & Hi);
         apply Hopt in Ha; apply Hopt in Hi;
         rewrite String.eqb_refl, Hexp, Ha, Hi; reflexivity ] ].
  - intros later Hlive. eexists.
    rewrite (verifyToken_cases _ _ Hsec). unfold jwt_sign.
    rewrite String.eqb_refl. simpl. unfold expired. simpl.
    replace (now / 1000 + jwtExpiresIn cfg <=? later / 1000) with false
      by (symmetry; apply Z.leb_gt; exact Hlive).
    rewrite !String.eqb_refl. simpl. repeat split.
  - intros later Hdead.
    rewrite (verifyToken_cases _ _ Hsec). unfold jwt_sign.
    rewrite String.eqb_refl. simpl. unfold expired. simpl.
    apply Z.leb_le in Hdead. rewrite Hdead. reflexivity.
  - intros tok' later e. rewrite (verifyToken_cases _ _ Hsec).
    destruct tok' as [raw|p sg].
    + intros [= <-]. right. split; [reflexivity|]. discriminate.
    + destruct (String.eqb sg (hs256 P secret p)) eqn:Hsg; simpl.
      * apply String.eqb_eq in Hsg. subst sg.
        destruct (expired p later) eqn:Hexp.
        -- intros [= <-]. left. split; [reflexivity|]. exists p.
           split; [reflexivity | exact Hexp].
        -- assert (Hnot : forall q, Jwt.Jws p (hs256 P secret p)
                             = Jwt.Jws q (hs256 P secret q)
                             -> expired q later = false)
             by (intros q [= <-]; exact Hexp).
           destruct (negb (opt_is (Jwt.aud p) (jwtAudience cfg)));
             [intros [= <-]; right; split; [reflexivity | exact Hnot]|].
           destruct (negb (opt_is (Jwt.iss p) (jwtIssuer cfg)));
             [intros [= <-]; right; split; [reflexivity | exact Hnot]|].
           discriminate.
      * intros [= <-]. right. split; [reflexivity|].
        intros q [= -> Hq]. rewrite Hq, String.eqb_refl in Hsg.
        discriminate.
Qed.

End TokenProperties.

Lemma verifyToken_generateToken_witness :
  exists tok,
    generateToken smallPlatform defaultConfig
      (AuthTokenPayload.mk "userA" "alice@example.com" "alice_01") 5000
    = Return tok
    /\ (exists decoded,
          verifyToken smallPlatform defaultConfig tok 6000 = Return decoded
          /\ Jwt.claims decoded
             = AuthTokenPayload.mk "userA" "alice@example.com" "alice_01")
    /\ verifyToken smallPlatform defaultConfig tok (5000 + 604800 * 1000)
       = Throw tokenExpired
    /\ verifyToken smallPlatform defaultConfig
         (Jwt.Jws (Jwt.mkPayload
                     (AuthTokenPayload.mk "userA" "alice@example.com"
                                          "alice_01")
                     5 (Some 604805) (Some "astrolune-api")
                     (Some "astrolune-client"))
                  "forged") 6000
       = Throw invalidToken
    /\ verifyToken smallPlatform defaultConfig (Jwt.Malformed "a.b") 6000
       = Throw invalidToken.
Proof.
  destruct (@verifyToken_generateToken smallPlatform defaultConfig "secret"
              (AuthTokenPayload.mk "userA" "alice@example.com" "alice_01")
              5000)
    as (tok & Hgen & Hlive & Hdead & _ & Hmal & Hsig & _).
  - reflexivity.
  - discriminate.
  - exists tok. split; [exact Hgen|]. split; [|split; [|split]].
    + destruct (Hlive 6000) as (d & Hd & Hc & _).
      * vm_compute. reflexivity.
      * exists d. split; assumption.
    + apply Hdead. vm_compute. discriminate.
    + apply Hsig. discriminate.
    + apply Hmal.
Defined.

(** *** Recovery codes *)

Lemma deleteMany_owned (userId : string) (cs : list IRecoveryCode.t) :
  filter (ownedBy userId) (deleteMany (ownedBy userId) cs) = [].
Proof.
  unfold deleteMany. induction cs as [|d cs IH]; simpl; [reflexivity|].
  destruct (ownedBy userId d) eqn:Hd; simpl; [exact IH|].
  rewrite Hd. exact IH.
Qed.

Lemma deleteMany_other (userId other : string) (cs : list IRecoveryCode.t) :
  other <> userId ->
  filter (ownedBy other) (deleteMany (ownedBy userId) cs)
  = filter (ownedBy other) cs.
Proof.
  intros Hne. unfold deleteMany.
  induction cs as [|d cs IH]; simpl; [reflexivity|].
  destruct (ownedBy userId d) eqn:Hd; simpl.
  - assert (ownedBy other d = false) as ->; [|exact IH].
    unfold ownedBy in *. apply String.eqb_eq in Hd.
    apply String.eqb_neq. congruence.
  - rewrite IH. reflexivity.
Qed.

Lemma liveMatch_owned (P : Platform) (userId code : string) (now : Z)
    (d : IRecoveryCode.t) :
  liveMatch userId (sha256 P code) now d = true -> ownedBy userId d = true.
Proof.
  unfold liveMatch, ownedBy. intros H.
  apply andb_prop in H as [H _]. apply andb_prop in H as [H _]. exact H.
Qed.

Section RecoveryProperties.
Variable P : Platform.

(** [generateRecoveryCode] leaves exactly one request for the account, the
    new one, and does not change how many the other accounts have. *)
Lemma generateRecoveryCode_at_most_one (userId : string) (now : Z)
    (w : World) :
  let (r, w') := generateRecoveryCode P userId now w in
  r = Return (randomHex P (draws w) 3)
  /\ filter (ownedBy userId) (recoveryCodes w')
     = [IRecoveryCode.mk userId (sha256 P (randomHex P (draws w) 3)) false
                         (now + 15 * 60 * 1000)]
  /\ (forall other, other <> userId ->
        filter (ownedBy other) (recoveryCodes w')
        = filter (ownedBy other) (recoveryCodes w))
  /\ users w' = users w.
Proof.
  unfold generateRecoveryCode. monad_simpl.
  split; [reflexivity|]. split; [|split; [|reflexivity]].
  - rewrite filter_app, deleteMany_owned. simpl.
    unfold ownedBy at 1. simpl. rewrite String.eqb_refl. reflexivity.
  - intros other Hne. rewrite filter_app, (deleteMany_other _ Hne). simpl.
    unfold ownedBy at 2. simpl.
    assert (String.eqb userId other = false) as ->
      by (apply String.eqb_neq; congruence).
    apply app_nil_r.
Qed.

(** What [verifyRecoveryCode] does to the world. *)
Lemma verifyRecoveryCode_run (userId code : string) (now : Z) (w : World) :
  verifyRecoveryCode P userId code now w
  = (Return (existsb (liveMatch userId (sha256 P code) now)
                     (recoveryCodes w)),
     mkWorld (users w)
             (snd (findOneAndDelete (liveMatch userId (sha256 P code) now)
                                    (recoveryCodes w)))
             (trace w) (draws w) (smtpUp w)).
Proof.
  unfold verifyRecoveryCode. monad_simpl.
  rewrite <- findOneAndDelete_found.
  destruct (findOneAndDelete _ (recoveryCodes w)) as [r cs']. reflexivity.
Qed.

(** C6 -- when the account holds a live recovery request for the code (and,
    as [generateRecoveryCode] guarantees, no second request),
    [verifyRecoveryCode] returns true and removes that request in the one
    find-and-delete step, leaving the account without any request, so that
    a repeated call with the same code returns false, at whatever time. *)
Theorem verifyRecoveryCode_single_use :
  forall (userId code : string) (now : Z) (w : World) (d : IRecoveryCode.t),
    at_most_one userId (recoveryCodes w) ->
    In d (recoveryCodes w) ->
    IRecoveryCode.userId d = userId ->
    IRecoveryCode.code d = sha256 P code ->
    now < IRecoveryCode.expiresAt d ->
    exists w' l1 l2,
      verifyRecoveryCode P userId code now w = (Return true, w')
      /\ recoveryCodes w = (l1 ++ d :: l2)%list
      /\ recoveryCodes w' = (l1 ++ l2)%list
      /\ filter (ownedBy userId) (recoveryCodes w') = []
      /\ users w' = users w
      /\ forall again,
           verifyRecoveryCode P userId code again w' = (Return false, w').
Proof.
  intros userId code now w d Hone Hin Hu Hc Hlive.
  assert (Hd : liveMatch userId (sha256 P code) now d = true).
  { unfold liveMatch. rewrite Hu, Hc, !String.eqb_refl.
    apply Z.ltb_lt in Hlive. rewrite Hlive. reflexivity. }
  rewrite verifyRecoveryCode_run.
  pose proof (findOneAndDelete_spec (liveMatch userId (sha256 P code) now)
                                    (recoveryCodes w)) as Hspec.
  destruct (findOneAndDelete _ (recoveryCodes w)) as [[d'|] cs'] eqn:Hfd.
  - destruct Hspec as (l1 & l2 & Hcs & Hcs' & Hd' & Hl1).
    (* the unique request of the account is the one found *)
    assert (Hrest : filter (ownedBy userId) (l1 ++ l2)%list = []
                    /\ d' = d).
    { unfold at_most_one in Hone. rewrite Hcs in Hone, Hin.
      rewrite filter_app in Hone. simpl in Hone.
      rewrite (@liveMatch_owned _ _ _ _ _ Hd') in Hone.
      rewrite length_app in Hone. simpl in Hone.
      assert (H1 : filter (ownedBy userId) l1 = [])
        by (destruct (filter (ownedBy userId) l1); [reflexivity|simpl in Hone; lia]).
      assert (H2 : filter (ownedBy userId) l2 = [])
        by (destruct (filter (ownedBy userId) l2); [reflexivity|simpl in Hone; lia]).
      split; [rewrite filter_app, H1, H2; reflexivity|].
      pose proof (@liveMatch_owned _ _ _ _ _ Hd) as Hown.
      apply in_app_or in Hin as [Hin|[Hin|Hin]].
      - assert (In d (filter (ownedBy userId) l1))
          by (apply filter_In; split; assumption).
        rewrite H1 in H. contradiction.
      - exact Hin.
      - assert (In d (filter (ownedBy userId) l2))
          by (apply filter_In; split; assumption).
        rewrite H2 in H. contradiction. }
    destruct Hrest as [Hrest ->].
    exists (mkWorld (users w) cs' (trace w) (draws w) (smtpUp w)), l1, l2.
    assert (Hex : existsb (liveMatch userId (sha256 P code) now)
                          (recoveryCodes w) = true).
    { apply existsb_exists. exists d. split; assumption. }
    rewrite Hex. simpl. subst cs'.
    repeat split; try assumption.
    intros again. rewrite verifyRecoveryCode_run. simpl.
    assert (Hnone : existsb (liveMatch userId (sha256 P code) again)
                            (l1 ++ l2)%list = false).
    { destruct (existsb _ (l1 ++ l2)%list) eqn:Hex2; [|reflexivity].
      apply existsb_exists in Hex2 as (x & Hx & Hm).
      assert (In x (filter (ownedBy userId) (l1 ++ l2)%list))
        by (apply filter_In; split;
            [exact Hx | exact (@liveMatch_owned _ _ _ _ _ Hm)]).
      rewrite Hrest in H. contradiction. }
    rewrite Hnone.
    pose proof (findOneAndDelete_spec
                  (liveMatch userId (sha256 P code) again) (l1 ++ l2)%list)
      as Hspec2.
    destruct (findOneAndDelete _ (l1 ++ l2)%list) as [[x|] cs2].
    + destruct Hspec2 as (a & b & Hab & _ & Hx & _).
      rewrite Hab, existsb_app in Hnone. simpl in Hnone.
      rewrite Hx, orb_true_r in Hnone. discriminate.
    + destruct Hspec2 as [-> _]. reflexivity.
  - destruct Hspec as [_ Hnone].
    assert (existsb (liveMatch userId (sha256 P code) now) (recoveryCodes w)
            = true)
      by (apply existsb_exists; exists d; split; assumption).
    congruence.
Qed.

(** C7 -- the use-backup-code handler, for an authenticated request: the
    user collection, and with it every [backupCodes] list, is unchanged;
    the request succeeds exactly when the account has a live recovery
    request whose hash is the SHA-256 of the code, and then the first such
    request is deleted; otherwise the recovery requests are unchanged. *)
Theorem useBackupCode_checks_recovery_codes :
  forall (user : IUser.t) (code : string) (now : Z) (w : World),
    let live := liveMatch (IUser._id user) (sha256 P code) now in
    let (r, w') := RecoveryController_useBackupCode P (Some user) code now w in
    users w' = users w
    /\ (r = Return (mkResponse 200 true "Backup code verified")
        <-> existsb live (recoveryCodes w) = true)
    /\ (existsb live (recoveryCodes w) = true ->
        exists l1 d l2,
          recoveryCodes w = (l1 ++ d :: l2)%list /\ live d = true
          /\ existsb live l1 = false
          /\ recoveryCodes w' = (l1 ++ l2)%list)
    /\ (existsb live (recoveryCodes w) = false ->
        r = Throw (Error "Invalid backup code")
        /\ recoveryCodes w' = recoveryCodes w).
Proof.
  intros user code now w live.
  unfold RecoveryController_useBackupCode, bind.
  rewrite verifyRecoveryCode_run. fold live.
  pose proof (findOneAndDelete_spec live (recoveryCodes w)) as Hspec.
  pose proof (findOneAndDelete_found live (recoveryCodes w)) as Hfound.
  destruct (findOneAndDelete live (recoveryCodes w)) as [[d|] cs'];
    simpl in Hfound; rewrite <- Hfound; simpl.
  - destruct Hspec as (l1 & l2 & Hcs & Hcs' & Hd & Hl1).
    split; [reflexivity|]. split; [tauto|]. split; [|discriminate].
    intros _. exists l1, d, l2. repeat split; assumption.
  - destruct Hspec as [-> _].
    split; [reflexivity|]. split; [split; discriminate|].
    split; [discriminate|]. intros _. split; reflexivity.
Qed.

End RecoveryProperties.

Lemma verifyRecoveryCode_single_use_witness :
  let w := snd (generateRecoveryCode smallPlatform "userA" 0 (worldOf alice)) in
  exists w',
    verifyRecoveryCode smallPlatform "userA" "A1B2C3" 1000 w
    = (Return true, w')
    /\ verifyRecoveryCode smallPlatform "userA" "A1B2C3" 1000 w'
       = (Return false, w').
Proof.
  destruct (@verifyRecoveryCode_single_use smallPlatform "userA" "A1B2C3" 1000
              (snd (generateRecoveryCode smallPlatform "userA" 0
                      (worldOf alice)))
              (IRecoveryCode.mk "userA" "sha256:A1B2C3" false 900000))
    as (w' & l1 & l2 & H1 & _ & _ & _ & _ & H2).
  - unfold at_most_one. simpl. lia.
  - simpl. left. reflexivity.
  - reflexivity.
  - reflexivity.
  - simpl. lia.
  - exists w'. split; [exact H1 | apply H2].
Defined.

(** *** Registration and password normalisation *)

Lemma find_snoc {D : Type} (p : D -> bool) (l : list D) (x : D) :
  find p (l ++ [x])
  = match find p l with
    | Some y => Some y
    | None => if p x then Some x else None
    end.
Proof.
  induction l as [|y l IH]; simpl; [reflexivity|].
  destruct (p y); [reflexivity | exact IH].
Qed.

Section RegistrationProperties.
Variable P : Platform.
Variable cfg : AuthConfig.

(** A successful [createUser] appends one document: its email is the
    normalised email, which no earlier document had, and its password is
    the bcrypt hash of the NFKC form of the submitted password. *)
Lemma createUser_success (userData : CreateUserDTO.t) (now : Z) (w w1 : World)
    (su : SanitizedUser.t) :
  createUser P cfg userData now w = (Return su, w1) ->
  exists doc,
    users w1 = (users w ++ [doc])%list
    /\ su = sanitizeUser doc
    /\ IUser.email doc = normalizeEmail P (CreateUserDTO.email userData)
    /\ IUser.password doc
       = bcrypt_hash P (normalizePassword P (CreateUserDTO.password userData))
                     (passwordSaltRounds cfg) (S (draws w))
    /\ findOne (byEmail (normalizeEmail P (CreateUserDTO.email userData)))
               (users w) = None.
Proof.
  unfold createUser, checkEmailExists, checkNicknameExists, User_create.
  unfold normalizeEmail, normalizeNickname.
  monad_simpl.
  destruct (findOne (byEmail _) (users w)) eqn:Hemail; simpl;
    [discriminate|].
  destruct (findOne (byNickname _) (users w)) eqn:Hnick; simpl;
    [discriminate|].
  destruct (validatePasswordStrength cfg _); simpl; [|discriminate].
  repeat (break_if; try discriminate).
  intros [= <- <-]. simpl.
  eexists. split; [reflexivity|]. simpl.
  rewrite !lower_trim_idem. repeat split.
Qed.

(** C10 -- when registration with one password succeeds and a second
    password has the same NFKC form, the stored hash is the hash of that
    common form, both passwords hash identically under the same salt, and
    a login with the second password authenticates (a token is issued when
    the signing secret is configured). *)
Theorem nfkc_equal_passwords_authenticate :
  forall (userData : CreateUserDTO.t) (other secret : string) (now later : Z)
         (w w1 : World) (su : SanitizedUser.t),
    nfkc P (CreateUserDTO.password userData) = nfkc P other ->
    createUser P cfg userData now w = (Return su, w1) ->
    getJwtSecret cfg = Return secret ->
    (forall rounds k,
       bcrypt_hash P (normalizePassword P (CreateUserDTO.password userData))
                   rounds k
       = bcrypt_hash P (normalizePassword P other) rounds k)
    /\ (exists doc k,
          findOne (byEmail (normalizeEmail P (CreateUserDTO.email userData)))
                  (users w1) = Some doc
          /\ IUser.password doc
             = bcrypt_hash P (normalizePassword P other)
                           (passwordSaltRounds cfg) k)
    /\ (exists tok w2,
          loginUser P cfg
            (LoginUserDTO.mk (CreateUserDTO.email userData) other) later w1
          = (Return (mkAuthResult su tok), w2))
    /\ (exists tok w2,
          loginUser P cfg
            (LoginUserDTO.mk (CreateUserDTO.email userData)
                             (CreateUserDTO.password userData)) later w1
          = (Return (mkAuthResult su tok), w2)).
Proof.
  intros userData other secret now later w w1 su Hnfkc Hcreate Hsecret.
  apply createUser_success in Hcreate
    as (doc & Husers & Hsu & Hemail & Hpw & Hfresh).
  assert (Hfind : findOne (byEmail (normalizeEmail P
                                      (CreateUserDTO.email userData)))
                          (users w1) = Some doc).
  { rewrite Husers. unfold findOne in *. rewrite find_snoc, Hfresh.
    unfold byEmail. rewrite Hemail, String.eqb_refl. reflexivity. }
  unfold normalizePassword in *.
  split; [intros; rewrite Hnfkc; reflexivity|].
  split; [exists doc, (S (draws w)); split;
          [exact Hfind | rewrite <- Hnfkc; exact Hpw]|].
  assert (Hlogin : forall pw, nfkc P pw = nfkc P other ->
            exists tok w2,
              loginUser P cfg
                (LoginUserDTO.mk (CreateUserDTO.email userData) pw) later w1
              = (Return (mkAuthResult su tok), w2)).
  { intros pw Hpw'.
    rewrite (@loginUser_found P cfg
               (LoginUserDTO.mk (CreateUserDTO.email userData) pw)
               later w1 doc Hfind).
    simpl. rewrite Hpw, Hpw', <- Hnfkc, bcrypt_compare_hash.
    unfold generateToken. rewrite Hsecret, Hsu.
    eexists. eexists. reflexivity. }
  split; [apply Hlogin; reflexivity | apply Hlogin; exact Hnfkc].
Qed.

End RegistrationProperties.

Lemma nfkc_equal_passwords_authenticate_witness :
  let reg := CreateUserDTO.mk "alice@example.com" aliceOrdinal "alice_01" in
  exists su w1 tok w2,
    createUser smallPlatform defaultConfig reg 0 emptyWorld = (Return su, w1)
    /\ loginUser smallPlatform defaultConfig aliceLogin 5000 w1
       = (Return (mkAuthResult su tok), w2).
Proof.
  destruct (createUser smallPlatform defaultConfig
              (CreateUserDTO.mk "alice@example.com" aliceOrdinal "alice_01")
              0 emptyWorld) as [r w1] eqn:Hcreate.
  assert (Hr : exists su, r = Return su)
    by (vm_compute in Hcreate; injection Hcreate as <- _;
        eexists; reflexivity).
  destruct Hr as [su ->].
  destruct (@nfkc_equal_passwords_authenticate smallPlatform defaultConfig
              (CreateUserDTO.mk "alice@example.com" aliceOrdinal "alice_01")
              "Str0ng!Pass" "secret" 0 5000 emptyWorld w1 su)
    as (_ & _ & (tok & w2 & Hlogin) & _).
  - reflexivity.
  - exact Hcreate.
  - reflexivity.
  - exists su, w1, tok, w2. split; [exact Hcreate | exact Hlogin].
Defined.

(** *** Backup codes *)

Lemma users_shrink_refl (us : list IUser.t) : users_shrink us us.
Proof. intros i u Hu. exists u. split; [exact Hu | left; reflexivity]. Qed.

Lemma users_shrink_snoc (us : list IUser.t) (x : IUser.t) :
  users_shrink us (us ++ [x]).
Proof.
  intros i u Hu. exists u. split; [|left; reflexivity].
  unfold findById, findOne in *. rewrite find_snoc, Hu. reflexivity.
Qed.

Lemma users_shrink_updateOne (j : string) (f : IUser.t -> IUser.t)
    (us : list IUser.t) :
  (forall d, IUser._id (f d) = IUser._id d) ->
  (forall d, findById j us = Some d ->
             consumed_from (IUser.backupCodes d) (IUser.backupCodes (f d))) ->
  users_shrink us (updateOne (byId j) f us).
Proof.
  intros Hid Hcodes i u Hu. rewrite findById_updateOne by exact Hid.
  destruct (String.eqb i j) eqn:Hij.
  - apply String.eqb_eq in Hij. subst j. rewrite Hu. simpl.
    exists (f u). split; [reflexivity | apply Hcodes; exact Hu].
  - exists u. split; [exact Hu | left; reflexivity].
Qed.

Lemma indexOf_split (x : string) (l : list string) (i : nat) :
  indexOf x l = Some i ->
  exists l1 l2,
    l = (l1 ++ x :: l2)%list /\ ~ In x l1 /\ List.length l1 = i
    /\ splice1 i l = (l1 ++ l2)%list.
Proof.
  revert i. induction l as [|y l IH]; intros i; simpl; [discriminate|].
  destruct (String.eqb y x) eqn:Hyx.
  - intros [= <-]. apply String.eqb_eq in Hyx. subst y.
    exists [], l. repeat split. intros [].
  - destruct (indexOf x l) as [k|]; [|discriminate].
    intros [= <-]. destruct (IH k eq_refl) as (l1 & l2 & -> & Hnot & Hlen & Hsp).
    exists (y :: l1), l2. repeat split.
    + intros [Hy|Hin]; [|exact (Hnot Hin)].
      subst y. rewrite String.eqb_refl in Hyx. discriminate.
    + simpl. rewrite Hlen. reflexivity.
    + change (splice1 (S k) (y :: l1 ++ x :: l2)%list)
        with (y :: splice1 k (l1 ++ x :: l2)%list).
      rewrite Hsp. reflexivity.
Qed.

Lemma indexOf_none (x : string) (l : list string) :
  indexOf x l = None -> ~ In x l.
Proof.
  induction l as [|y l IH]; simpl; [intros _ []|].
  destruct (String.eqb y x) eqn:Hyx; [discriminate|].
  destruct (indexOf x l); [discriminate|].
  intros _ [Hy|Hin]; [|exact (IH eq_refl Hin)].
  subst y. rewrite String.eqb_refl in Hyx. discriminate.
Qed.

Lemma findById_id (i : string) (us : list IUser.t) (u : IUser.t) :
  findById i us = Some u -> IUser._id u = i.
Proof.
  intros H. apply find_some in H as [_ H]. apply String.eqb_eq. exact H.
Qed.

Ltac shrink_solve :=
  first
    [ apply users_shrink_refl
    | apply users_shrink_snoc
    | apply users_shrink_updateOne;
      [ intro; reflexivity | intros ? _; left; reflexivity ]
    | apply users_shrink_updateOne;
      [ intro; destruct (_ && _); reflexivity
      | intros ? _; destruct (_ && _); left; reflexivity ] ].

Section BackupCodeProperties.
Variable P : Platform.
Variable cfg : AuthConfig.

(** What [validateBackupCode] does on a stored account. *)
Lemma validateBackupCode_run (userId code : string) (w : World) (u : IUser.t) :
  findById userId (users w) = Some u ->
  validateBackupCode P userId code w
  = match indexOf (sha256 P code) (IUser.backupCodes u) with
    | Some index =>
        (Return true,
         mkWorld (updateOne (byId userId)
                    (IUser.set_backupCodes
                       (splice1 index (IUser.backupCodes u)))
                    (users w))
                 (recoveryCodes w) (trace w) (draws w) (smtpUp w))
    | None => (Return false, w)
    end.
Proof.
  intros Hu. unfold validateBackupCode. monad_simpl. rewrite Hu.
  destruct (indexOf _ _); simpl; [|reflexivity].
  rewrite (@findById_id _ _ _ Hu). reflexivity.
Qed.

Lemma validateBackupCode_shrink (userId code : string) (w : World) :
  users_shrink (users w) (users (snd (validateBackupCode P userId code w))).
Proof.
  destruct (findById userId (users w)) as [u|] eqn:Hu.
  - rewrite (@validateBackupCode_run _ code _ _ Hu).
    destruct (indexOf _ _) as [index|] eqn:Hidx; simpl.
    + apply users_shrink_updateOne; [intro; reflexivity|].
      intros d Hd. rewrite Hu in Hd. injection Hd as <-. simpl.
      apply indexOf_split in Hidx as (l1 & l2 & Hl & _ & _ & Hsp).
      right. exists l1, (sha256 P code), l2. split; assumption.
    + apply users_shrink_refl.
  - unfold validateBackupCode. monad_simpl. rewrite Hu.
    apply users_shrink_refl.
Qed.

Lemma verifyRecoveryCode_users (userId code : string) (now : Z) (w : World) :
  users (snd (verifyRecoveryCode P userId code now w)) = users w.
Proof. rewrite verifyRecoveryCode_run. reflexivity. Qed.

(** Every operation other than [generateBackupCodes] keeps every stored
    account and lets its backup codes only shrink. *)
Lemma run_shrink (op : Operation) (now : Z) (w : World) :
  isGenerateBackupCodes op = false ->
  users_shrink (users w) (users (run P cfg op now w)).
Proof.
  destruct op; simpl; try discriminate; intros _; unfold discard.
  - (* createUser *)
    unfold createUser, checkEmailExists, checkNicknameExists, User_create.
    monad_simpl. repeat break_match; shrink_solve.
  - rewrite loginUser_users. apply users_shrink_refl.
  - (* findByCredentials *)
    unfold findByCredentials, comparePassword, incrementLoginAttempts,
      resetLoginAttempts.
    monad_simpl. repeat break_match; shrink_solve.
  - unfold incrementLoginAttempts. monad_simpl.
    repeat break_match; shrink_solve.
  - unfold resetLoginAttempts. monad_simpl. shrink_solve.
  - unfold generateRecoveryCode. monad_simpl. shrink_solve.
  - rewrite verifyRecoveryCode_users. shrink_solve.
  - apply validateBackupCode_shrink.
  - unfold RecoveryController_initPasswordReset, generateRecoveryCode,
      sendRecoveryEmail.
    monad_simpl. repeat break_match; shrink_solve.
  - unfold RecoveryController_verifyRecoveryCode, bind at 1.
    unfold getUsers at 1.
    destruct (findOne (byEmail email) (users w)); [|shrink_solve].
    unfold bind at 1. rewrite verifyRecoveryCode_run. simpl.
    destruct (existsb _ _); simpl; [|shrink_solve].
    unfold save_password. monad_simpl. repeat break_match; shrink_solve.
  - unfold RecoveryController_useBackupCode.
    destruct req_user; [|shrink_solve].
    unfold bind. rewrite verifyRecoveryCode_run. simpl.
    destruct (existsb _ _); shrink_solve.
Qed.

End BackupCodeProperties.

Section BackupCodeTheorem.
Variable P : Platform.
Variable cfg : AuthConfig.

(** What [generateBackupCodes] does: five draws, five codes, and the stored
    list replaced by their five hashes. *)
Lemma generateBackupCodes_run (userId : string) (w : World) :
  let ks := map (fun n => (draws w + n)%nat) [0; 1; 2; 3; 4]%nat in
  let codes := map (fun k => randomHex P k 8) ks in
  generateBackupCodes P userId w
  = (Return codes,
     mkWorld (updateOne (byId userId)
                (IUser.set_backupCodes (map (sha256 P) codes)) (users w))
             (recoveryCodes w) (trace w) (draws w + 5) (smtpUp w)).
Proof.
  unfold generateBackupCodes. cbv [drawMany]. monad_simpl.
  rewrite !Nat.add_0_r.
  replace (draws w + 1)%nat with (S (draws w)) by lia.
  replace (draws w + 2)%nat with (S (S (draws w))) by lia.
  replace (draws w + 3)%nat with (S (S (S (draws w)))) by lia.
  replace (draws w + 4)%nat with (S (S (S (S (draws w))))) by lia.
  replace (draws w + 5)%nat with (S (S (S (S (S (draws w)))))) by lia.
  reflexivity.
Qed.

(** C9 -- for a stored account: [validateBackupCode] with a matching code
    removes the first occurrence of its hash and nothing else (the other
    hashes stay, in order; other accounts are untouched), and returns false
    without any change otherwise; every operation other than
    [generateBackupCodes] leaves the list as it was or with one element
    removed, so no hash is ever added back; [generateBackupCodes] replaces
    the list by the hashes of five newly drawn codes. *)
Theorem backupCodes_only_shrink :
  forall (userId : string) (w : World) (u : IUser.t),
    findById userId (users w) = Some u ->
    (forall code,
       match indexOf (sha256 P code) (IUser.backupCodes u) with
       | Some _ =>
           exists w' l1 l2,
             validateBackupCode P userId code w = (Return true, w')
             /\ IUser.backupCodes u = (l1 ++ sha256 P code :: l2)%list
             /\ ~ In (sha256 P code) l1
             /\ findById userId (users w')
                = Some (IUser.set_backupCodes (l1 ++ l2) u)
             /\ (forall other, other <> userId ->
                   findById other (users w') = findById other (users w))
       | None =>
           ~ In (sha256 P code) (IUser.backupCodes u)
           /\ validateBackupCode P userId code w = (Return false, w)
       end)
    /\ (forall op now,
          isGenerateBackupCodes op = false ->
          exists u',
            findById userId (users (run P cfg op now w)) = Some u'
            /\ consumed_from (IUser.backupCodes u) (IUser.backupCodes u'))
    /\ (exists codes w',
          generateBackupCodes P userId w = (Return codes, w')
          /\ List.length codes = 5%nat
          /\ findById userId (users w')
             = Some (IUser.set_backupCodes (map (sha256 P) codes) u)).
Proof.
  intros userId w u Hu. split; [|split].
  - intros code. rewrite (@validateBackupCode_run P userId code w u Hu).
    destruct (indexOf _ _) as [index|] eqn:Hidx.
    + destruct (indexOf_split _ _ Hidx) as (l1 & l2 & Hl & Hnot & _ & Hsp).
      eexists. exists l1, l2. split; [reflexivity|]. simpl.
      split; [exact Hl|]. split; [exact Hnot|]. split.
      * rewrite findById_updateOne by (intro; reflexivity).
        rewrite String.eqb_refl, Hu, Hsp. reflexivity.
      * intros other Hne.
        rewrite findById_updateOne by (intro; reflexivity).
        apply String.eqb_neq in Hne. rewrite Hne. reflexivity.
    + split; [exact (indexOf_none _ _ Hidx) | reflexivity].
  - intros op now Hop. exact (@run_shrink P cfg op now w Hop userId u Hu).
  - pose proof (generateBackupCodes_run userId w) as Hrun. simpl in Hrun.
    eexists. eexists. split; [exact Hrun|]. split; [reflexivity|]. simpl.
    rewrite findById_updateOne by (intro; reflexivity).
    rewrite String.eqb_refl, Hu. reflexivity.
Qed.

End BackupCodeTheorem.


Lemma codes_inv_generate (userId hashed : string) (until : Z)
    (cs : list IRecoveryCode.t) :
  codes_inv cs ->
  codes_inv (deleteMany (ownedBy userId) cs
             ++ [IRecoveryCode.mk userId hashed false until]).
Proof.
  intros Hinv other. unfold at_most_one. rewrite filter_app.
  destruct (String.eqb other userId) eqn:Ho.
  - apply String.eqb_eq in Ho. subst other.
    rewrite deleteMany_owned. simpl. destruct (ownedBy _ _); simpl; lia.
  - apply String.eqb_neq in Ho. rewrite (deleteMany_other _ Ho). simpl.
    unfold ownedBy at 2. simpl.
    assert (String.eqb userId other = false) as ->
      by (apply String.eqb_neq; congruence).
    rewrite app_nil_r. apply Hinv.
Qed.

Lemma codes_inv_delete (p : IRecoveryCode.t -> bool)
    (cs : list IRecoveryCode.t) :
  codes_inv cs -> codes_inv (snd (findOneAndDelete p cs)).
Proof.
  intros Hinv userId. specialize (Hinv userId). unfold at_most_one in *.
  pose proof (findOneAndDelete_spec p cs) as Hspec.
  destruct (findOneAndDelete p cs) as [[d|] cs']; simpl.
  - destruct Hspec as (l1 & l2 & -> & -> & _).
    rewrite filter_app, length_app in *. simpl in Hinv.
    destruct (ownedBy userId d); simpl in Hinv; lia.
  - destruct Hspec as [-> _]. exact Hinv.
Qed.

Ltac codes_solve :=
  first [ assumption
        | apply codes_inv_generate; assumption
        | apply codes_inv_delete; assumption ].

Lemma run_codes_inv (P : Platform) (cfg : AuthConfig) (op : Operation)
    (now : Z) (w : World) :
  codes_inv (recoveryCodes w) ->
  codes_inv (recoveryCodes (run P cfg op now w)).
Proof.
  intros Hinv. destruct op; cbn [run]; unfold discard.
  - unfold createUser, checkEmailExists, checkNicknameExists, User_create.
    monad_simpl. repeat break_match; codes_solve.
  - unfold loginUser, comparePasswords. monad_simpl.
    repeat break_match; codes_solve.
  - unfold findByCredentials, comparePassword, incrementLoginAttempts,
      resetLoginAttempts.
    monad_simpl. repeat break_match; codes_solve.
  - unfold incrementLoginAttempts. monad_simpl.
    repeat break_match; codes_solve.
  - unfold resetLoginAttempts. monad_simpl. codes_solve.
  - unfold generateRecoveryCode. monad_simpl. codes_solve.
  - rewrite verifyRecoveryCode_run. simpl. codes_solve.
  - rewrite generateBackupCodes_run. simpl. codes_solve.
  - unfold validateBackupCode. monad_simpl. repeat break_match; codes_solve.
  - unfold RecoveryController_initPasswordReset, generateRecoveryCode,
      sendRecoveryEmail.
    monad_simpl. repeat break_match; codes_solve.
  - unfold RecoveryController_verifyRecoveryCode, bind at 1.
    unfold getUsers at 1.
    destruct (findOne (byEmail email) (users w)); [|codes_solve].
    unfold bind at 1. rewrite verifyRecoveryCode_run. simpl.
    destruct (existsb _ _); simpl; [|codes_solve].
    unfold save_password. monad_simpl. repeat break_match; codes_solve.
  - unfold RecoveryController_useBackupCode.
    destruct req_user; [|codes_solve].
    unfold bind. rewrite verifyRecoveryCode_run. simpl.
    destruct (existsb _ _); codes_solve.
Qed.

Lemma codes_inv_empty : codes_inv (recoveryCodes emptyWorld).
Proof. intros userId. unfold at_most_one. simpl. lia. Qed.

Lemma backupCodes_only_shrink_witness :
  (exists w',
     validateBackupCode smallPlatform "userA" "BBBB" (worldOf alice_codes)
     = (Return true, w')
     /\ users w'
        = [IUser.set_backupCodes ["sha256:AAAA"; "sha256:CCCC"] alice])
  /\ (exists u',
        findById "userA"
          (users (run smallPlatform defaultConfig
                      (OpUseBackupCode (Some alice_codes) "BBBB") 0
                      (worldOf alice_codes))) = Some u'
        /\ consumed_from (IUser.backupCodes alice_codes)
                         (IUser.backupCodes u')).
Proof.
  destruct (@backupCodes_only_shrink smallPlatform defaultConfig "userA"
              (worldOf alice_codes) alice_codes eq_refl)
    as (Hvalidate & Hops & _).
  split.
  - specialize (Hvalidate "BBBB"). simpl in Hvalidate.
    destruct Hvalidate as (w' & l1 & l2 & Hrun & _).
    exists w'. split; [exact Hrun|].
    vm_compute in Hrun. injection Hrun as <-. reflexivity.
  - apply Hops. reflexivity.
Defined.

(** * Further properties of the code *)

Unset Implicit Arguments.

(** *** [SecurityUtils] *)

Lemma chars_app (a b : string) : chars (a ++ b) = (chars a ++ chars b)%list.
Proof.
  unfold chars. induction a as [|c a IH]; simpl; [reflexivity|].
  rewrite IH. reflexivity.
Qed.

Lemma length_append (a b : string) :
  String.length (a ++ b) = (String.length a + String.length b)%nat.
Proof. induction a as [|c a IH]; simpl; [reflexivity | rewrite IH; reflexivity]. Qed.

Lemma htmlEntity_safe (c : ascii) (e : string) :
  htmlEntity c = Some e -> forallb (fun x => negb (isMarkup x)) (chars e) = true.
Proof.
  unfold htmlEntity.
  repeat (destruct (Ascii.eqb c _); [intros [= <-]; reflexivity|]).
  discriminate.
Qed.

Lemma htmlEntity_none (c : ascii) :
  htmlEntity c = None -> isMarkup c = false /\ c <> "&"%char.
Proof.
  unfold htmlEntity, isMarkup. simpl.
  destruct (Ascii.eqb c "&") eqn:Hamp; [discriminate|].
  destruct (Ascii.eqb c "<"); [discriminate|].
  destruct (Ascii.eqb c ">"); [discriminate|].
  destruct (Ascii.eqb c (ascii_of_nat 34)); [discriminate|].
  destruct (Ascii.eqb c "'"); [discriminate|].
  destruct (Ascii.eqb c "/"); [discriminate|].
  destruct (Ascii.eqb c "`"); [discriminate|].
  destruct (Ascii.eqb c "="); [discriminate|].
  intros _. split; [reflexivity|]. apply Ascii.eqb_neq. exact Hamp.
Qed.

Lemma htmlEntity_longer (c : ascii) (e : string) :
  htmlEntity c = Some e -> (1 < String.length e)%nat.
Proof.
  unfold htmlEntity.
  repeat (destruct (Ascii.eqb c _); [intros [= <-]; simpl; lia|]).
  discriminate.
Qed.

Lemma sanitizeInput_length (s : string) :
  (String.length s <= String.length (sanitizeInput s))%nat
  /\ (existsb (fun c => isSome (htmlEntity c)) (chars s) = true ->
      (String.length s < String.length (sanitizeInput s))%nat).
Proof.
  induction s as [|c s (IHle & IHlt)]; simpl.
  - split; [lia | discriminate].
  - destruct (htmlEntity c) as [e|] eqn:He; simpl.
    + pose proof (htmlEntity_longer _ _ He) as Hlen.
      rewrite length_append. split; intros; lia.
    + split; [lia|]. intros H. apply IHlt in H. lia.
Qed.

(** X1 -- [sanitizeInput] lets none of the characters [<], [>], double
    quote, single quote, backquote, [=] and [/] through, whatever the
    input; and it returns its input unchanged exactly when the input has
    none of these characters and no [&]. *)
Theorem sanitizeInput_no_markup :
  forall input : string,
    forallb (fun c => negb (isMarkup c)) (chars (sanitizeInput input)) = true
    /\ (sanitizeInput input = input
        <-> forallb (fun c => negb (isMarkup c) && negb (Ascii.eqb c "&"))
                    (chars input) = true).
Proof.
  intros input. split.
  - induction input as [|c s IH]; simpl; [reflexivity|].
    destruct (htmlEntity c) as [e|] eqn:He.
    + rewrite chars_app, forallb_app, (htmlEntity_safe _ _ He), IH.
      reflexivity.
    + simpl. destruct (htmlEntity_none _ He) as [-> _]. exact IH.
  - split.
    + intros Hfix.
      destruct (existsb (fun c => isSome (htmlEntity c)) (chars input))
        eqn:Hex.
      * apply (proj2 (sanitizeInput_length input)) in Hex.
        rewrite Hfix in Hex. lia.
      * clear Hfix. induction input as [|c s IH]; [reflexivity|].
        simpl in *. apply orb_false_iff in Hex as [Hc Hs].
        destruct (htmlEntity c) eqn:He; [discriminate|].
        destruct (htmlEntity_none _ He) as [-> Hamp].
        apply Ascii.eqb_neq in Hamp. rewrite Hamp. simpl. exact (IH Hs).
    + induction input as [|c s IH]; simpl; [reflexivity|].
      intros H. apply andb_prop in H as [Hc Hs].
      apply andb_prop in Hc as [Hm Hamp].
      assert (He : htmlEntity c = None).
      { destruct (htmlEntity c) as [e|] eqn:He; [|reflexivity]. exfalso.
        revert He Hm Hamp. unfold htmlEntity, isMarkup. simpl.
        destruct (Ascii.eqb c "&"); [discriminate|].
        destruct (Ascii.eqb c "<"); [discriminate|].
        destruct (Ascii.eqb c ">"); [discriminate|].
        destruct (Ascii.eqb c (ascii_of_nat 34));
          [rewrite !orb_true_r; discriminate|].
        destruct (Ascii.eqb c "'"); [discriminate|].
        destruct (Ascii.eqb c "/"); [discriminate|].
        destruct (Ascii.eqb c "`"); [discriminate|].
        destruct (Ascii.eqb c "="); [discriminate|].
        discriminate. }
      rewrite He, (IH Hs). reflexivity.
Qed.

Lemma split_on_single (sep : ascii) (l : list ascii) :
  existsb (Ascii.eqb sep) l = false -> split_on sep l = [l].
Proof.
  induction l as [|c l IH]; simpl; [reflexivity|].
  intros H. apply orb_false_iff in H as [Hc Hl].
  rewrite Ascii.eqb_sym, Hc, (IH Hl). reflexivity.
Qed.

Lemma split_on_first (sep : ascii) (a b : list ascii) :
  existsb (Ascii.eqb sep) a = false ->
  split_on sep (a ++ sep :: b) = a :: split_on sep b.
Proof.
  induction a as [|c a IH]; simpl.
  - rewrite Ascii.eqb_refl. reflexivity.
  - intros H. apply orb_false_iff in H as [Hc Ha].
    rewrite Ascii.eqb_sym, Hc, (IH Ha). reflexivity.
Qed.

Lemma nth_error_repeat {A : Type} (x : A) (n i : nat) :
  (i < n)%nat -> nth_error (repeat x n) i = Some x.
Proof.
  revert i. induction n as [|n IH]; intros i Hi; [lia|].
  destruct i; simpl; [reflexivity | apply IH; lia].
Qed.

(** X2 -- [maskEmail] on an address with one [@] and non-empty parts keeps
    the domain and the length of the local part, and shows of the local
    part at most its first and its last character: every position in
    between is a star, and a local part of one or two characters is all
    stars.  An address without [@], or with an empty local part or domain,
    is masked as a whole. *)
Theorem maskEmail_hides_local_part :
  forall (email : string) (a b : list ascii),
    chars email = (a ++ "@"%char :: b)%list ->
    existsb (Ascii.eqb "@") a = false ->
    existsb (Ascii.eqb "@") b = false ->
    (a <> [] -> b <> [] ->
     exists m,
       chars (maskEmail email) = (m ++ "@"%char :: b)%list
       /\ List.length m = List.length a
       /\ (forall i, (0 < i)%nat -> (i + 1 < List.length a)%nat ->
                     nth_error m i = Some "*"%char)
       /\ ((List.length a <= 2)%nat ->
           m = repeat "*"%char (List.length a)))
    /\ (a = [] \/ b = [] -> maskEmail email = "***@***").
Proof.
  intros email a b Hchars Ha Hb.
  assert (Hsplit : split_on "@" (chars email) = [a; b])
    by (rewrite Hchars, (split_on_first _ _ _ Ha), (split_on_single _ _ Hb);
        reflexivity).
  unfold maskEmail. rewrite Hsplit. simpl. split.
  - intros Hna Hnb.
    destruct a as [|x a]; [contradiction|].
    destruct b as [|y b]; [contradiction|].
    cbn [is_nil orb].
    eexists. rewrite list_ascii_of_string_of_list_ascii.
    split; [reflexivity|].
    destruct (2 <? List.length (x :: a))%nat eqn:Hlen.
    + apply Nat.ltb_lt in Hlen. simpl in Hlen.
      split; [|split].
      * simpl. rewrite length_app, repeat_length. simpl. lia.
      * intros i Hi Hi'. simpl in Hi'.
        destruct i as [|i]; [lia|]. simpl.
        rewrite nth_error_app1 by (rewrite repeat_length; lia).
        apply nth_error_repeat. lia.
      * simpl. lia.
    + apply Nat.ltb_ge in Hlen.
      split; [apply repeat_length|]. split; [|reflexivity].
      intros i Hi Hi'. apply nth_error_repeat. lia.
  - intros [-> | ->]; [reflexivity|].
    destruct a; reflexivity.
Qed.

Lemma maskEmail_hides_local_part_witness :
  maskEmail "alice@example.com" = "a***e@example.com"
  /\ maskEmail "al@example.com" = "**@example.com"
  /\ maskEmail "@example.com" = "***@***".
Proof.
  pose proof (maskEmail_hides_local_part "@example.com" []
                (chars "example.com") eq_refl eq_refl eq_refl) as [_ H].
  split; [reflexivity|]. split; [reflexivity|].
  apply H. left. reflexivity.
Defined.

(** *** [safeCompare] *)

Lemma bytes_eqb_eq (a b : list nat) : bytes_eqb a b = true <-> a = b.
Proof.
  revert b. induction a as [|x a IH]; intros [|y b]; simpl;
    try (split; [discriminate | discriminate]); [tauto|].
  rewrite andb_true_iff, Nat.eqb_eq, IH.
  split; [intros [-> ->]; reflexivity | intros [= -> ->]; tauto].
Qed.

Lemma utf8_prefix_free (c d : ascii) (r s : list nat) :
  (utf8 c ++ r = utf8 d ++ s)%list -> c = d /\ r = s.
Proof.
  unfold utf8.
  pose proof (nat_ascii_bounded c) as Hc.
  pose proof (nat_ascii_bounded d) as Hd.
  assert (Hinj : nat_of_ascii c = nat_of_ascii d -> c = d).
  { intros H. rewrite <- (ascii_nat_embedding c), <- (ascii_nat_embedding d), H.
    reflexivity. }
  pose proof (Nat.div_mod_eq (nat_of_ascii c) 64) as Ec.
  pose proof (Nat.div_mod_eq (nat_of_ascii d) 64) as Ed.
  remember (nat_of_ascii c / 64)%nat as qc.
  remember (nat_of_ascii c mod 64)%nat as rc.
  remember (nat_of_ascii d / 64)%nat as qd.
  remember (nat_of_ascii d mod 64)%nat as rd.
  destruct (nat_of_ascii c <? 128)%nat eqn:Hc1;
    destruct (nat_of_ascii d <? 128)%nat eqn:Hd1; cbn [app].
  - intros [= H1 H2]. split; [apply Hinj; exact H1 | exact H2].
  - intros [= H1 H2]. apply Nat.ltb_lt in Hc1. lia.
  - intros [= H1 H2]. apply Nat.ltb_lt in Hd1. lia.
  - intros [= H1 H2 H3]. split; [apply Hinj; lia | exact H3].
Qed.

Lemma Buffer_from_inj (a b : string) : Buffer_from a = Buffer_from b -> a = b.
Proof.
  unfold Buffer_from, chars. revert b.
  induction a as [|c a IH]; intros [|d b]; simpl.
  - reflexivity.
  - unfold utf8. destruct (_ <? _)%nat; discriminate.
  - unfold utf8. destruct (_ <? _)%nat; discriminate.
  - intros H. apply utf8_prefix_free in H as [-> H].
    rewrite (IH _ H). reflexivity.
Qed.

(** X3 -- [safeCompare] returns true only for equal strings and does so
    for every pair of equal strings; strings of different length compare
    false; and it throws instead of answering exactly when the two strings
    have the same length but UTF-8 encodings of different byte length. *)
Theorem safeCompare_spec :
  forall a b : string,
    (safeCompare a b = Return true <-> a = b)
    /\ (String.length a <> String.length b -> safeCompare a b = Return false)
    /\ ((exists e, safeCompare a b = Throw e)
        <-> String.length a = String.length b
            /\ List.length (Buffer_from a) <> List.length (Buffer_from b)).
Proof.
  intros a b. unfold safeCompare, timingSafeEqual.
  destruct (Nat.eqb (String.length a) (String.length b)) eqn:Hlen; simpl.
  - apply Nat.eqb_eq in Hlen.
    destruct (Nat.eqb (List.length (Buffer_from a))
                      (List.length (Buffer_from b))) eqn:Hbytes.
    + apply Nat.eqb_eq in Hbytes. split; [|split].
      * split.
        -- intros [= H]. apply bytes_eqb_eq in H.
           exact (Buffer_from_inj _ _ H).
        -- intros ->. f_equal. apply bytes_eqb_eq. reflexivity.
      * intros H. contradiction.
      * split; [intros [e H]; discriminate | intros [_ H]; contradiction].
    + apply Nat.eqb_neq in Hbytes. split; [|split].
      * split; [discriminate|]. intros ->. contradiction.
      * intros H. contradiction.
      * split; [intros _; split; assumption | intros _; eexists; reflexivity].
  - apply Nat.eqb_neq in Hlen. split; [|split].
    + split; [discriminate|]. intros ->. contradiction.
    + reflexivity.
    + split; [intros [e H]; discriminate | intros [H _]; contradiction].
Qed.

(** *** The validators *)

Lemma split_at_some (c : ascii) (l a r : list ascii) :
  split_at c l = Some (a, r) ->
  l = (a ++ c :: r)%list /\ existsb (fun x => Ascii.eqb x c) a = false.
Proof.
  revert a. induction l as [|x l IH]; intros a; simpl; [discriminate|].
  destruct (Ascii.eqb x c) eqn:Hx.
  - intros [= <- <-]. apply Ascii.eqb_eq in Hx. subst x.
    split; reflexivity.
  - destruct (split_at c l) as [[a' r']|]; [|discriminate].
    intros [= <- <-]. destruct (IH a' eq_refl) as [-> Hno].
    split; [reflexivity|]. simpl. rewrite Hx. exact Hno.
Qed.

Lemma split_at_first (c : ascii) (a r : list ascii) :
  existsb (fun x => Ascii.eqb x c) a = false ->
  split_at c (a ++ c :: r) = Some (a, r).
Proof.
  induction a as [|x a IH]; simpl.
  - rewrite Ascii.eqb_refl. reflexivity.
  - intros H. apply orb_false_iff in H as [Hx Ha].
    rewrite Hx, (IH Ha). reflexivity.
Qed.

Lemma has_inner_dot_split (seen : bool) (l : list ascii) :
  has_inner_dot seen l = true <->
  exists b c, l = (b ++ "."%char :: c)%list /\ c <> []
              /\ (seen = true \/ b <> []).
Proof.
  revert seen. induction l as [|x l IH]; intros seen; simpl.
  - split; [discriminate|]. intros (b & c & H & _). destruct b; discriminate.
  - rewrite orb_true_iff, IH. split.
    + intros [H | (b & c & -> & Hc & _)].
      * apply andb_prop in H as [H Hl]. apply andb_prop in H as [-> Hx].
        apply Ascii.eqb_eq in Hx. subst x.
        exists [], l. repeat split; [|left; reflexivity].
        destruct l; [discriminate | discriminate].
      * exists (x :: b), c. repeat split; [exact Hc | right; discriminate].
    + intros (b & c & H & Hc & Hb). destruct b as [|y b].
      * destruct Hb as [-> | Hb]; [|contradiction].
        injection H as -> ->. left. simpl.
        destruct c; [contradiction | reflexivity].
      * injection H as -> ->. right. exists b, c.
        repeat split; [exact Hc | left; reflexivity].
Qed.

Lemma okc_no_at (a : list ascii) :
  forallb okc a = true -> existsb (fun x => Ascii.eqb x "@") a = false.
Proof.
  induction a as [|x a IH]; simpl; [reflexivity|].
  intros H. apply andb_prop in H as [Hx Ha]. unfold okc in Hx.
  apply andb_prop in Hx as [_ Hx]. apply negb_true_iff in Hx.
  rewrite Hx, (IH Ha). reflexivity.
Qed.

(** X4 -- [isValidEmail] accepts exactly the addresses of the shape
    [local@domain.tld]: three non-empty runs of characters that are neither
    white space nor [@], the first two separated by the only [@] and the
    last two by a dot. *)
Theorem isValidEmail_shape :
  forall email : string,
    isValidEmail email = true <->
    exists a b c,
      chars email = (a ++ "@"%char :: b ++ "."%char :: c)%list
      /\ a <> [] /\ b <> [] /\ c <> []
      /\ forallb okc a = true /\ forallb okc b = true
      /\ forallb okc c = true.
Proof.
  intros email. unfold isValidEmail. fold okc. split.
  - destruct (split_at "@" (chars email)) as [[loc dom]|] eqn:Hsplit;
      [|discriminate].
    intros H. apply andb_prop in H as [H Hdot].
    apply andb_prop in H as [H Hdom]. apply andb_prop in H as [Hloc Hok].
    apply split_at_some in Hsplit as [Hchars _].
    apply has_inner_dot_split in Hdot as (b & c & -> & Hc & [Hf | Hb]);
      [discriminate|].
    rewrite forallb_app in Hdom. apply andb_prop in Hdom as [Hokb Hokc].
    simpl in Hokc.
    exists loc, b, c. repeat split; try assumption.
    intros ->. discriminate.
  - intros (a & b & c & Hchars & Ha & Hb & Hc & Hoka & Hokb & Hokc).
    rewrite Hchars, (split_at_first _ _ _ (okc_no_at _ Hoka)).
    rewrite Hoka, forallb_app, Hokb. simpl. rewrite Hokc.
    assert (Hdot : has_inner_dot false (b ++ "."%char :: c) = true)
      by (apply has_inner_dot_split; exists b, c;
          repeat split; [exact Hc | right; exact Hb]).
    rewrite Hdot. destruct a; [contradiction | reflexivity].
Qed.

(** X5 -- [validatePasswordStrength]: an accepted password is at least
    [passwordMinLength] long and has a lowercase letter, whatever the
    switches; and a password accepted under one configuration is accepted
    under every configuration that asks no more (a minimum length not
    higher, no switch on that was off). *)
Theorem validatePasswordStrength_relax :
  forall (cfg cfg' : AuthConfig) (password : string),
    passwordMinLength cfg' <= passwordMinLength cfg ->
    (passwordRequireUppercase cfg' = true ->
     passwordRequireUppercase cfg = true) ->
    (passwordRequireNumber cfg' = true -> passwordRequireNumber cfg = true) ->
    (passwordRequireSpecialChar cfg' = true ->
     passwordRequireSpecialChar cfg = true) ->
    validatePasswordStrength cfg password = true ->
    validatePasswordStrength cfg' password = true
    /\ passwordMinLength cfg <= strlen password
    /\ existsb isLower (chars password) = true.
Proof.
  intros cfg cfg' password Hlen Hup Hnum Hspec. unfold validatePasswordStrength.
  destruct (strlen password <? passwordMinLength cfg) eqn:Hl; [discriminate|].
  apply Z.ltb_ge in Hl.
  assert ((strlen password <? passwordMinLength cfg') = false) as ->
    by (apply Z.ltb_ge; lia).
  destruct (existsb isUpper (chars password));
    destruct (existsb isLower (chars password));
    destruct (existsb isDigit (chars password));
    destruct (existsb isSpecial (chars password));
    destruct (passwordRequireUppercase cfg);
    destruct (passwordRequireNumber cfg);
    destruct (passwordRequireSpecialChar cfg);
    destruct (passwordRequireUppercase cfg');
    destruct (passwordRequireNumber cfg');
    destruct (passwordRequireSpecialChar cfg');
    simpl; intros H; try discriminate; repeat split; try assumption;
    try (specialize (Hup eq_refl); discriminate);
    try (specialize (Hnum eq_refl); discriminate);
    try (specialize (Hspec eq_refl); discriminate).
Qed.

Lemma validatePasswordStrength_relax_witness :
  validatePasswordStrength lenientConfig "Str0ng!Pass" = true
  /\ 8 <= strlen "Str0ng!Pass".
Proof.
  destruct (validatePasswordStrength_relax defaultConfig lenientConfig
              "Str0ng!Pass") as (H1 & H2 & _).
  - simpl. lia.
  - intros H. reflexivity.
  - discriminate.
  - discriminate.
  - reflexivity.
  - split; [exact H1 | exact H2].
Defined.

(** *** Invariants of the stores *)

Lemma map_updateOne {B : Type} (g : IUser.t -> B) (p : IUser.t -> bool)
    (f : IUser.t -> IUser.t) (us : list IUser.t) :
  (forall d, g (f d) = g d) -> map g (updateOne p f us) = map g us.
Proof.
  intros Hg. induction us as [|d us IH]; simpl; [reflexivity|].
  destruct (p d); simpl; [rewrite Hg | rewrite IH]; reflexivity.
Qed.

Lemma Forall_updateOne (Q : IUser.t -> Prop) (p : IUser.t -> bool)
    (f : IUser.t -> IUser.t) (us : list IUser.t) :
  Forall Q us -> (forall d, Q d -> Q (f d)) -> Forall Q (updateOne p f us).
Proof.
  intros Hus Hf. induction Hus as [|d us Hd Hus IH]; simpl; [constructor|].
  destruct (p d); constructor; auto.
Qed.

Lemma NoDup_snoc {A : Type} (l : list A) (x : A) :
  NoDup l -> ~ In x l -> NoDup (l ++ [x]).
Proof.
  intros Hl Hx. induction Hl as [|y l Hy Hl IH]; simpl.
  - constructor; [intros [] | constructor].
  - constructor.
    + rewrite in_app_iff. intros [H | [H | []]]; [exact (Hy H)|].
      subst y. apply Hx. left. reflexivity.
    + apply IH. intros H. apply Hx. right. exact H.
Qed.

Lemma existsb_byEmail (e : string) (us : list IUser.t) :
  existsb (byEmail e) us = false -> ~ In e (map IUser.email us).
Proof.
  induction us as [|d us IH]; simpl; [intros _ []|].
  intros H. apply orb_false_iff in H as [Hd Hus]. unfold byEmail in Hd.
  apply String.eqb_neq in Hd. intros [H | H]; [exact (Hd H) | exact (IH Hus H)].
Qed.

Lemma existsb_byNickname (n : string) (us : list IUser.t) :
  existsb (byNickname n) us = false -> ~ In n (map IUser.nickname us).
Proof.
  induction us as [|d us IH]; simpl; [intros _ []|].
  intros H. apply orb_false_iff in H as [Hd Hus]. unfold byNickname in Hd.
  apply String.eqb_neq in Hd. intros [H | H]; [exact (Hd H) | exact (IH Hus H)].
Qed.

Lemma distinct_NoDup (l : list string) : distinct l = true -> NoDup l.
Proof.
  induction l as [|x l IH]; simpl; [constructor|].
  intros H. apply andb_prop in H as [Hx Hl]. apply negb_true_iff in Hx.
  constructor; [|exact (IH Hl)].
  intros Hin. assert (existsb (String.eqb x) l = true) as Hex
    by (apply existsb_exists; exists x; split;
        [exact Hin | apply String.eqb_refl]).
  congruence.
Qed.

Lemma store_ok_update (p : IUser.t -> bool) (f : IUser.t -> IUser.t)
    (us : list IUser.t) :
  store_ok us ->
  (forall d, IUser.email (f d) = IUser.email d) ->
  (forall d, IUser.nickname (f d) = IUser.nickname d) ->
  (forall d, user_ok d -> user_ok (f d)) ->
  store_ok (updateOne p f us).
Proof.
  intros (He & Hn & Hu) Hfe Hfn Hfu. unfold store_ok.
  rewrite (map_updateOne _ _ _ _ Hfe), (map_updateOne _ _ _ _ Hfn).
  repeat split; [exact He | exact Hn | exact (Forall_updateOne _ _ _ _ Hu Hfu)].
Qed.

Lemma store_ok_snoc (us : list IUser.t) (doc : IUser.t) :
  store_ok us ->
  existsb (byEmail (IUser.email doc)) us = false ->
  existsb (byNickname (IUser.nickname doc)) us = false ->
  user_ok doc ->
  store_ok (us ++ [doc]).
Proof.
  intros (He & Hn & Hu) Hemail Hnick Hdoc. unfold store_ok.
  rewrite !map_app. simpl. repeat split.
  - apply NoDup_snoc; [exact He | exact (existsb_byEmail _ _ Hemail)].
  - apply NoDup_snoc; [exact Hn | exact (existsb_byNickname _ _ Hnick)].
  - apply Forall_app. split; [exact Hu | constructor; [exact Hdoc | constructor]].
Qed.

Lemma store_ok_nickname (i v : string) (us : list IUser.t) :
  store_ok us ->
  distinct (map IUser.nickname
                (updateOne (byId i) (IUser_set_nickname v) us)) = true ->
  store_ok (updateOne (byId i) (IUser_set_nickname v) us).
Proof.
  intros (He & Hn & Hu) Hd. unfold store_ok.
  rewrite (map_updateOne IUser.email) by (intro; reflexivity).
  repeat split; [exact He | exact (distinct_NoDup _ Hd)|].
  apply Forall_updateOne; [exact Hu|]. intros d H. exact H.
Qed.

(** the updates that the model methods make keep [user_ok] *)
Ltac user_ok_solve :=
  let d := fresh "d" in
  let Hv := fresh "Hv" in
  let Hl := fresh "Hl" in
  let Ha := fresh "Ha" in
  intros d (Hv & Hl & Ha);
  try destruct (_ && _);
  unfold user_ok, inc_attempts, IUser.attempts in *; simpl;
  (split; [exact Hv|]);
  (split;
   [ first [ exact Hl | split; intro; congruence ]
   | first [ exact Ha | lia ] ]).

Ltac store_solve :=
  first
    [ assumption
    | apply store_ok_update;
      [ assumption | intro; try destruct (_ && _); reflexivity
      | intro; try destruct (_ && _); reflexivity | user_ok_solve ]
    | apply store_ok_snoc;
      [ assumption | simpl; assumption | simpl; assumption
      | unfold user_ok, IUser.attempts; simpl;
        repeat split; try discriminate; try lia; intro; congruence ]
    | apply store_ok_nickname; assumption ].

Section StoreInvariants.
Variable P : Platform.
Variable cfg : AuthConfig.
Variable decodeJws : string -> Jwt.token.

Lemma createUser_store_ok (userData : CreateUserDTO.t) (now : Z) (w : World) :
  store_ok (users w) ->
  store_ok (users (snd (createUser P cfg userData now w))).
Proof.
  intros Hok.
  unfold createUser, checkEmailExists, checkNicknameExists, User_create.
  monad_simpl. repeat break_match; store_solve.
Qed.

Lemma validateBackupCode_store_ok (userId code : string) (w : World) :
  store_ok (users w) ->
  store_ok (users (snd (validateBackupCode P userId code w))).
Proof.
  intros Hok. unfold validateBackupCode. monad_simpl.
  repeat break_match; store_solve.
Qed.

Lemma run_store_ok (op : Operation) (now : Z) (w : World) :
  store_ok (users w) -> store_ok (users (run P cfg op now w)).
Proof.
  intros Hok. destruct op; cbn [run]; unfold discard.
  - apply createUser_store_ok. exact Hok.
  - rewrite loginUser_users. exact Hok.
  - unfold findByCredentials, comparePassword, incrementLoginAttempts,
      resetLoginAttempts.
    monad_simpl. repeat break_match; store_solve.
  - unfold incrementLoginAttempts. monad_simpl.
    repeat break_match; store_solve.
  - unfold resetLoginAttempts. monad_simpl. store_solve.
  - unfold generateRecoveryCode. monad_simpl. store_solve.
  - rewrite verifyRecoveryCode_users. exact Hok.
  - rewrite generateBackupCodes_run. simpl. store_solve.
  - apply validateBackupCode_store_ok. exact Hok.
  - unfold RecoveryController_initPasswordReset, generateRecoveryCode,
      sendRecoveryEmail.
    monad_simpl. repeat break_match; store_solve.
  - unfold RecoveryController_verifyRecoveryCode, bind at 1.
    unfold getUsers at 1.
    destruct (findOne (byEmail email) (users w)); [|store_solve].
    unfold bind at 1. rewrite verifyRecoveryCode_run. simpl.
    destruct (existsb _ _); simpl; [|store_solve].
    unfold save_password. monad_simpl. repeat break_match; store_solve.
  - unfold RecoveryController_useBackupCode.
    destruct req_user; [|store_solve].
    unfold bind. rewrite verifyRecoveryCode_run. simpl.
    destruct (existsb _ _); store_solve.
Qed.

End StoreInvariants.

Section StepInvariants.
Variable P : Platform.
Variable cfg : AuthConfig.
Variable decodeJws : string -> Jwt.token.

Lemma loginUser_codes (loginData : LoginUserDTO.t) (now : Z) (w : World) :
  recoveryCodes (snd (loginUser P cfg loginData now w)) = recoveryCodes w.
Proof.
  unfold loginUser, comparePasswords. monad_simpl.
  repeat break_match; reflexivity.
Qed.

Lemma createUser_codes (userData : CreateUserDTO.t) (now : Z) (w : World) :
  recoveryCodes (snd (createUser P cfg userData now w)) = recoveryCodes w.
Proof.
  unfold createUser, checkEmailExists, checkNicknameExists, User_create.
  monad_simpl. repeat break_match; reflexivity.
Qed.

(** [login] writes to the stores what [loginUser] writes: nothing. *)
Lemma login_frame (req : AuthRequest) (now : Z) (w : World) :
  users (snd (login P cfg req now w)) = users w
  /\ recoveryCodes (snd (login P cfg req now w)) = recoveryCodes w.
Proof.
  unfold login.
  destruct (validateRequest req); [split; reflexivity|].
  destruct (validateLoginInput _ _); [split; reflexivity|].
  unfold try_catch, bind.
  pose proof (loginUser_users P cfg
                (LoginUserDTO.mk (body_email req) (body_password req)) now w)
    as Hu.
  pose proof (loginUser_codes
                (LoginUserDTO.mk (body_email req) (body_password req)) now w)
    as Hc.
  destruct (loginUser P cfg _ now w) as [[r|e] w']; simpl in *.
  - split; assumption.
  - destruct e; simpl; split; assumption.
Qed.

(** [register] writes to the stores what [createUser] writes. *)
Lemma register_frame (req : AuthRequest) (now : Z) (w : World) :
  validateRequest req = None ->
  users (snd (register P cfg req now w))
  = users (snd (createUser P cfg
                  (CreateUserDTO.mk (body_email req) (body_password req)
                                    (body_nickname req)) now w))
  /\ recoveryCodes (snd (register P cfg req now w)) = recoveryCodes w.
Proof.
  intros Hv. unfold register. rewrite Hv. unfold try_catch, bind.
  pose proof (createUser_codes
                (CreateUserDTO.mk (body_email req) (body_password req)
                                  (body_nickname req)) now w) as Hc.
  destruct (createUser P cfg _ now w) as [[u|e] w']; simpl in *.
  - unfold lift. destruct (generateToken P cfg _ now) as [tok|e]; simpl;
      [|destruct e; simpl]; split; try reflexivity; exact Hc.
  - destruct e; simpl; split; try reflexivity; exact Hc.
Qed.

Lemma checkAuth_frame (req : Request) (now : Z) (w : World) :
  users (snd (checkAuth P cfg decodeJws req now w)) = users w
  /\ recoveryCodes (snd (checkAuth P cfg decodeJws req now w))
     = recoveryCodes w.
Proof.
  unfold checkAuth. monad_simpl. repeat break_match; split; reflexivity.
Qed.

Lemma authenticate_frame (req : Request) (now : Z) (w : World) :
  users (snd (authenticate P cfg decodeJws req now w)) = users w
  /\ recoveryCodes (snd (authenticate P cfg decodeJws req now w))
     = recoveryCodes w.
Proof.
  unfold authenticate. monad_simpl. repeat break_match; split; reflexivity.
Qed.

Lemma validateRecoveryCode_run (userId code : string) (now : Z) (w : World) :
  users (snd (validateRecoveryCode P userId code now w)) = users w
  /\ recoveryCodes (snd (validateRecoveryCode P userId code now w))
     = snd (findOneAndDelete (liveMatch userId (sha256 P code) now)
                             (recoveryCodes w))
  /\ trace (snd (validateRecoveryCode P userId code now w)) = trace w
  /\ fst (validateRecoveryCode P userId code now w)
     = if existsb (liveMatch userId (sha256 P code) now) (recoveryCodes w)
       then Return true
       else Throw (TypeError
                     "Cannot read properties of undefined (reading 'warn')").
Proof.
  unfold validateRecoveryCode, logger_warn. monad_simpl.
  rewrite <- findOneAndDelete_found.
  destruct (findOneAndDelete _ (recoveryCodes w)) as [[d|] cs'];
    repeat split.
Qed.

Lemma updateProfile_codes (req_user : option IUser.t)
    (nickname : option string) (now : Z) (w : World) :
  recoveryCodes (snd (updateProfile P req_user nickname now w))
  = recoveryCodes w.
Proof.
  unfold updateProfile. monad_simpl. repeat break_match; reflexivity.
Qed.

Lemma updateProfile_store_ok (req_user : option IUser.t)
    (nickname : option string) (now : Z) (w : World) :
  store_ok (users w) ->
  store_ok (users (snd (updateProfile P req_user nickname now w))).
Proof.
  intros Hok. unfold updateProfile. monad_simpl.
  repeat break_match; store_solve.
Qed.

Lemma step_store_ok (s : Step) (now : Z) (w : World) :
  store_ok (users w) -> store_ok (users (step P cfg decodeJws s now w)).
Proof.
  intros Hok. destruct s; cbn [step]; unfold discard.
  - apply run_store_ok. exact Hok.
  - rewrite (proj1 (login_frame req now w)). exact Hok.
  - destruct (validateRequest req) eqn:Hv.
    + unfold register. rewrite Hv. exact Hok.
    + rewrite (proj1 (register_frame req now w Hv)).
      apply createUser_store_ok. exact Hok.
  - apply updateProfile_store_ok. exact Hok.
  - rewrite (proj1 (checkAuth_frame req now w)). exact Hok.
  - rewrite (proj1 (authenticate_frame req now w)). exact Hok.
  - rewrite (proj1 (validateRecoveryCode_run userId code now w)). exact Hok.
Qed.

Lemma step_codes_inv (s : Step) (now : Z) (w : World) :
  codes_inv (recoveryCodes w) ->
  codes_inv (recoveryCodes (step P cfg decodeJws s now w)).
Proof.
  intros Hinv. destruct s; cbn [step]; unfold discard.
  - apply run_codes_inv. exact Hinv.
  - rewrite (proj2 (login_frame req now w)). exact Hinv.
  - destruct (validateRequest req) eqn:Hv.
    + unfold register. rewrite Hv. exact Hinv.
    + rewrite (proj2 (register_frame req now w Hv)). exact Hinv.
  - rewrite updateProfile_codes. exact Hinv.
  - rewrite (proj2 (checkAuth_frame req now w)). exact Hinv.
  - rewrite (proj2 (authenticate_frame req now w)). exact Hinv.
  - rewrite (proj1 (proj2 (validateRecoveryCode_run userId code now w))).
    apply codes_inv_delete. exact Hinv.
Qed.

Lemma reachable_invariants (w : World) :
  reachable P cfg decodeJws w ->
  store_ok (users w) /\ codes_inv (recoveryCodes w).
Proof.
  induction 1 as [tr k smtp | s now w Hw [IHs IHc]].
  - split.
    + repeat split; constructor.
    + intros userId. unfold at_most_one. simpl. lia.
  - split; [apply step_store_ok; exact IHs | apply step_codes_inv; exact IHc].
Qed.

End StepInvariants.

Lemma find_unique {B : Type} (g : IUser.t -> B) (eqb : B -> B -> bool)
    (us : list IUser.t) (u : IUser.t) :
  (forall x y, eqb x y = true <-> x = y) ->
  NoDup (map g us) -> In u us ->
  find (fun d => eqb (g d) (g u)) us = Some u.
Proof.
  intros Heqb Hnd Hin. induction us as [|d us IH]; [destruct Hin|].
  simpl in *. inversion Hnd as [|? ? Hnotin Hnd']; subst.
  destruct Hin as [-> | Hin].
  - rewrite (proj2 (Heqb (g u) (g u)) eq_refl). reflexivity.
  - destruct (eqb (g d) (g u)) eqn:Hd.
    + apply Heqb in Hd. exfalso. apply Hnotin. rewrite Hd.
      apply in_map. exact Hin.
    + apply IH; assumption.
Qed.

Section ReachableWorlds.
Variable P : Platform.
Variable cfg : AuthConfig.
Variable decodeJws : string -> Jwt.token.

(** X6 -- in every world that the entry points produce from empty stores,
    no two accounts share an email and no two share a nickname, so a
    lookup by the email or by the nickname of a stored account finds that
    account and no other. *)
Theorem reachable_unique_identities :
  forall w : World,
    reachable P cfg decodeJws w ->
    NoDup (map IUser.email (users w))
    /\ NoDup (map IUser.nickname (users w))
    /\ (forall u, In u (users w) ->
          findOne (byEmail (IUser.email u)) (users w) = Some u
          /\ findOne (byNickname (IUser.nickname u)) (users w) = Some u).
Proof.
  intros w Hw.
  destruct (reachable_invariants P cfg decodeJws w Hw) as [(He & Hn & _) _].
  split; [exact He|]. split; [exact Hn|]. intros u Hin. split.
  - exact (find_unique IUser.email String.eqb _ _ String.eqb_eq He Hin).
  - exact (find_unique IUser.nickname String.eqb _ _ String.eqb_eq Hn Hin).
Qed.

(** X7 -- in every such world an account has at most one stored recovery
    request, and after a successful [verifyRecoveryCode] it has none. *)
Theorem reachable_one_recovery_request :
  forall w : World,
    reachable P cfg decodeJws w ->
    forall userId,
      (List.length (filter (ownedBy userId) (recoveryCodes w)) <= 1)%nat
      /\ (forall code now,
            fst (verifyRecoveryCode P userId code now w) = Return true ->
            filter (ownedBy userId)
                   (recoveryCodes
                      (snd (verifyRecoveryCode P userId code now w))) = []).
Proof.
  intros w Hw userId.
  destruct (reachable_invariants P cfg decodeJws w Hw) as [_ Hinv].
  specialize (Hinv userId). unfold at_most_one in Hinv.
  split; [exact Hinv|]. intros code now.
  rewrite verifyRecoveryCode_run. simpl.
  rewrite <- findOneAndDelete_found.
  pose proof (findOneAndDelete_spec (liveMatch userId (sha256 P code) now)
                                    (recoveryCodes w)) as Hspec.
  destruct (findOneAndDelete _ (recoveryCodes w)) as [[d|] cs'];
    simpl; [|discriminate].
  intros _. destruct Hspec as (l1 & l2 & Hcs & -> & Hd & _).
  rewrite Hcs, filter_app in Hinv. simpl in Hinv.
  rewrite (@liveMatch_owned P userId code now d Hd) in Hinv.
  rewrite length_app in Hinv. simpl in Hinv. rewrite filter_app.
  destruct (filter (ownedBy userId) l1); [|simpl in Hinv; lia].
  destruct (filter (ownedBy userId) l2); [reflexivity | simpl in Hinv; lia].
Qed.

(** X8 -- in every such world, for every stored account: the flag
    [accountLocked] is set exactly when [lockUntil] holds a date, the
    failure counter is not negative, and whenever the account counts as
    locked the flag is set. *)
Theorem reachable_lock_consistent :
  forall w : World,
    reachable P cfg decodeJws w ->
    forall u, In u (users w) ->
      (IUser.accountLocked u = Some true <-> IUser.lockUntil u <> None)
      /\ 0 <= IUser.attempts u
      /\ (forall now, isAccountLocked u now = true ->
                      IUser.locked_flag u = true).
Proof.
  intros w Hw u Hin.
  destruct (reachable_invariants P cfg decodeJws w Hw) as [(_ & _ & Hall) _].
  rewrite Forall_forall in Hall. destruct (Hall u Hin) as (_ & Hl & Ha).
  split; [exact Hl|]. split; [exact Ha|].
  intros now. unfold isAccountLocked, IUser.locked_flag.
  destruct (IUser.lockUntil u) as [t|] eqn:Hu; [|discriminate].
  intros _. rewrite (proj2 Hl); [reflexivity | discriminate].
Qed.

(** [authenticate] answers and never calls [next] when no stored account
    is verified. *)
Lemma authenticate_unverified (req : Request) (now : Z) (w : World) :
  (forall u, In u (users w) -> IUser.isVerified u = false) ->
  exists r w',
    authenticate P cfg decodeJws req now w = (Return (Respond r), w')
    /\ (Api.status r = 401 \/ Api.status r = 403 \/ Api.status r = 500).
Proof.
  intros Hall. unfold authenticate. monad_simpl.
  repeat break_match;
    try (eexists; eexists; split; [reflexivity | simpl; tauto]).
  exfalso.
  match goal with
  | H : findById _ (users w) = Some ?u |- _ =>
      apply find_some in H as [Hin _]; specialize (Hall u Hin)
  end.
  match goal with
  | H : negb _ = false |- _ => rewrite Hall in H; discriminate
  end.
Qed.

(** X9 -- no entry point ever sets [isVerified]: in every world produced
    from empty stores all accounts are unverified, so [authenticate]
    answers every request with 401, 403 or 500 and never lets one through,
    and [optionalAuthenticate] never sets [req.user]. *)
Theorem reachable_never_verified :
  forall w : World,
    reachable P cfg decodeJws w ->
    (forall u, In u (users w) -> IUser.isVerified u = false)
    /\ (forall req now,
          exists r w',
            authenticate P cfg decodeJws req now w = (Return (Respond r), w')
            /\ (Api.status r = 401 \/ Api.status r = 403
                \/ Api.status r = 500))
    /\ (forall req now,
          fst (optionalAuthenticate P cfg decodeJws req now w)
          = Return (Next None)).
Proof.
  intros w Hw.
  destruct (reachable_invariants P cfg decodeJws w Hw) as [(_ & _ & Hall) _].
  rewrite Forall_forall in Hall.
  assert (Hver : forall u, In u (users w) -> IUser.isVerified u = false)
    by (intros u Hin; exact (proj1 (Hall u Hin))).
  split; [exact Hver|]. split.
  - intros req now. apply authenticate_unverified. exact Hver.
  - intros req now. unfold optionalAuthenticate. monad_simpl.
    repeat break_match; try reflexivity. exfalso.
    match goal with
    | H : findById _ (users w) = Some ?u |- _ =>
        apply find_some in H as [Hin _]; specialize (Hver u Hin)
    end.
    congruence.
Qed.

End ReachableWorlds.

Lemma worldRegistered_reachable (decodeJws : string -> Jwt.token) :
  reachable smallPlatform defaultConfig decodeJws worldRegistered.
Proof.
  exact (@reachable_step smallPlatform defaultConfig decodeJws
           (StepRegister aliceRegistration) 0 emptyWorld
           (@reachable_init smallPlatform defaultConfig decodeJws [] 0%nat
                            true)).
Qed.

(** Reachability is kept by a call of [findByCredentials], of
    [generateRecoveryCode] and of [register]. *)
Lemma reachable_attempt (P : Platform) (cfg : AuthConfig)
    (decodeJws : string -> Jwt.token) (e p : string) (t : Z) (w : World) :
  reachable P cfg decodeJws w -> reachable P cfg decodeJws (attempt P e p t w).
Proof.
  intros H.
  exact (@reachable_step P cfg decodeJws (Core (OpFindByCredentials e p)) t w
                         H).
Qed.

Lemma reachable_generate (P : Platform) (cfg : AuthConfig)
    (decodeJws : string -> Jwt.token) (i : string) (t : Z) (w : World) :
  reachable P cfg decodeJws w ->
  reachable P cfg decodeJws (snd (generateRecoveryCode P i t w)).
Proof.
  intros H.
  exact (@reachable_step P cfg decodeJws (Core (OpGenerateRecoveryCode i)) t w
                         H).
Qed.

Lemma reachable_register (P : Platform) (cfg : AuthConfig)
    (decodeJws : string -> Jwt.token) (req : AuthRequest) (t : Z)
    (w : World) :
  reachable P cfg decodeJws w ->
  reachable P cfg decodeJws (snd (register P cfg req t w)).
Proof.
  intros H.
  exact (@reachable_step P cfg decodeJws (StepRegister req) t w H).
Qed.

(** [worldBusy] is reached by two registrations, a request for a recovery
    code and five failed logins through [findByCredentials]. *)
Lemma worldBusy_reachable (decodeJws : string -> Jwt.token) :
  reachable smallPlatform defaultConfig decodeJws worldBusy.
Proof.
  unfold worldBusy.
  do 5 apply reachable_attempt.
  apply reachable_generate. apply reachable_register.
  apply worldRegistered_reachable.
Qed.

Lemma worldBusy_users : users worldBusy = [alice; bob_locked].
Proof. vm_compute. reflexivity. Qed.

Lemma reachable_unique_identities_witness :
  users worldBusy = [alice; bob_locked]
  /\ NoDup (map IUser.email (users worldBusy))
  /\ NoDup (map IUser.nickname (users worldBusy))
  /\ findOne (byEmail "bob@example.com") (users worldBusy) = Some bob_locked
  /\ findOne (byNickname "bob_02") (users worldBusy) = Some bob_locked.
Proof.
  destruct (reachable_unique_identities smallPlatform defaultConfig
              (fun s => Jwt.Malformed s) worldBusy
              (worldBusy_reachable (fun s => Jwt.Malformed s)))
    as (He & Hn & Hfind).
  split; [exact worldBusy_users|].
  split; [exact He|]. split; [exact Hn|].
  apply (Hfind bob_locked).
  rewrite worldBusy_users. right. left. reflexivity.
Defined.

Lemma reachable_one_recovery_request_witness :
  List.length (filter (ownedBy "userA") (recoveryCodes worldBusy)) = 1%nat
  /\ (List.length (filter (ownedBy "userA") (recoveryCodes worldBusy))
      <= 1)%nat
  /\ fst (verifyRecoveryCode smallPlatform "userA" "E1B2C3" 100 worldBusy)
     = Return true
  /\ filter (ownedBy "userA")
            (recoveryCodes
               (snd (verifyRecoveryCode smallPlatform "userA" "E1B2C3" 100
                       worldBusy)))
     = [].
Proof.
  destruct (reachable_one_recovery_request smallPlatform defaultConfig
              (fun s => Jwt.Malformed s) worldBusy
              (worldBusy_reachable (fun s => Jwt.Malformed s)) "userA")
    as (Hone & Hgone).
  assert (Hok : fst (verifyRecoveryCode smallPlatform "userA" "E1B2C3" 100
                       worldBusy) = Return true)
    by (vm_compute; reflexivity).
  split; [vm_compute; reflexivity|].
  split; [exact Hone|]. split; [exact Hok|].
  exact (Hgone "E1B2C3" 100 Hok).
Defined.

Lemma reachable_lock_consistent_witness :
  In bob_locked (users worldBusy)
  /\ IUser.lockUntil bob_locked = Some (70 + LOCK_TIME)
  /\ IUser.accountLocked bob_locked = Some true
  /\ 0 <= IUser.attempts bob_locked
  /\ isAccountLocked bob_locked 100 = true
  /\ IUser.locked_flag bob_locked = true.
Proof.
  assert (Hin : In bob_locked (users worldBusy))
    by (rewrite worldBusy_users; right; left; reflexivity).
  destruct (reachable_lock_consistent smallPlatform defaultConfig
              (fun s => Jwt.Malformed s) worldBusy
              (worldBusy_reachable (fun s => Jwt.Malformed s))
              bob_locked Hin)
    as (Hflag & Hcount & Hlocked).
  assert (Hnow : isAccountLocked bob_locked 100 = true)
    by (vm_compute; reflexivity).
  split; [exact Hin|]. split; [reflexivity|].
  split; [apply Hflag; discriminate|].
  split; [exact Hcount|]. split; [exact Hnow|].
  exact (Hlocked 100 Hnow).
Defined.

Lemma reachable_never_verified_witness :
  List.length (users worldRegistered) = 1%nat
  /\ forall u, In u (users worldRegistered) -> IUser.isVerified u = false.
Proof.
  split; [reflexivity|].
  exact (proj1 (reachable_never_verified smallPlatform defaultConfig
                  (fun s => Jwt.Malformed s) worldRegistered
                  (worldRegistered_reachable (fun s => Jwt.Malformed s)))).
Defined.

(** *** The lockout policy through [findByCredentials] *)

Lemma account_update (w : World) (e : string) (u : IUser.t)
    (f : IUser.t -> IUser.t) :
  account w e u ->
  (forall d, IUser._id (f d) = IUser._id d) ->
  (forall d, IUser.email (f d) = IUser.email d) ->
  findOne (byEmail e) (updateOne (byId (IUser._id u)) f (users w))
  = Some (f u)
  /\ findById (IUser._id (f u)) (updateOne (byId (IUser._id u)) f (users w))
     = Some (f u).
Proof.
  intros [Hemail Hid] Hfid Hfemail. split.
  - unfold findById, findOne in *. revert Hemail Hid.
    induction (users w) as [|d us IH]; simpl; [discriminate|].
    destruct (byId (IUser._id u) d) eqn:Hd.
    + intros Hemail [= ->]. simpl.
      assert (byEmail e u = true) as Hu
        by (destruct (byEmail e u) eqn:Heu; [reflexivity|];
            apply find_some in Hemail as [_ H]; congruence).
      unfold byEmail in *. rewrite Hfemail, Hu. reflexivity.
    + destruct (byEmail e d) eqn:He.
      * intros [= ->]. unfold byId in Hd. rewrite String.eqb_refl in Hd.
        discriminate.
      * intros Hemail Hid. simpl. rewrite He. exact (IH Hemail Hid).
  - rewrite Hfid, findById_updateOne by exact Hfid.
    rewrite String.eqb_refl, Hid. reflexivity.
Qed.

Section LockoutPolicy.
Variable P : Platform.

(** A failed attempt on an account that is not locked. *)
Lemma attempt_fails (email password : string) (now : Z) (w : World)
    (u : IUser.t) :
  account w (trim P (toLowerCase P email)) u ->
  isAccountLocked u now = false ->
  IUser.lockUntil u = None ->
  IUser.password u <> "" ->
  bcrypt_compare P password (IUser.password u) = false ->
  let lock := MAX_LOGIN_ATTEMPTS <=? IUser.attempts u + 1 in
  let u' :=
    if lock then
      IUser.set_lockout (Some (IUser.attempts u + 1)) (Some true)
                        (Some (now + LOCK_TIME)) u
    else
      IUser.set_lockout (Some (IUser.attempts u + 1)) (IUser.accountLocked u)
                        None u in
  fst (findByCredentials P email password now w) = Return None
  /\ account (attempt P email password now w)
             (trim P (toLowerCase P email)) u'.
Proof.
  intros Hacc Hlocked Hnone Hpw Hcmp lock u'.
  pose proof Hacc as [Hemail Hid].
  unfold attempt.
  rewrite (@findByCredentials_mismatch P email password now w u
             Hemail Hlocked Hpw Hcmp).
  split; [reflexivity|]. simpl.
  unfold incrementLoginAttempts, isLocked. rewrite Hnone. simpl.
  rewrite andb_true_r. fold lock. unfold account.
  destruct lock eqn:Hlock; monad_simpl.
  - assert (Hu' : u' = (fun d => IUser.set_lockout (inc_attempts d) (Some true)
                                   (Some (now + LOCK_TIME)) d) u)
      by reflexivity.
    rewrite Hu'.
    apply (account_update w _ u
             (fun d => IUser.set_lockout (inc_attempts d) (Some true)
                                         (Some (now + LOCK_TIME)) d) Hacc);
      intro; reflexivity.
  - assert (Hu' : u' = (fun d => IUser.set_lockout (inc_attempts d)
                                   (IUser.accountLocked d)
                                   (IUser.lockUntil d) d) u)
      by (simpl; rewrite Hnone; reflexivity).
    rewrite Hu'.
    apply (account_update w _ u
             (fun d => IUser.set_lockout (inc_attempts d)
                                         (IUser.accountLocked d)
                                         (IUser.lockUntil d) d) Hacc);
      intro; reflexivity.
Qed.

End LockoutPolicy.

Section LockoutScenario.
Variable P : Platform.

Lemma attempt_counts (email password : string) (now k : Z) (w : World)
    (u : IUser.t) :
  account w (trim P (toLowerCase P email)) u ->
  IUser.attempts u = k -> k + 1 < MAX_LOGIN_ATTEMPTS ->
  IUser.lockUntil u = None ->
  IUser.password u <> "" ->
  bcrypt_compare P password (IUser.password u) = false ->
  account (attempt P email password now w) (trim P (toLowerCase P email))
          (IUser.set_lockout (Some (k + 1)) (IUser.accountLocked u) None u).
Proof.
  intros Hacc Hk Hlt Hnone Hpw Hcmp.
  assert (Hlocked : isAccountLocked u now = false)
    by (unfold isAccountLocked; rewrite Hnone; reflexivity).
  destruct (attempt_fails P email password now w u Hacc Hlocked Hnone Hpw Hcmp)
    as [_ H].
  rewrite Hk in H.
  replace (MAX_LOGIN_ATTEMPTS <=? k + 1) with false in H
    by (symmetry; apply Z.leb_gt; exact Hlt).
  exact H.
Qed.

Lemma attempt_locks (email password : string) (now k : Z) (w : World)
    (u : IUser.t) :
  account w (trim P (toLowerCase P email)) u ->
  IUser.attempts u = k -> MAX_LOGIN_ATTEMPTS <= k + 1 ->
  IUser.lockUntil u = None ->
  IUser.password u <> "" ->
  bcrypt_compare P password (IUser.password u) = false ->
  account (attempt P email password now w) (trim P (toLowerCase P email))
          (IUser.set_lockout (Some (k + 1)) (Some true)
                             (Some (now + LOCK_TIME)) u).
Proof.
  intros Hacc Hk Hle Hnone Hpw Hcmp.
  assert (Hlocked : isAccountLocked u now = false)
    by (unfold isAccountLocked; rewrite Hnone; reflexivity).
  destruct (attempt_fails P email password now w u Hacc Hlocked Hnone Hpw Hcmp)
    as [_ H].
  rewrite Hk in H.
  replace (MAX_LOGIN_ATTEMPTS <=? k + 1) with true in H
    by (symmetry; apply Z.leb_le; exact Hle).
  exact H.
Qed.

(** A successful attempt on an account that is not locked. *)
Lemma attempt_succeeds (email password : string) (now : Z) (w : World)
    (u : IUser.t) :
  account w (trim P (toLowerCase P email)) u ->
  isAccountLocked u now = false ->
  IUser.password u <> "" ->
  bcrypt_compare P password (IUser.password u) = true ->
  fst (findByCredentials P email password now w) = Return (Some u)
  /\ account (attempt P email password now w)
             (trim P (toLowerCase P email)) (after_success u now).
Proof.
  intros Hacc Hlocked Hpw Hcmp. pose proof Hacc as [Hemail Hid].
  unfold attempt.
  rewrite (@findByCredentials_match P email password now w u
             Hemail Hlocked Hpw Hcmp).
  split; [reflexivity|]. simpl.
  unfold resetLoginAttempts, account. monad_simpl.
  apply (account_update w _ u
           (fun d => IUser.set_lastLoginAt (Some now)
                       (IUser.set_lockout None None None d)) Hacc);
    intro; reflexivity.
Qed.

(** X10 -- the lockout policy of [findByCredentials], end to end: after
    five consecutive wrong passwords on a fresh account the account is
    stored with five failures, locked until two hours after the fifth;
    until then every attempt, with whatever password, is refused with
    [ACCOUNT_LOCKED] and changes no account; from then on the right
    password is accepted and the stored account has no failures, no lock
    and [lastLoginAt] set to the time of the login. *)
Theorem five_failures_lock_the_account :
  forall (email wrong right : string) (t1 t2 t3 t4 t5 : Z) (w : World)
         (u : IUser.t),
    let e := trim P (toLowerCase P email) in
    account w e u ->
    IUser.attempts u = 0 ->
    IUser.lockUntil u = None ->
    IUser.password u <> "" ->
    bcrypt_compare P wrong (IUser.password u) = false ->
    bcrypt_compare P right (IUser.password u) = true ->
    let w5 :=
      attempt P email wrong t5
        (attempt P email wrong t4
           (attempt P email wrong t3
              (attempt P email wrong t2 (attempt P email wrong t1 w)))) in
    let locked :=
      IUser.set_lockout (Some 5) (Some true) (Some (t5 + LOCK_TIME)) u in
    account w5 e locked
    /\ (forall t password,
          t < t5 + LOCK_TIME ->
          fst (findByCredentials P email password t w5)
          = Throw (Error "ACCOUNT_LOCKED")
          /\ users (attempt P email password t w5) = users w5)
    /\ (forall t,
          t5 + LOCK_TIME <= t ->
          fst (findByCredentials P email right t w5) = Return (Some locked)
          /\ account (attempt P email right t w5) e
                     (IUser.set_lastLoginAt (Some t)
                        (IUser.set_lockout None None None u))).
Proof.
  intros email wrong right t1 t2 t3 t4 t5 w u e Hacc H0 Hnone Hpw Hwrong
         Hright w5 locked.
  pose proof (attempt_counts email wrong t1 0 w u Hacc H0 eq_refl Hnone Hpw
                Hwrong) as H1.
  pose proof (attempt_counts email wrong t2 1 _ _ H1 eq_refl eq_refl eq_refl
                Hpw Hwrong) as H2.
  pose proof (attempt_counts email wrong t3 2 _ _ H2 eq_refl eq_refl eq_refl
                Hpw Hwrong) as H3.
  pose proof (attempt_counts email wrong t4 3 _ _ H3 eq_refl eq_refl eq_refl
                Hpw Hwrong) as H4.
  assert (Hle : MAX_LOGIN_ATTEMPTS <= 4 + 1) by (unfold MAX_LOGIN_ATTEMPTS; lia).
  pose proof (attempt_locks email wrong t5 4 _ _ H4 eq_refl Hle eq_refl
                Hpw Hwrong) as H5.
  change (account w5 e locked) in H5.
  split; [exact H5|]. split.
  - intros t password Ht. unfold attempt.
    assert (Hl : isAccountLocked locked t = true)
      by (unfold isAccountLocked; simpl; apply Z.ltb_lt; exact Ht).
    rewrite (@findByCredentials_locked P email password t w5 locked
               (proj1 H5) Hl).
    split; reflexivity.
  - intros t Ht.
    assert (Hl : isAccountLocked locked t = false)
      by (unfold isAccountLocked; simpl; apply Z.ltb_ge; exact Ht).
    exact (attempt_succeeds email right t w5 locked H5 Hl Hpw Hright).
Qed.

End LockoutScenario.

Lemma five_failures_lock_the_account_witness :
  let w5 :=
    attempt smallPlatform "alice@example.com" "Wr0ng!Pass" 50
      (attempt smallPlatform "alice@example.com" "Wr0ng!Pass" 40
         (attempt smallPlatform "alice@example.com" "Wr0ng!Pass" 30
            (attempt smallPlatform "alice@example.com" "Wr0ng!Pass" 20
               (attempt smallPlatform "alice@example.com" "Wr0ng!Pass" 10
                  (worldOf alice))))) in
  fst (findByCredentials smallPlatform "alice@example.com" "Str0ng!Pass"
                         60 w5) = Throw (Error "ACCOUNT_LOCKED")
  /\ fst (findByCredentials smallPlatform "alice@example.com" "Str0ng!Pass"
                            (50 + LOCK_TIME) w5)
     = Return (Some (IUser.set_lockout (Some 5) (Some true)
                                       (Some (50 + LOCK_TIME)) alice)).
Proof.
  destruct (five_failures_lock_the_account smallPlatform "alice@example.com"
              "Wr0ng!Pass" "Str0ng!Pass" 10 20 30 40 50 (worldOf alice) alice)
    as (_ & Hlocked & Hopen).
  - split; reflexivity.
  - reflexivity.
  - reflexivity.
  - discriminate.
  - reflexivity.
  - reflexivity.
  - split.
    + apply Hlocked. vm_compute. reflexivity.
    + apply Hopen. vm_compute. discriminate.
Defined.

(** *** The success transition *)

(** X11 -- [resetLoginAttempts] on a stored account clears the counter and
    the lock and stamps [lastLoginAt]; the account then counts as unlocked
    at every time; and a second reset leaves exactly what a single reset at
    the later time leaves. *)
Theorem resetLoginAttempts_idempotent :
  forall (this stored : IUser.t) (t1 t2 : Z) (w : World),
    findById (IUser._id this) (users w) = Some stored ->
    let w1 := snd (resetLoginAttempts this t1 w) in
    let w2 := snd (resetLoginAttempts this t2 w1) in
    findById (IUser._id this) (users w1) = Some (after_success stored t1)
    /\ IUser.attempts (after_success stored t1) = 0
    /\ (forall now, isAccountLocked (after_success stored t1) now = false)
    /\ users w2 = users (snd (resetLoginAttempts this t2 w)).
Proof.
  intros this stored t1 t2 w Hfind. unfold resetLoginAttempts. monad_simpl.
  split; [|split; [reflexivity|split; [reflexivity|]]].
  - rewrite findById_updateOne by (intro; reflexivity).
    rewrite String.eqb_refl, Hfind. reflexivity.
  - clear Hfind. induction (users w) as [|d us IH]; simpl; [reflexivity|].
    destruct (byId (IUser._id this) d) eqn:Hd; simpl.
    + unfold byId in *. simpl. rewrite Hd. reflexivity.
    + rewrite Hd, IH. reflexivity.
Qed.

Lemma resetLoginAttempts_idempotent_witness :
  findById "userA"
    (users (snd (resetLoginAttempts alice_locked 9000
                   (worldOf alice_locked))))
  = Some (after_success alice_locked 9000).
Proof.
  exact (proj1 (resetLoginAttempts_idempotent alice_locked alice_locked
                  9000 9500 (worldOf alice_locked) eq_refl)).
Defined.

(** *** Recovery codes, end to end *)

Section RecoveryFlows.
Variable P : Platform.

Lemma findOneAndDelete_none {D : Type} (p : D -> bool) (c : list D) :
  existsb p c = false -> findOneAndDelete p c = (None, c).
Proof.
  induction c as [|x c IH]; simpl; [reflexivity|].
  intros H. apply orb_false_iff in H as [Hx Hc].
  rewrite Hx, (IH Hc). reflexivity.
Qed.

Lemma existsb_filter_owned (userId hashed : string) (now : Z)
    (cs : list IRecoveryCode.t) :
  existsb (liveMatch userId hashed now) cs
  = existsb (liveMatch userId hashed now) (filter (ownedBy userId) cs).
Proof.
  induction cs as [|d cs IH]; simpl; [reflexivity|].
  unfold ownedBy at 1. unfold liveMatch at 1.
  destruct (String.eqb (IRecoveryCode.userId d) userId) eqn:Hd; simpl.
  - unfold liveMatch at 2. rewrite Hd, IH. reflexivity.
  - exact IH.
Qed.

Lemma generated_code_live (userId : string) (now later : Z) (w : World) :
  existsb (liveMatch userId (sha256 P (randomHex P (draws w) 3)) later)
          (recoveryCodes (snd (generateRecoveryCode P userId now w)))
  = (later <? now + 15 * 60 * 1000).
Proof.
  pose proof (generateRecoveryCode_at_most_one P userId now w) as Hgen.
  change (15 * 60 * 1000) with 900000 in *.
  destruct (generateRecoveryCode P userId now w) as [r w'].
  destruct Hgen as (_ & Hown & _ & _). simpl.
  rewrite existsb_filter_owned, Hown. simpl. unfold liveMatch. simpl.
  rewrite !String.eqb_refl. simpl. apply orb_false_r.
Qed.

Lemma generated_code_verifies (userId : string) (now later : Z) (w : World) :
  later < now + 15 * 60 * 1000 ->
  fst (verifyRecoveryCode P userId (randomHex P (draws w) 3) later
         (snd (generateRecoveryCode P userId now w)))
  = Return true.
Proof.
  intros Hlt. rewrite verifyRecoveryCode_run. cbn [fst].
  rewrite generated_code_live. apply Z.ltb_lt in Hlt. rewrite Hlt.
  reflexivity.
Qed.

(** X12 -- whatever the stores held, the code that [generateRecoveryCode]
    returns verifies for the same account at every time before fifteen
    minutes have passed, and that verification leaves the account without
    any recovery request; from fifteen minutes on it does not verify, and
    the expired request stays stored. *)
Theorem recovery_code_round_trip :
  forall (userId : string) (now later : Z) (w : World),
    let code := randomHex P (draws w) 3 in
    let w1 := snd (generateRecoveryCode P userId now w) in
    fst (generateRecoveryCode P userId now w) = Return code
    /\ (later < now + 15 * 60 * 1000 ->
        fst (verifyRecoveryCode P userId code later w1) = Return true
        /\ filter (ownedBy userId)
                  (recoveryCodes
                     (snd (verifyRecoveryCode P userId code later w1))) = [])
    /\ (now + 15 * 60 * 1000 <= later ->
        verifyRecoveryCode P userId code later w1 = (Return false, w1)).
Proof.
  intros userId now later w code w1.
  pose proof (generateRecoveryCode_at_most_one P userId now w) as Hgen.
  change (15 * 60 * 1000) with 900000 in *.
  unfold w1. fold code in Hgen.
  destruct (generateRecoveryCode P userId now w) as [r w'] eqn:Hrun.
  destruct Hgen as (-> & Hown & _ & _). simpl.
  split; [reflexivity|].
  assert (Hex : existsb (liveMatch userId (sha256 P code) later)
                        (recoveryCodes w')
                = (later <? now + 900000)).
  { rewrite existsb_filter_owned, Hown. simpl. unfold liveMatch. simpl.
    rewrite !String.eqb_refl. simpl. apply orb_false_r. }
  split.
  - intros Hlt. rewrite verifyRecoveryCode_run. simpl.
    apply Z.ltb_lt in Hlt. rewrite Hex, Hlt. split; [reflexivity|].
    pose proof (findOneAndDelete_spec
                  (liveMatch userId (sha256 P code) later) (recoveryCodes w'))
      as Hspec.
    pose proof (findOneAndDelete_found
                  (liveMatch userId (sha256 P code) later) (recoveryCodes w'))
      as Hfound.
    destruct (findOneAndDelete _ (recoveryCodes w')) as [[d|] cs'];
      simpl in *; [|congruence].
    destruct Hspec as (l1 & l2 & Hcs & -> & Hd & _).
    rewrite Hcs, filter_app in Hown. simpl in Hown.
    rewrite (@liveMatch_owned P userId code later d Hd) in Hown.
    rewrite filter_app.
    destruct (filter (ownedBy userId) l1) as [|x l1'];
      [|destruct l1'; discriminate].
    simpl in Hown. injection Hown as _ ->. reflexivity.
  - intros Hge. rewrite verifyRecoveryCode_run.
    apply Z.ltb_ge in Hge. rewrite Hex, Hge.
    rewrite findOneAndDelete_none by (rewrite Hex; exact Hge).
    destruct w'; reflexivity.
Qed.

(** X13 -- a second [generateRecoveryCode] for the account supersedes the
    first: afterwards the first code verifies only if it hashes like the
    second one (and the second has not expired). *)
Theorem recovery_code_superseded :
  forall (userId : string) (t1 t2 later : Z) (w : World),
    let code1 := randomHex P (draws w) 3 in
    let w1 := snd (generateRecoveryCode P userId t1 w) in
    let code2 := randomHex P (draws w1) 3 in
    let w2 := snd (generateRecoveryCode P userId t2 w1) in
    fst (verifyRecoveryCode P userId code1 later w2)
    = Return (String.eqb (sha256 P code2) (sha256 P code1)
              && (later <? t2 + 15 * 60 * 1000)).
Proof.
  intros userId t1 t2 later w code1 w1 code2 w2.
  pose proof (generateRecoveryCode_at_most_one P userId t2 w1) as Hgen.
  change (15 * 60 * 1000) with 900000 in *.
  unfold w2. fold code2 in Hgen.
  destruct (generateRecoveryCode P userId t2 w1) as [r w'].
  destruct Hgen as (_ & Hown & _ & _).
  rewrite verifyRecoveryCode_run. simpl.
  rewrite existsb_filter_owned, Hown. simpl. unfold liveMatch. simpl.
  rewrite String.eqb_refl, orb_false_r. reflexivity.
Qed.


End RecoveryFlows.

Lemma recovery_code_round_trip_witness :
  let w1 := snd (generateRecoveryCode smallPlatform "userA" 0
                   (worldOf alice)) in
  fst (verifyRecoveryCode smallPlatform "userA" "A1B2C3" 899999 w1)
  = Return true
  /\ verifyRecoveryCode smallPlatform "userA" "A1B2C3" 900000 w1
     = (Return false, w1).
Proof.
  destruct (recovery_code_round_trip smallPlatform "userA" 0 899999
              (worldOf alice)) as (_ & Hlive & _).
  destruct (recovery_code_round_trip smallPlatform "userA" 0 900000
              (worldOf alice)) as (_ & _ & Hdead).
  split.
  - apply Hlive. vm_compute. reflexivity.
  - apply Hdead. vm_compute. discriminate.
Defined.


(** *** Backup codes, end to end *)

Lemma updateOne_absent (i : string) (f : IUser.t -> IUser.t)
    (us : list IUser.t) :
  findById i us = None -> updateOne (byId i) f us = us.
Proof.
  unfold findById, findOne. induction us as [|d us IH]; simpl; [reflexivity|].
  destruct (byId i d); [discriminate|]. intros H. rewrite (IH H). reflexivity.
Qed.

Lemma indexOf_in (x : string) (l : list string) :
  In x l -> exists i, indexOf x l = Some i.
Proof.
  intros Hin. destruct (indexOf x l) as [i|] eqn:Hi; [exists i; reflexivity|].
  exfalso. exact (indexOf_none x l Hi Hin).
Qed.

Section BackupCodeFlows.
Variable P : Platform.

(** X15 -- for a stored account, each of the five codes that
    [generateBackupCodes] returns is accepted by [validateBackupCode] and
    its use leaves four hashes stored; when the five hashes are distinct
    the same code is refused the second time.  For a well-formed id under
    which no account is stored, [generateBackupCodes] still returns five
    codes but stores nothing, and [validateBackupCode] refuses every
    code. *)
Theorem backup_codes_round_trip :
  forall (userId : string) (w : World),
    let codes := fst (generateBackupCodes P userId w) in
    let w1 := snd (generateBackupCodes P userId w) in
    (forall u, findById userId (users w) = Some u ->
       exists cs,
         codes = Return cs /\ List.length cs = 5%nat
         /\ forall code, In code cs ->
              let w2 := snd (validateBackupCode P userId code w1) in
              fst (validateBackupCode P userId code w1) = Return true
              /\ (exists u2,
                    findById userId (users w2) = Some u2
                    /\ List.length (IUser.backupCodes u2) = 4%nat)
              /\ (NoDup (map (sha256 P) cs) ->
                  fst (validateBackupCode P userId code w2) = Return false))
    /\ (isObjectId userId = true ->
        findById userId (users w) = None ->
        (exists cs, codes = Return cs /\ List.length cs = 5%nat)
        /\ users w1 = users w
        /\ forall code w',
             users w' = users w ->
             validateBackupCode P userId code w' = (Return false, w')).
Proof.
  intros userId w codes w1. unfold codes, w1.
  rewrite generateBackupCodes_run. simpl. split.
  - intros u Hu. eexists. split; [reflexivity|]. split; [reflexivity|].
    set (cs := [randomHex P (draws w + 0) 8; randomHex P (draws w + 1) 8;
                randomHex P (draws w + 2) 8; randomHex P (draws w + 3) 8;
                randomHex P (draws w + 4) 8]).
    intros code Hin.
    set (w1' := mkWorld _ _ _ _ _).
    assert (Hu1 : findById userId (users w1')
                  = Some (IUser.set_backupCodes (map (sha256 P) cs) u)).
    { unfold w1'. simpl. rewrite findById_updateOne by (intro; reflexivity).
      rewrite String.eqb_refl, Hu. reflexivity. }
    rewrite (@validateBackupCode_run P userId code w1' _ Hu1).
    cbn [IUser.backupCodes IUser.set_backupCodes].
    destruct (indexOf_in (sha256 P code) (map (sha256 P) cs)
                (in_map _ _ _ Hin)) as [i Hi].
    rewrite Hi. cbn [fst snd].
    destruct (@indexOf_split _ _ _ Hi) as (l1 & l2 & Hl & Hnot & _ & Hsp).
    rewrite Hsp.
    assert (Hlen : List.length (l1 ++ l2)%list = 4%nat).
    { assert (H5 : List.length (map (sha256 P) cs) = 5%nat) by reflexivity.
      rewrite Hl, length_app in H5. simpl in H5. rewrite length_app. lia. }
    set (w2 := mkWorld _ _ _ _ _).
    assert (Hu2 : findById userId (users w2)
                  = Some (IUser.set_backupCodes (l1 ++ l2)
                            (IUser.set_backupCodes (map (sha256 P) cs) u))).
    { unfold w2. cbn [users].
      rewrite findById_updateOne by (intro; reflexivity).
      rewrite String.eqb_refl, Hu1. reflexivity. }
    split; [reflexivity|]. split.
    + eexists. split; [exact Hu2 | exact Hlen].
    + intros Hnd.
      rewrite (@validateBackupCode_run P userId code w2 _ Hu2).
      cbn [IUser.backupCodes IUser.set_backupCodes].
      destruct (indexOf (sha256 P code) (l1 ++ l2)) as [j|] eqn:Hj;
        [|reflexivity].
      exfalso. destruct (@indexOf_split _ _ _ Hj) as (a & b & Hab & _).
      rewrite Hl in Hnd. apply NoDup_remove_2 in Hnd. apply Hnd.
      rewrite Hab. apply in_or_app. right. left. reflexivity.
  - intros _ Hnone. rewrite (updateOne_absent _ _ _ Hnone).
    split; [eexists; split; reflexivity|].
    split; [reflexivity|]. intros code w' Hw'.
    unfold validateBackupCode. monad_simpl. rewrite Hw', Hnone. reflexivity.
Qed.

End BackupCodeFlows.

Lemma backup_codes_round_trip_witness :
  let w1 := snd (generateBackupCodes smallPlatform "userA" (worldOf alice)) in
  let nobody := "507f1f77bcf86cd799439011" in
  let w2 := snd (generateBackupCodes smallPlatform nobody (worldOf alice)) in
  fst (validateBackupCode smallPlatform "userA" "C1B2C3" w1) = Return true
  /\ (exists cs,
        fst (generateBackupCodes smallPlatform nobody (worldOf alice))
        = Return cs /\ List.length cs = 5%nat)
  /\ users w2 = [alice]
  /\ fst (validateBackupCode smallPlatform nobody "C1B2C3" w2)
     = Return false.
Proof.
  destruct (backup_codes_round_trip smallPlatform "userA" (worldOf alice))
    as [Hstored _].
  destruct (backup_codes_round_trip smallPlatform "507f1f77bcf86cd799439011"
              (worldOf alice))
    as [_ Hmissing].
  destruct (Hstored alice eq_refl) as (cs & Hcs & _ & Hall).
  injection Hcs as <-.
  destruct (Hmissing eq_refl eq_refl) as (Hfive & Hu & H).
  split; [apply (Hall "C1B2C3"); simpl; tauto|].
  split; [exact Hfive|]. split; [exact Hu|].
  rewrite (H "C1B2C3" _ Hu). reflexivity.
Defined.

(** *** Password reset *)

Section PasswordReset.
Variable P : Platform.
Variable cfg : AuthConfig.

(** What the reset handler does, case by case. *)
Lemma password_reset_run (email code newPassword : string) (now : Z)
    (w : World) (u : IUser.t) :
  findOne (byEmail email) (users w) = Some u ->
  let live := liveMatch (IUser._id u) (sha256 P code) now in
  let cs' := snd (findOneAndDelete live (recoveryCodes w)) in
  RecoveryController_verifyRecoveryCode P cfg email code newPassword now w
  = if existsb live (recoveryCodes w) then
      if validPasswordPath cfg newPassword then
        (Return (mkResponse 200 true "Password reset successfully"),
         mkWorld (updateOne (byId (IUser._id u))
                    (IUser.set_password
                       (bcrypt_hash P newPassword (passwordSaltRounds cfg)
                                    (draws w)) now)
                    (users w))
                 cs' (trace w) (S (draws w)) (smtpUp w))
      else
        (Throw (ValidationError "User validation failed"),
         mkWorld (users w) cs' (trace w) (draws w) (smtpUp w))
    else (Throw (Error "Invalid or expired code"), w).
Proof.
  intros Hu live cs'.
  unfold RecoveryController_verifyRecoveryCode, bind at 1.
  unfold getUsers at 1. rewrite Hu. unfold bind at 1.
  rewrite verifyRecoveryCode_run. fold live. fold cs'.
  destruct (existsb live (recoveryCodes w)) eqn:Hex; simpl.
  - unfold save_password.
    destruct (validPasswordPath cfg newPassword); monad_simpl; reflexivity.
  - unfold throw. f_equal. unfold cs'.
    rewrite findOneAndDelete_none by exact Hex. destruct w; reflexivity.
Qed.

(** X16 -- the reset handler consumes the recovery code before it looks at
    the new password: with a live code and a new password that the schema
    rejects, the request fails with a validation error, the stored password
    is unchanged, and the code is gone, so that the same code with an
    acceptable password is then refused as invalid or expired. *)
Theorem password_reset_burns_code :
  forall (email code weak strong : string) (now later : Z) (w : World)
         (u : IUser.t),
    findOne (byEmail email) (users w) = Some u ->
    at_most_one (IUser._id u) (recoveryCodes w) ->
    existsb (liveMatch (IUser._id u) (sha256 P code) now) (recoveryCodes w)
    = true ->
    validPasswordPath cfg weak = false ->
    let w1 :=
      snd (RecoveryController_verifyRecoveryCode P cfg email code weak now w)
    in
    fst (RecoveryController_verifyRecoveryCode P cfg email code weak now w)
    = Throw (ValidationError "User validation failed")
    /\ users w1 = users w
    /\ filter (ownedBy (IUser._id u)) (recoveryCodes w1) = []
    /\ RecoveryController_verifyRecoveryCode P cfg email code strong later w1
       = (Throw (Error "Invalid or expired code"), w1).
Proof.
  intros email code weak strong now later w u Hu Hone Hex Hweak w1.
  unfold w1. rewrite (password_reset_run email code weak now w u Hu).
  rewrite Hex, Hweak. cbn [fst snd users recoveryCodes].
  split; [reflexivity|]. split; [reflexivity|].
  pose proof (findOneAndDelete_spec
                (liveMatch (IUser._id u) (sha256 P code) now)
                (recoveryCodes w)) as Hspec.
  pose proof (findOneAndDelete_found
                (liveMatch (IUser._id u) (sha256 P code) now)
                (recoveryCodes w)) as Hfound.
  destruct (findOneAndDelete _ (recoveryCodes w)) as [[d|] cs'];
    simpl in *; [|congruence].
  destruct Hspec as (l1 & l2 & Hcs & -> & Hd & _).
  assert (Hempty : filter (ownedBy (IUser._id u)) (l1 ++ l2)%list = []).
  { unfold at_most_one in Hone. rewrite Hcs, filter_app in Hone.
    simpl in Hone.
    rewrite (@liveMatch_owned P (IUser._id u) code now d Hd) in Hone.
    rewrite length_app in Hone. simpl in Hone. rewrite filter_app.
    destruct (filter (ownedBy (IUser._id u)) l1); [|simpl in Hone; lia].
    destruct (filter (ownedBy (IUser._id u)) l2);
      [reflexivity | simpl in Hone; lia]. }
  split; [exact Hempty|].
  match goal with
  | |- RecoveryController_verifyRecoveryCode _ _ _ _ _ _ ?W = _ =>
      rewrite (password_reset_run email code strong later W u Hu)
  end.
  cbn [recoveryCodes].
  rewrite existsb_filter_owned, Hempty. reflexivity.
Qed.

(** X17 -- password reset end to end, for a stored account and a working
    mail transport: [initPasswordReset] mails a code to the account's
    address and answers 200; with that code, before fifteen minutes have
    passed, and a new password that the schema accepts, the reset answers
    200 and stores the bcrypt hash of the new password as submitted; the
    lockout fields of the account are not touched; and [loginUser] then
    accepts every password whose NFKC form is the new password. *)
Theorem password_reset_then_login :
  forall (email loginEmail newPassword candidate secret : string)
         (t0 t1 t2 : Z) (w : World) (u : IUser.t),
    account w email u ->
    normalizeEmail P loginEmail = email ->
    smtpUp w = true ->
    t1 < t0 + 15 * 60 * 1000 ->
    validPasswordPath cfg newPassword = true ->
    nfkc P candidate = newPassword ->
    getJwtSecret cfg = Return secret ->
    let code := randomHex P (draws w) 3 in
    let w1 := snd (RecoveryController_initPasswordReset P email t0 w) in
    let w2 :=
      snd (RecoveryController_verifyRecoveryCode P cfg email code newPassword
                                                  t1 w1) in
    let u' :=
      IUser.set_password
        (bcrypt_hash P newPassword (passwordSaltRounds cfg) (S (draws w)))
        t1 u in
    fst (RecoveryController_initPasswordReset P email t0 w)
    = Return (mkResponse 200 true "Recovery code sent to email")
    /\ trace w1 = (trace w ++ [MailSent (IUser.email u) code])%list
    /\ fst (RecoveryController_verifyRecoveryCode P cfg email code newPassword
                                                   t1 w1)
       = Return (mkResponse 200 true "Password reset successfully")
    /\ account w2 email u'
    /\ IUser.failedLoginAttempts u' = IUser.failedLoginAttempts u
    /\ IUser.accountLocked u' = IUser.accountLocked u
    /\ IUser.lockUntil u' = IUser.lockUntil u
    /\ exists tok,
         fst (loginUser P cfg (LoginUserDTO.mk loginEmail candidate) t2 w2)
         = Return (mkAuthResult (sanitizeUser u') tok).
Proof.
  intros email loginEmail newPassword candidate secret t0 t1 t2 w u
         Hacc Hnorm Hsmtp Hlive Hvalid Hnfkc Hsecret code w1 w2 u'.
  pose proof Hacc as [Hemail Hid].
  pose proof (generated_code_verifies P (IUser._id u) t0 t1 w Hlive)
    as Hverify.
  (* the first request *)
  assert (Hinit : RecoveryController_initPasswordReset P email t0 w
                  = (Return (mkResponse 200 true "Recovery code sent to email"),
                     addTrace (snd (generateRecoveryCode P (IUser._id u) t0 w))
                              [MailSent (IUser.email u) code])).
  { unfold RecoveryController_initPasswordReset, bind at 1.
    unfold getUsers at 1. rewrite Hemail. unfold bind at 1.
    pose proof (generateRecoveryCode_at_most_one P (IUser._id u) t0 w) as Hg.
    destruct (generateRecoveryCode P (IUser._id u) t0 w) as [r wg] eqn:Hrun.
    destruct Hg as (-> & _ & _ & _).
    assert (Hs : smtpUp wg = true).
    { revert Hrun. unfold generateRecoveryCode. monad_simpl.
      intros [= <-]. exact Hsmtp. }
    unfold sendRecoveryEmail. monad_simpl. rewrite Hs. reflexivity. }
  assert (Hw1 : w1 = addTrace (snd (generateRecoveryCode P (IUser._id u) t0 w))
                              [MailSent (IUser.email u) code])
    by (unfold w1; rewrite Hinit; reflexivity).
  assert (Husers1 : users w1 = users w).
  { rewrite Hw1. unfold generateRecoveryCode. monad_simpl. reflexivity. }
  assert (Hdraws1 : draws w1 = S (draws w)).
  { rewrite Hw1. unfold generateRecoveryCode. monad_simpl. reflexivity. }
  assert (Hcodes1 : recoveryCodes w1
                    = recoveryCodes
                        (snd (generateRecoveryCode P (IUser._id u) t0 w)))
    by (rewrite Hw1; reflexivity).
  assert (Hemail1 : findOne (byEmail email) (users w1) = Some u)
    by (rewrite Husers1; exact Hemail).
  assert (Hex : existsb (liveMatch (IUser._id u) (sha256 P code) t1)
                        (recoveryCodes w1) = true).
  { rewrite Hcodes1. rewrite verifyRecoveryCode_run in Hverify.
    simpl in Hverify. injection Hverify as Hverify. exact Hverify. }
  split; [rewrite Hinit; reflexivity|].
  split.
  { rewrite Hw1. unfold generateRecoveryCode. monad_simpl. reflexivity. }
  (* the second request *)
  pose proof (password_reset_run email code newPassword t1 w1 u Hemail1)
    as Hreset.
  cbv zeta in Hreset. rewrite Hex, Hvalid, Hdraws1 in Hreset.
  unfold w2. rewrite Hreset. cbn [fst snd].
  split; [reflexivity|].
  assert (Hacc2 : account
                    (mkWorld
                       (updateOne (byId (IUser._id u))
                          (IUser.set_password
                             (bcrypt_hash P newPassword
                                (passwordSaltRounds cfg) (S (draws w))) t1)
                          (users w1))
                       (snd (findOneAndDelete
                               (liveMatch (IUser._id u) (sha256 P code) t1)
                               (recoveryCodes w1)))
                       (trace w1) (S (S (draws w))) (smtpUp w1))
                    email u').
  { unfold account. cbn [users]. rewrite Husers1.
    apply (account_update w email u
             (IUser.set_password
                (bcrypt_hash P newPassword (passwordSaltRounds cfg)
                             (S (draws w))) t1) Hacc);
      intro; reflexivity. }
  split; [exact Hacc2|].
  split; [reflexivity|]. split; [reflexivity|]. split; [reflexivity|].
  destruct Hacc2 as [Hemail2 _]. rewrite <- Hnorm in Hemail2.
  rewrite (@loginUser_found P cfg (LoginUserDTO.mk loginEmail candidate) t2
             _ u' Hemail2).
  cbn [LoginUserDTO.password]. rewrite Hnfkc.
  unfold u' at 1. cbn [IUser.password IUser.set_password].
  rewrite bcrypt_compare_hash.
  unfold generateToken. rewrite Hsecret. eexists. reflexivity.
Qed.

End PasswordReset.

Lemma password_reset_burns_code_witness :
  let w := snd (generateRecoveryCode smallPlatform "userA" 0
                  (worldOf alice)) in
  let w1 :=
    snd (RecoveryController_verifyRecoveryCode smallPlatform defaultConfig
           "alice@example.com" "A1B2C3" "weak" 1000 w) in
  users w1 = users w
  /\ RecoveryController_verifyRecoveryCode smallPlatform defaultConfig
       "alice@example.com" "A1B2C3" "N3w!Passw0rd" 2000 w1
     = (Throw (Error "Invalid or expired code"), w1).
Proof.
  destruct (password_reset_burns_code smallPlatform defaultConfig
              "alice@example.com" "A1B2C3" "weak" "N3w!Passw0rd" 1000 2000
              (snd (generateRecoveryCode smallPlatform "userA" 0
                      (worldOf alice)))
              alice) as (_ & Hu & _ & Hretry).
  - reflexivity.
  - unfold at_most_one. simpl. lia.
  - reflexivity.
  - reflexivity.
  - split; [exact Hu | exact Hretry].
Defined.

Lemma password_reset_then_login_witness :
  let w1 := snd (RecoveryController_initPasswordReset smallPlatform
                   "alice@example.com" 0 (worldOf alice)) in
  let w2 := snd (RecoveryController_verifyRecoveryCode smallPlatform
                   defaultConfig "alice@example.com" "A1B2C3" "N3w!Passw0rd"
                   1000 w1) in
  exists r,
    fst (loginUser smallPlatform defaultConfig
           (LoginUserDTO.mk "alice@example.com" "N3w!Passw0rd") 2000 w2)
    = Return r.
Proof.
  destruct (password_reset_then_login smallPlatform defaultConfig
              "alice@example.com" "alice@example.com" "N3w!Passw0rd"
              "N3w!Passw0rd" "secret" 0 1000 2000 (worldOf alice) alice)
    as (_ & _ & _ & _ & _ & _ & _ & tok & Hlogin).
  - split; reflexivity.
  - reflexivity.
  - reflexivity.
  - vm_compute. reflexivity.
  - reflexivity.
  - reflexivity.
  - reflexivity.
  - eexists. exact Hlogin.
Defined.

(** *** Tokens in requests *)

Lemma prefix_split (a h : string) :
  String.prefix a h = true -> exists t, h = a ++ t.
Proof.
  revert h. induction a as [|c a IH]; intros h.
  - intros _. exists h. reflexivity.
  - destruct h as [|d h]; simpl; [discriminate|].
    destruct (ascii_dec c d) as [->|]; [|discriminate].
    intros H. destruct (IH h H) as [t ->]. exists t. reflexivity.
Qed.

Lemma split_on_cut (sep : ascii) (l : list ascii) :
  exists p ps rest,
    split_on sep l = p :: ps
    /\ existsb (Ascii.eqb sep) p = false
    /\ l = (p ++ rest)%list
    /\ (rest = [] \/ exists r, rest = sep :: r).
Proof.
  induction l as [|c l (p & ps & rest & Hs & Hp & Hl & Hr)]; simpl.
  - exists [], [], []. repeat split. left. reflexivity.
  - destruct (Ascii.eqb c sep) eqn:Hc.
    + apply Ascii.eqb_eq in Hc. subst c.
      exists [], (split_on sep l), (sep :: l). repeat split.
      right. exists l. reflexivity.
    + rewrite Hs. exists (c :: p), ps, rest. simpl.
      rewrite Ascii.eqb_sym, Hc, Hp. repeat split; [|exact Hr].
      rewrite Hl at 1. reflexivity.
Qed.

Lemma string_of_list_ascii_app (a b : list ascii) :
  string_of_list_ascii (a ++ b)
  = string_of_list_ascii a ++ string_of_list_ascii b.
Proof.
  induction a as [|c a IH]; simpl; [reflexivity|]. rewrite IH. reflexivity.
Qed.

(** X18 -- [extractTokenFromRequest]: a non-empty [auth_token] cookie is
    the token whatever the [Authorization] header says; without such a
    cookie a header that starts with [Bearer ] gives the text between that
    prefix and the next space: the header is [Bearer ], the token, and a
    rest that is empty or begins with a space, and the token has no space
    (so it is the whole rest of the header when that has no space, and the
    empty string when nothing or a space follows the prefix); any other
    header, or none, gives no token. *)
Theorem extractTokenFromRequest_spec :
  forall req : Request,
    (forall t, cookie_auth_token req = Some t -> t <> "" ->
               extractTokenFromRequest req = Some t)
    /\ (cookie_auth_token req = None \/ cookie_auth_token req = Some "" ->
        match authorization req with
        | Some h =>
            if String.prefix "Bearer " h then
              exists s rest,
                extractTokenFromRequest req = Some s
                /\ includes " " s = false
                /\ (forall t, h = "Bearer " ++ t -> includes " " t = false ->
                              s = t)
                /\ h = "Bearer " ++ s ++ rest
                /\ (rest = "" \/ exists r, rest = String " " r)
            else extractTokenFromRequest req = None
        | None => extractTokenFromRequest req = None
        end).
Proof.
  intros req. unfold extractTokenFromRequest. split.
  - intros t Ht Hne. rewrite Ht. unfold truthy.
    apply String.eqb_neq in Hne. rewrite Hne. reflexivity.
  - intros Hcookie.
    assert (Hhdr :
      match cookie_auth_token req with
      | Some cookieToken =>
          if truthy cookieToken then Some cookieToken
          else
            match authorization req with
            | Some authHeader =>
                if String.prefix "Bearer " authHeader then
                  option_map string_of_list_ascii
                    (nth_error (split_on " " (chars authHeader)) 1)
                else None
            | None => None
            end
      | None =>
          match authorization req with
          | Some authHeader =>
              if String.prefix "Bearer " authHeader then
                option_map string_of_list_ascii
                  (nth_error (split_on " " (chars authHeader)) 1)
              else None
          | None => None
          end
      end
      = match authorization req with
        | Some authHeader =>
            if String.prefix "Bearer " authHeader then
              option_map string_of_list_ascii
                (nth_error (split_on " " (chars authHeader)) 1)
            else None
        | None => None
        end)
      by (destruct Hcookie as [-> | ->]; reflexivity).
    rewrite Hhdr. clear Hhdr.
    destruct (authorization req) as [h|]; [|reflexivity].
    destruct (String.prefix "Bearer " h) eqn:Hp; [|reflexivity].
    destruct (prefix_split _ _ Hp) as [t ->].
    destruct (split_on_cut " " (chars t))
      as (p & ps & rest & Hs & Hno & Hcut & Hrest).
    assert (Hsplit : split_on " " (chars ("Bearer " ++ t))
                     = chars "Bearer" :: p :: ps)
      by (simpl; fold (chars t); rewrite Hs; reflexivity).
    assert (Ht : t = string_of_list_ascii p ++ string_of_list_ascii rest).
    { rewrite <- string_of_list_ascii_app, <- Hcut.
      symmetry. apply string_of_list_ascii_of_string. }
    rewrite Hsplit. simpl.
    exists (string_of_list_ascii p), (string_of_list_ascii rest).
    split; [reflexivity|]. split; [|split; [|split]].
    + unfold includes, chars.
      rewrite list_ascii_of_string_of_list_ascii. exact Hno.
    + intros t' Ht' Hnosp.
      assert (t' = t) as -> by (simpl in Ht'; congruence).
      destruct Hrest as [-> | [r ->]].
      * rewrite app_nil_r in Hcut. rewrite <- Hcut.
        apply string_of_list_ascii_of_string.
      * exfalso. unfold includes in Hnosp. rewrite Hcut in Hnosp.
        rewrite existsb_app in Hnosp. simpl in Hnosp.
        rewrite orb_true_r in Hnosp. discriminate.
    + rewrite <- Ht. reflexivity.
    + destruct Hrest as [-> | [r ->]]; [left; reflexivity|].
      right. exists (string_of_list_ascii r). reflexivity.
Qed.

Section SessionChecks.
Variable P : Platform.
Variable cfg : AuthConfig.
Variable decodeJws : string -> Jwt.token.

(** X19 -- [checkAuth] never throws and never writes to the stores; it
    reports an authenticated request exactly when the request carries a
    non-empty token that [verifyToken] accepts and whose [id] claim is the
    id of a stored account, and then it returns that account, sanitised.
    Neither the verification flag nor the lock of the account is looked
    at. *)
Theorem checkAuth_spec :
  forall (req : Request) (now : Z) (w : World),
    exists (isAuthenticated : bool) (u : option SanitizedUser.t) (w' : World),
      checkAuth P cfg decodeJws req now w = (Return (isAuthenticated, u), w')
      /\ users w' = users w
      /\ recoveryCodes w' = recoveryCodes w
      /\ (isAuthenticated = true <->
          exists token decoded stored,
            extractTokenFromRequest req = Some token
            /\ token <> ""
            /\ verifyToken P cfg (decodeJws token) now = Return decoded
            /\ findById (AuthTokenPayload.id (Jwt.claims decoded)) (users w)
               = Some stored
            /\ u = Some (sanitizeUser stored)).
Proof.
  intros req now w. unfold checkAuth. monad_simpl.
  destruct (extractTokenFromRequest req) as [token|] eqn:Hx; simpl.
  - unfold truthy. destruct (String.eqb token "") eqn:Ht; simpl.
    + apply String.eqb_eq in Ht. subst token.
      exists false, None, w. repeat split; try discriminate.
      intros (t & d & s & [= <-] & Hne & _). contradiction.
    + apply String.eqb_neq in Ht.
      destruct (verifyToken P cfg (decodeJws token) now) as [decoded|e]
        eqn:Hv; simpl.
      * destruct (findById _ (users w)) as [stored|] eqn:Hf; simpl.
        -- exists true, (Some (sanitizeUser stored)), w.
           repeat split; try reflexivity.
           intros _. exists token, decoded, stored. repeat split; assumption.
        -- eexists false, None, _. split; [reflexivity|].
           repeat split; try discriminate.
           intros (t & d & s & [= <-] & _ & Hd & Hs & _).
           rewrite Hv in Hd. injection Hd as <-. congruence.
      * exists false, None, w. repeat split; try discriminate.
        intros (t & d & s & [= <-] & _ & Hd & _). congruence.
  - exists false, None, w. repeat split; try discriminate.
    intros (t & d & s & H & _). discriminate.
Qed.



End SessionChecks.


(** X21 -- the order of the checks in [verifyToken]: a token issued for one
    audience and presented to a verifier that shares the secret but expects
    another audience is refused as [INVALID_TOKEN] while it has not
    expired, and as [TOKEN_EXPIRED] once it has -- expiry is reported
    before the audience is looked at. *)
Theorem token_for_other_audience :
  forall (P : Platform) (issuer verifier : AuthConfig) (secret : string)
         (payload : AuthTokenPayload.t) (now later : Z),
    getJwtSecret issuer = Return secret ->
    getJwtSecret verifier = Return secret ->
    jwtAudience issuer <> jwtAudience verifier ->
    exists tok,
      generateToken P issuer payload now = Return tok
      /\ verifyToken P verifier tok later
         = if later / 1000 <? now / 1000 + jwtExpiresIn issuer
           then Throw invalidToken else Throw tokenExpired.
Proof.
  intros P issuer verifier secret payload now later Hi Hv Haud.
  eexists. split; [unfold generateToken; rewrite Hi; reflexivity|].
  rewrite (@verifyToken_cases P verifier secret _ later Hv).
  unfold jwt_sign, expired. cbn [Jwt.exp Jwt.aud Jwt.iss].
  (* the signature was made over the same payload with the same secret *)
  destruct (String.eqb _ _) eqn:Hsig;
    [|rewrite String.eqb_refl in Hsig; discriminate].
  simpl. rewrite Z.leb_antisym.
  destruct (later / 1000 <? now / 1000 + jwtExpiresIn issuer); simpl;
    [|reflexivity].
  apply String.eqb_neq in Haud. rewrite Haud. reflexivity.
Qed.

Lemma token_for_other_audience_witness :
  exists tok,
    generateToken smallPlatform defaultConfig
      (AuthTokenPayload.mk "userA" "alice@example.com" "alice_01") 5000
    = Return tok
    /\ verifyToken smallPlatform lenientConfig tok 6000 = Throw invalidToken.
Proof.
  destruct (token_for_other_audience smallPlatform defaultConfig
              lenientConfig "secret"
              (AuthTokenPayload.mk "userA" "alice@example.com" "alice_01")
              5000 6000) as (tok & Hgen & Hver).
  - reflexivity.
  - reflexivity.
  - discriminate.
  - exists tok. split; assumption.
Defined.

(** *** The controllers *)

Section Controllers.
Variable P : Platform.
Variable cfg : AuthConfig.
Variable decodeJws : string -> Jwt.token.

(** X22 -- the login endpoint gives no account oracle in its answer: a
    request for an email that is not registered and a request with a wrong
    password for a registered one get the same reply, 401 [Invalid email or
    password] without cookie, and neither changes a store.  The requests
    are told apart only inside: the bcrypt comparison runs for the
    registered email and not for the other. *)
Theorem login_same_reply_for_unknown_and_wrong :
  forall (unknown wrong : AuthRequest) (now : Z) (w : World) (u : IUser.t),
    validateRequest unknown = None ->
    validateRequest wrong = None ->
    validateLoginInput (body_email unknown) (body_password unknown) = None ->
    validateLoginInput (body_email wrong) (body_password wrong) = None ->
    findOne (byEmail (normalizeEmail P (body_email unknown))) (users w)
    = None ->
    findOne (byEmail (normalizeEmail P (body_email wrong))) (users w)
    = Some u ->
    bcrypt_compare P (nfkc P (body_password wrong)) (IUser.password u)
    = false ->
    let reply := Sent (Api.unauthorized now "Invalid email or password") None in
    login P cfg unknown now w
    = (Return reply,
       addTrace w [LogSecurity "LOGIN_ATTEMPT_INVALID_USER";
                   LogSecurity "LOGIN_FAILED"])
    /\ login P cfg wrong now w
       = (Return reply,
          addTrace w [BcryptCompare (IUser._id u);
                      LogSecurity "LOGIN_ATTEMPT_INVALID_PASSWORD";
                      LogSecurity "LOGIN_FAILED"]).
Proof.
  intros unknown wrong now w u Hv1 Hv2 Hi1 Hi2 Hnone Hsome Hcmp reply.
  unfold login. rewrite Hv1, Hv2, Hi1, Hi2. unfold try_catch, bind.
  rewrite (@loginUser_absent P cfg
             (LoginUserDTO.mk (body_email unknown) (body_password unknown))
             now w Hnone).
  rewrite (@loginUser_found P cfg
             (LoginUserDTO.mk (body_email wrong) (body_password wrong))
             now w u Hsome).
  cbn [LoginUserDTO.password]. rewrite Hcmp.
  unfold emit, ret, addTrace. simpl. rewrite <- !app_assoc.
  split; reflexivity.
Qed.

(** X23 -- what the login handler does with a request.  When the
    validator chain of the route has recorded an error, [validateRequest]
    throws before the [try] block: the [VALIDATION_ERROR] with the
    recorded messages goes to [next] through [asyncHandler], nothing is
    logged and no store is touched.  Otherwise the handler itself answers,
    with 200, 400, 401 or 500, and never changes a store.  It answers 200
    and sets the session cookie exactly when its own input check passes,
    the normalised email is that of a stored account, the NFKC form of the
    password matches the stored hash and a signing secret is configured;
    the reply then carries that account, sanitised, and the cookie the
    token issued for it.  The lockout fields of the account take no part
    in this. *)
Theorem login_outcomes :
  forall (req : AuthRequest) (now : Z) (w : World),
    exists (result : HandlerResult) (w' : World),
      login P cfg req now w = (Return result, w')
      /\ users w' = users w
      /\ recoveryCodes w' = recoveryCodes w
      /\ match validationErrors req with
         | [] =>
             exists r cookie,
               result = Sent r cookie
               /\ (Api.status r = 200 \/ Api.status r = 400
                   \/ Api.status r = 401 \/ Api.status r = 500)
               /\ (cookie <> None <-> Api.status r = 200)
               /\ (Api.status r = 200 <->
                   validateLoginInput (body_email req) (body_password req)
                   = None
                   /\ exists u secret,
                        findOne (byEmail (normalizeEmail P (body_email req)))
                                (users w) = Some u
                        /\ bcrypt_compare P (nfkc P (body_password req))
                                          (IUser.password u) = true
                        /\ getJwtSecret cfg = Return secret
                        /\ r = Api.ok now "Login successful"
                                      (Some (sanitizeUser u))
                        /\ cookie
                           = Some (jwt_sign P cfg
                                     (AuthTokenPayload.mk (IUser._id u)
                                        (IUser.email u) (IUser.nickname u))
                                     secret now))
         | errs =>
             result
             = Forwarded
                 (mkInputError
                    ("Validation failed: " ++ String.concat ", " errs)
                    400 VALIDATION_ERROR)
             /\ w' = w
         end.
Proof.
  intros req now w. unfold login, validateRequest.
  destruct (validationErrors req) as [|m ms];
    [|do 2 eexists; repeat split].
  destruct (validateLoginInput (body_email req) (body_password req))
    as [e|] eqn:Hin.
  { do 2 eexists. split; [reflexivity|]. split; [reflexivity|].
    split; [reflexivity|]. do 2 eexists. split; [reflexivity|].
    simpl. split; [right; left; reflexivity|].
    split; [split; [congruence | discriminate]|].
    split; [discriminate | intros [H _]; discriminate]. }
  unfold try_catch, bind.
  destruct (findOne (byEmail (normalizeEmail P (body_email req))) (users w))
    as [u|] eqn:Hfind.
  - rewrite (@loginUser_found P cfg
               (LoginUserDTO.mk (body_email req) (body_password req))
               now w u Hfind).
    cbn [LoginUserDTO.password].
    destruct (bcrypt_compare P (nfkc P (body_password req))
                             (IUser.password u)) eqn:Hcmp.
    + unfold generateToken.
      destruct (getJwtSecret cfg) as [secret|ex] eqn:Hsec.
      * do 2 eexists. split; [reflexivity|]. split; [reflexivity|].
        split; [reflexivity|]. do 2 eexists. split; [reflexivity|].
        simpl. split; [left; reflexivity|].
        split; [split; [reflexivity | discriminate]|].
        split; [intros _|reflexivity].
        split; [reflexivity|]. exists u, secret. repeat split; assumption.
      * do 2 eexists. split; [reflexivity|]. split; [reflexivity|].
        split; [reflexivity|]. do 2 eexists. split; [reflexivity|].
        simpl. split; [right; right; right; reflexivity|].
        split; [split; [congruence | discriminate]|].
        split; [discriminate|].
        intros (_ & u' & secret & _ & _ & Hs & _). discriminate.
    + do 2 eexists. split; [reflexivity|]. split; [reflexivity|].
      split; [reflexivity|]. do 2 eexists. split; [reflexivity|].
      simpl. split; [right; right; left; reflexivity|].
      split; [split; [congruence | discriminate]|].
      split; [discriminate|].
      intros (_ & u' & secret & Hu' & Hc' & _). congruence.
  - rewrite (@loginUser_absent P cfg
               (LoginUserDTO.mk (body_email req) (body_password req))
               now w Hfind).
    do 2 eexists. split; [reflexivity|]. split; [reflexivity|].
    split; [reflexivity|]. do 2 eexists. split; [reflexivity|].
    simpl. split; [right; right; left; reflexivity|].
    split; [split; [congruence | discriminate]|].
    split; [discriminate|].
    intros (_ & u' & secret & Hu' & _). discriminate.
Qed.

(** X24 -- what [AuthService.createUser] throws when it refuses, and in
    which order: a taken email is [EMAIL_EXISTS] (409) even when the
    nickname is taken or the password weak; otherwise a taken nickname is
    [NICKNAME_EXISTS] (409); otherwise a weak password is [WEAK_PASSWORD]
    (400); otherwise input that the schema rejects (such as an email that
    is no address) is [USER_CREATION_FAILED] (500).  In all four cases no
    account is stored; in the first three nothing at all is written or
    logged. *)
Theorem createUser_refusal_order :
  forall (userData : CreateUserDTO.t) (now : Z) (w : World),
  let e := normalizeEmail P (CreateUserDTO.email userData) in
  let n := normalizeNickname P (CreateUserDTO.nickname userData) in
  let pw := CreateUserDTO.password userData in
  (isSome (findOne (byEmail e) (users w)) = true ->
   createUser P cfg userData now w
   = (Throw (AppError "Email already registered" 409 EMAIL_EXISTS), w))
  /\ (isSome (findOne (byEmail e) (users w)) = false ->
      isSome (findOne (byNickname n) (users w)) = true ->
      createUser P cfg userData now w
      = (Throw (AppError "Nickname already taken" 409 NICKNAME_EXISTS), w))
  /\ (isSome (findOne (byEmail e) (users w)) = false ->
      isSome (findOne (byNickname n) (users w)) = false ->
      validatePasswordStrength cfg pw = false ->
      createUser P cfg userData now w
      = (Throw (AppError "Password does not meet strength requirements" 400
                         WEAK_PASSWORD), w))
  /\ (isSome (findOne (byEmail e) (users w)) = false ->
      isSome (findOne (byNickname n) (users w)) = false ->
      validatePasswordStrength cfg pw = true ->
      validEmailPath e && validPasswordPath cfg (nfkc P pw)
      && validNicknamePath (trim P n) = false ->
      fst (createUser P cfg userData now w)
      = Throw (AppError "User creation failed" 500 USER_CREATION_FAILED)
      /\ users (snd (createUser P cfg userData now w)) = users w).
Proof.
  intros userData now w e n pw. unfold createUser, checkEmailExists, checkNicknameExists.
  fold e. fold n. fold pw. monad_simpl.
  split; [intros ->; reflexivity|].
  split; [intros -> ->; reflexivity|].
  split; [intros -> -> ->; reflexivity|].
  intros -> -> -> Hschema. simpl.
  assert (He : trim P (toLowerCase P e) = e)
    by (unfold e, normalizeEmail; apply lower_trim_idem).
  unfold User_create, normalizePassword. monad_simpl.
  rewrite !He, Hschema. simpl. split; reflexivity.
Qed.


(** X26 -- a session, end to end: after a successful registration the
    reply is 201 with the new account and a session cookie; as long as the
    token has not expired, a request that carries this cookie is reported
    as authenticated by [checkAuth], with the same account, while
    [authenticate] answers it with 403 [Account not verified]; from the
    expiry on, [checkAuth] reports it as not authenticated.  (The id of the
    new account is assumed fresh.) *)
Theorem register_then_session :
  forall (req : AuthRequest) (cookie secret : string) (now later : Z)
         (w w1 : World) (su : SanitizedUser.t) (browser : Request),
    validateRequest req = None ->
    getJwtSecret cfg = Return secret ->
    createUser P cfg
      (CreateUserDTO.mk (body_email req) (body_password req)
                        (body_nickname req)) now w = (Return su, w1) ->
    findById (SanitizedUser.id su) (users w) = None ->
    let tok :=
      jwt_sign P cfg
        (AuthTokenPayload.mk (SanitizedUser.id su) (SanitizedUser.email su)
                             (SanitizedUser.nickname su)) secret now in
    cookie <> "" ->
    decodeJws cookie = tok ->
    cookie_auth_token browser = Some cookie ->
    let w2 := snd (register P cfg req now w) in
    fst (register P cfg req now w)
    = Return (Sent (Api.created now "User registered successfully" (Some su))
                   (Some tok))
    /\ (later / 1000 < now / 1000 + jwtExpiresIn cfg ->
        fst (checkAuth P cfg decodeJws browser later w2)
        = Return (true, Some su)
        /\ fst (authenticate P cfg decodeJws browser later w2)
           = Return (Respond (Api.forbidden later "Account not verified")))
    /\ (now / 1000 + jwtExpiresIn cfg <= later / 1000 ->
        fst (checkAuth P cfg decodeJws browser later w2)
        = Return (false, None)).
Proof.
  intros req cookie secret now later w w1 su browser Hv Hsecret Hcreate
         Hfresh tok Hne Hdecode Hcookie w2.
  pose proof (@createUser_success P cfg _ now w w1 su Hcreate)
    as (doc & Husers & Hsu & _).
  assert (Hreg : register P cfg req now w
                 = (Return (Sent (Api.created now
                                    "User registered successfully" (Some su))
                                 (Some tok)),
                    addTrace w1 [LogAuth "USER_REGISTERED"])).
  { unfold register. rewrite Hv. unfold try_catch, bind. rewrite Hcreate.
    unfold lift, generateToken. rewrite Hsecret. reflexivity. }
  unfold w2. rewrite Hreg. cbn [fst snd].
  split; [reflexivity|].
  assert (Hx : extractTokenFromRequest browser = Some cookie).
  { unfold extractTokenFromRequest. rewrite Hcookie. unfold truthy.
    apply String.eqb_neq in Hne. rewrite Hne. reflexivity. }
  assert (Hfind : findById (SanitizedUser.id su)
                           (users (addTrace w1 [LogAuth "USER_REGISTERED"]))
                  = Some doc).
  { cbn [users addTrace]. rewrite Husers. unfold findById, findOne in *.
    rewrite find_snoc, Hfresh. rewrite Hsu. cbn [SanitizedUser.id sanitizeUser].
    unfold byId. rewrite String.eqb_refl. reflexivity. }
  assert (Hunverified : IUser.isVerified doc = false).
  { revert Hcreate Husers.
    unfold createUser, checkEmailExists, checkNicknameExists, User_create.
    monad_simpl. repeat break_match; try discriminate.
    intros [= <- <-]. cbn [users].
    intros H. apply app_inv_head in H. injection H as <-. reflexivity. }
  pose proof (@verifyToken_cases P cfg secret tok later Hsecret) as Hver.
  unfold tok at 2 in Hver. unfold jwt_sign in Hver.
  rewrite String.eqb_refl in Hver. cbn [negb] in Hver.
  unfold expired in Hver. cbn [Jwt.exp Jwt.aud Jwt.iss opt_is] in Hver.
  rewrite !String.eqb_refl in Hver. cbn [negb] in Hver.
  split.
  - intros Hlive.
    replace (now / 1000 + jwtExpiresIn cfg <=? later / 1000) with false
      in Hver by (symmetry; apply Z.leb_gt; exact Hlive).
    split.
    + unfold checkAuth. monad_simpl. rewrite Hx. unfold truthy.
      apply String.eqb_neq in Hne. rewrite Hne. simpl.
      rewrite Hdecode, Hver. simpl.
      cbn [users addTrace] in Hfind. rewrite Hfind, Hsu. reflexivity.
    + unfold authenticate. monad_simpl. rewrite Hx. unfold truthy.
      apply String.eqb_neq in Hne. rewrite Hne. simpl.
      rewrite Hdecode, Hver. simpl.
      cbn [users addTrace] in Hfind. rewrite Hfind, Hunverified. reflexivity.
  - intros Hdead.
    replace (now / 1000 + jwtExpiresIn cfg <=? later / 1000) with true
      in Hver by (symmetry; apply Z.leb_le; exact Hdead).
    unfold checkAuth. monad_simpl. rewrite Hx. unfold truthy.
    apply String.eqb_neq in Hne. rewrite Hne. simpl.
    rewrite Hdecode, Hver. reflexivity.
Qed.

End Controllers.

Lemma login_same_reply_for_unknown_and_wrong_witness :
  fst (login smallPlatform defaultConfig
         (mkAuthRequest [] "bob@example.com" "Str0ng!Pass" "") 100
         (worldOf alice))
  = fst (login smallPlatform defaultConfig
           (mkAuthRequest [] "alice@example.com" "Wr0ng!Pass" "") 100
           (worldOf alice)).
Proof.
  destruct (login_same_reply_for_unknown_and_wrong smallPlatform defaultConfig
              (mkAuthRequest [] "bob@example.com" "Str0ng!Pass" "")
              (mkAuthRequest [] "alice@example.com" "Wr0ng!Pass" "")
              100 (worldOf alice) alice
              eq_refl eq_refl eq_refl eq_refl eq_refl eq_refl eq_refl)
    as [H1 H2].
  rewrite H1, H2. reflexivity.
Defined.

Lemma createUser_refusal_order_witness :
  fst (createUser smallPlatform defaultConfig
         (CreateUserDTO.mk "alice@example.com" "weak" "alice_01") 100
         (worldOf alice))
  = Throw (AppError "Email already registered" 409 EMAIL_EXISTS)
  /\ fst (createUser smallPlatform defaultConfig
            (CreateUserDTO.mk "bob@example.com" "weak" "alice_01") 100
            (worldOf alice))
     = Throw (AppError "Nickname already taken" 409 NICKNAME_EXISTS)
  /\ fst (createUser smallPlatform defaultConfig
            (CreateUserDTO.mk "bob@example.com" "weak" "bob_02") 100
            (worldOf alice))
     = Throw (AppError "Password does not meet strength requirements" 400
                       WEAK_PASSWORD)
  /\ fst (createUser smallPlatform defaultConfig
            (CreateUserDTO.mk "bob.example.com" "B0b!Secret1" "bob_02") 100
            (worldOf alice))
     = Throw (AppError "User creation failed" 500 USER_CREATION_FAILED).
Proof.
  destruct (createUser_refusal_order smallPlatform defaultConfig
              (CreateUserDTO.mk "alice@example.com" "weak" "alice_01") 100
              (worldOf alice)) as (H1 & _).
  destruct (createUser_refusal_order smallPlatform defaultConfig
              (CreateUserDTO.mk "bob@example.com" "weak" "alice_01") 100
              (worldOf alice)) as (_ & H2 & _).
  destruct (createUser_refusal_order smallPlatform defaultConfig
              (CreateUserDTO.mk "bob@example.com" "weak" "bob_02") 100
              (worldOf alice)) as (_ & _ & H3 & _).
  destruct (createUser_refusal_order smallPlatform defaultConfig
              (CreateUserDTO.mk "bob.example.com" "B0b!Secret1" "bob_02") 100
              (worldOf alice)) as (_ & _ & _ & H4).
  split; [rewrite (H1 eq_refl); reflexivity|].
  split; [rewrite (H2 eq_refl eq_refl); reflexivity|].
  split; [rewrite (H3 eq_refl eq_refl eq_refl); reflexivity|].
  exact (proj1 (H4 eq_refl eq_refl eq_refl eq_refl)).
Defined.


Lemma register_then_session_witness :
  let browser := mkRequest (Some "cookieA") None in
  fst (checkAuth smallPlatform defaultConfig decodeSmall browser 5000
                 worldRegistered)
  = Return (true, Some (sanitizeUser alice))
  /\ fst (authenticate smallPlatform defaultConfig decodeSmall browser 5000
                       worldRegistered)
     = Return (Respond (Api.forbidden 5000 "Account not verified")).
Proof.
  destruct (createUser smallPlatform defaultConfig
              (CreateUserDTO.mk "alice@example.com" "Str0ng!Pass" "alice_01")
              0 emptyWorld) as [r w1] eqn:Hcreate.
  assert (Hr : r = Return (sanitizeUser alice))
    by (vm_compute in Hcreate; injection Hcreate as <- _; reflexivity).
  subst r.
  destruct (register_then_session smallPlatform defaultConfig decodeSmall
              aliceRegistration "cookieA" "secret" 0 5000 emptyWorld w1
              (sanitizeUser alice) (mkRequest (Some "cookieA") None)
              eq_refl eq_refl Hcreate eq_refl)
    as (_ & Hlive & _).
  - discriminate.
  - reflexivity.
  - reflexivity.
  - apply Hlive. vm_compute. reflexivity.
Defined.

(** *** Profile update and the second recovery-code check *)

Section ProfileAndRecovery.
Variable P : Platform.

(** X27 -- [updateProfile] always answers (it never throws), leaves every
    other account as it was, and changes of the requesting account at most
    the nickname, and that only to a nickname the schema accepts; without
    a session it answers 401 and changes nothing. *)
Theorem updateProfile_changes_only_the_nickname :
  forall (req_user : option IUser.t) (nickname : option string) (now : Z)
         (w : World),
    exists r w',
      updateProfile P req_user nickname now w = (Return r, w')
      /\ recoveryCodes w' = recoveryCodes w
      /\ match req_user with
         | None => r = Api.unauthorized now "Not authenticated"
                   /\ users w' = users w
         | Some u =>
             (forall i, i <> IUser._id u ->
                        findById i (users w') = findById i (users w))
             /\ (forall stored,
                   findById (IUser._id u) (users w) = Some stored ->
                   findById (IUser._id u) (users w') = Some stored
                   \/ exists v,
                        validNicknamePath v = true
                        /\ findById (IUser._id u) (users w')
                           = Some (IUser_set_nickname v stored))
         end.
Proof.
  intros req_user nickname now w. unfold updateProfile. monad_simpl.
  destruct req_user as [u|];
    [|eexists; eexists; repeat split; reflexivity].
  repeat break_match;
    eexists; eexists; (split; [reflexivity|]); (split; [reflexivity|]);
    simpl; split;
    try (intros i Hi; reflexivity);
    try (intros stored Hs; left; exact Hs).
  all: try (intros i Hi; rewrite findById_updateOne by (intro; reflexivity);
            apply String.eqb_neq in Hi; rewrite Hi; reflexivity).
  all: intros stored Hs;
    first
      [ left; congruence
      | right; eexists; split;
        [ match goal with
          | H : negb (validNicknamePath ?v) = false |- _ =>
              apply negb_false_iff in H; exact H
          end
        | rewrite findById_updateOne by (intro; reflexivity);
          rewrite String.eqb_refl, Hs; reflexivity ] ].
Qed.

(** X28 -- [validateRecoveryCode] never returns [false].  It leaves the
    stores as [verifyRecoveryCode] leaves them (a matching live request is
    deleted) and returns [true] where [verifyRecoveryCode] does; where
    [verifyRecoveryCode] returns [false] it throws a [TypeError], raised by
    the call of [warn] on the undefined default import [logger], and
    nothing is logged. *)
Theorem validateRecoveryCode_never_returns_false :
  forall (userId code : string) (now : Z) (w : World),
    let a := validateRecoveryCode P userId code now w in
    let b := verifyRecoveryCode P userId code now w in
    snd a = snd b
    /\ (fst b = Return true <-> fst a = Return true)
    /\ (fst b = Return false <->
        fst a = Throw (TypeError
                         "Cannot read properties of undefined (reading 'warn')"))
    /\ (fst b = Return true \/ fst b = Return false)
    /\ fst a <> Return false.
Proof.
  intros userId code now w a b. unfold a, b.
  rewrite verifyRecoveryCode_run.
  unfold validateRecoveryCode, logger_warn. monad_simpl.
  rewrite <- findOneAndDelete_found.
  destruct (findOneAndDelete _ (recoveryCodes w)) as [[d|] cs']; simpl;
    (split; [reflexivity|]);
    (split; [split; congruence|]);
    (split; [split; congruence|]);
    (split; [auto | congruence]).
Qed.

End ProfileAndRecovery.
